(* ===== verification/_CoqProject ===== *)
-Q . S2P
Prelude.v
Json.v
Like.v
Store.v
Web.v
Auth.v
Posts.v
Blog.v
Urls.v
Menu.v
MenuApp.v
OpenApi.v
