(* ===== verification/Prelude.v ===== *)
(** * A verification development for the blog and menu backends

    The repository holds two independent web services.

    - [src/app.py] is a Flask blog.  Its state is a SQLite database with
      two tables, [User] and [Post] (SQLAlchemy models, lines 26-52).
      Each browser also holds a signed session cookie and, after a
      "remember me" login, a remember-me cookie.  Both are managed by
      Flask-Login ([login_user], [logout_user], [current_user] through
      the [load_user] callback) and by Flask's [flash].  Ten routes read
      and change this state: [index], [login], [signup], [logout],
      [profile], [create_post], [view_post], [edit_post], [delete_post]
      and [search].
    - [src/main.py] is a FastAPI menu service behind Starlette's CORS
      middleware.  [menu_db] is a constant in-memory catalog of dicts,
      [get_menu] returns it (FastAPI validates it against
      [List[MenuItem]]), and [place_order] receives a body that Pydantic
      validates against [OrderRequest], refuses an empty order and prints
      the others to the console.

    The two services share nothing.  In the blog, each request first loads
    the current user from the session, then the view reads or writes the
    database.  A write becomes visible only at [db.session.commit()], and
    a commit that fails changes nothing.

    ** Files, in dependency order

    - [Prelude] (this file): Python's [str(int)] ([py_str]) and
      [int(str)] ([py_int]) with the round trip [py_int_str]; the
      exceptions the code can raise ([exc]) and the [result] type with
      its bind notation; the largest key of a [gmap]; the hint databases
      [blog] and [blog_rw]; the tactics [invc] and [simpl_str].
    - [Like] (Module [Like]): SQLite's LIKE, which [Column.contains]
      compiles to ([like], [contains]), on 8-bit text, with [%] and [_]
      as wildcards and ASCII case folding.
    - [Store] (Module [Models]): the [User] and [Post] rows; the
      database [Db] as two [gmap Z] tables keyed by row id; the queries
      [.filter_by(...).first()] ([first_where] over a row-id-ordered
      [scan]); SQLite's row-id allocation [next_rowid] (largest id plus
      one, 1 for an empty table, failure at [2^63 - 1]); the commits
      [insert_user], [insert_post], [update_post] and [delete_post] with
      their NOT NULL and UNIQUE checks and column defaults; lookups by
      primary key ([get_row]), which raise [OverflowError] for an id
      outside SQLite's 64-bit INTEGER; the invariant [wf_db] and a
      decision procedure for it.
    - [Web] (Modules [Http] and [Login]): requests, pages, responses,
      the session and the client's cookies, [flash]; Flask-Login's
      [load_user], [load_request_user], [login_user], [logout_user],
      [update_remember_cookie] (run after each response),
      [login_required] and [UserMixin.__ne__] ([user_ne]).
    - [Auth] (Module [Auth]): the interface [PasswordHasher] for
      Werkzeug's [generate_password_hash]/[check_password_hash], a class
      with two laws; [set_password], [check_password] and the handlers
      [login], [signup] and [logout], in a Section over an instance.
    - [Posts] (Module [Posts]): ordering by [date_posted] descending
      (stdpp's stable [merge_sort] over the row-id scan) and the handlers
      [index], [profile], [create_post], [view_post], [edit_post],
      [delete_post] and [search].
    - [Blog] (Module [Blog]): the routes and their allowed methods,
      [view] (dispatch), [serve] (one request: method check, user
      loading, view, remember-cookie update, rollback on an exception),
      the system [Sys] of one database shared by many clients,
      [sys_step], and the reachable systems [reachable].
    - [Urls] (Module [Urls]): Werkzeug's URL map built from the
      [@app.route] decorators: one [Rule] per decorator with the [int]
      and default converters; [dispatch] ([MapAdapter.match] with
      strict slashes and merged slashes: a view, 404, 405 or 308);
      [url_for]; [serve_url], the pipeline of [Blog.serve] behind the
      router; URL-level runs [reachable_url]; a browser following
      redirects ([follow]).
    - [Json] (Module [Json]): the values [json.loads] produces, and
      Pydantic's lax-mode validators for [str], [int], [float], [bool],
      [List[T]] and models, collecting errors with their locations
      ([validated], [vap]).  The string grammar of numbers and booleans
      is the parameter [LaxStrings].
    - [Menu] (Module [Menu]): the catalog as the source's dicts, with
      binary64 floats; the model classes as records and their
      validators; [get_menu], [place_order]; the text [print] writes
      ([stdout]) and a reader for it ([parse_console]).
    - [MenuApp] (Module [MenuApp]): HTTP requests and responses; the
      router of [app = FastAPI(...)] (404, 405, slash redirects, the
      documentation routes); the 422 handler; the service state (catalog
      and console); [CORSMiddleware] as configured in lines 16-22
      ([cors]); runs of request sequences ([run]).
    - [OpenApi] (Module [OpenApi]): the document FastAPI serves at
      [/openapi.json] ([openapi]), built from the routes, the handlers'
      names and docstrings and the model classes as Pydantic v2 and
      FastAPI generate it (operation ids, summaries, field titles, the
      422 response, [$ref]s); the parts that depend on the FastAPI
      release (the OpenAPI version string, the error schemas) are the
      parameter [FastApiRelease]; a checker of the JSON Schema subset
      the document uses ([conforms]).

    Every handler is a function from the database, the client, the user
    Flask-Login loaded and the request to [result (Db * Client * Response)].
    The application runs with [debug=True] (line 183), so an uncaught
    exception saves neither the database nor the session; [serve] keeps
    both unchanged and answers [ServerError].

    ** What is proved

    - Authorisation: a user who is not a post's author cannot edit it
      ([Posts.edit_post_forbidden]) or delete it
      ([Posts.delete_post_forbidden]).  No request of any kind changes a
      post written by someone else than the requester
      ([Blog.step_keeps_others_posts]).
    - Invariants, by rule induction over [reachable]
      ([Blog.app_inv_reachable]): ids in SQLite's range, unique usernames
      and emails, every post's author present, every user hashed, and
      session values that are [str(id)].  As a consequence, loading the
      current user never raises ([Blog.reachable_load_total]).
    - Authentication: duplicate-email sign-up changes nothing; a new
      sign-up inserts exactly one hashed row and logs in; login succeeds
      exactly on the right password; an unknown email and a wrong
      password give the same outcome; the session id written at login
      loads the same user back; after logout the client is anonymous.
    - Posts and search: listings hold every matching post once, newest
      first, whatever order SQLite picks for equal timestamps; deleting
      removes exactly one row; a new post gets a fresh id, its author
      and the request time, with its fields as the form sent them.  On queries without
      wildcards, [contains] is case-insensitive substring search
      ([Like.contains_substring]).
    - Bounds: a new row id lies in [1, 2^63 - 1] and exceeds all others
      ([Models.next_rowid_spec]).  The [int] converter of
      [/post/<int:post_id>] has no bound, so an id beyond [2^63 - 1]
      ends in a 500 from the sqlite3 binding, and an id in range gives
      the post or a 404 ([Urls.view_post_url_bounds]).
    - Routing: every path [url_for] builds is matched back to its view
      ([Urls.build_path_dispatch]); every redirect the blog sends can be
      followed with a GET ([Urls.redirects_followable]); a browser
      following redirects stops within three more requests
      ([Urls.redirects_terminate], the termination property of the
      development); a profile page is reachable by some URL exactly
      when the username is non-empty and holds no ['/']
      ([Urls.profile_url_dispatch]); URL-level runs, with their 404s,
      405s and redirects, and route-level runs reach the same systems
      ([Urls.url_runs_refine], a simulation both ways through the real
      router), so the invariants above hold for the running
      application.
    - Posts over time: no request changes a post's author or timestamp
      ([Blog.step_keeps_author_date]); in every reachable state the
      author can delete a post with one request ([Blog.owner_can_delete]).
    - Menu: response validation returns any serialised list of items
      unchanged, and [menu_db] is such a list ([Menu.menu_db_valid]); in any run, through the
      middleware, it never changes and every [GET /api/menu] returns it
      ([MenuApp.run_menu_constant]).  Orders: the canonical JSON body of
      any order validates to it ([Menu.order_request_roundtrip]); a body
      is valid exactly when every item is, and its errors are the items'
      errors at their indices ([Menu.order_request_errors]); an invalid
      or missing body gets 422 and changes nothing
      ([MenuApp.order_rejected]); empty orders get 400; other orders are
      accepted whatever their quantities.  The console reads back as
      exactly the accepted orders when no item id holds a newline
      ([MenuApp.console_log_roundtrip]).  The CORS middleware changes
      only headers ([MenuApp.cors_transparent]).
    - OpenAPI: the request schema published for [POST /api/order]
      accepts the canonical body of every order, and a body it accepts
      fails validation only on integer size
      ([OpenApi.order_schema_sound]); every [GET /api/menu] response
      conforms to the published response schema
      ([OpenApi.menu_response_conforms]).
    - Findings, each a theorem over all inputs of its kind: a taken
      username at sign-up or a missing title ends in a 500
      ([Blog.commit_errors_500]); so does a post id beyond 64 bits;
      usernames with a ['/'] have unreachable profile pages; blank titles
      and an empty thumbnail are stored as given
      ([Posts.create_post_author]); [_] and [%] in a search are
      wildcards; SQLite gives the next post the id of a deleted newest
      post, so an old link shows the new post ([Posts.post_link_reused]);
      negative, boolean and float quantities are accepted; an item id
      with a newline forges console lines after any run
      ([MenuApp.console_log_forged]); every origin may make credentialed
      cross-origin requests; a quantity of [1e300] conforms to the
      published schema but gets a 422.

    Every definition of the program is structurally recursive
    (strings, lists, [merge_sort]), so none needs fuel.  The browser
    model [Urls.follow] takes a bound on the number of requests, because
    a browser may follow redirects forever; [Urls.redirects_terminate]
    proves that the bound 3 is always enough.  The schema checker
    [OpenApi.conforms] spends one unit of fuel per schema it enters;
    the document's schemas never refer to themselves and the deepest,
    the request body of [POST /api/order], nests six levels counting
    its two [$ref]s, so [OpenApi.schema_fuel] (6) is enough, and the
    theorems are stated at it.  The only numeric bound
    of the program is SQLite's 64-bit integer; the random probing
    SQLite does at [2^63 - 1] is modelled as a failure.  Since each insert raises the largest id by at most one, a
    database meets it only after [2^63 - 1] inserts (an argument, not a
    theorem of the development).

    ** Not modelled

    Template rendering (the templates are not in the repository; a page
    is its template and variables); the HTML of FastAPI's documentation
    pages ([/docs], [/redoc], [/docs/oauth2-redirect]: fixed pages of
    the library that load the document); the release-dependent parts of
    the OpenAPI document (a parameter); the decoding of request bytes by
    [json.loads] (the model starts from the decoded value); the exact
    string grammar pydantic-core accepts for numbers and booleans (a
    parameter of the model); the [msg] and [input] fields of 422 errors
    and the [content-length] header; Flask-Login's session protection
    and cookie signatures; the cryptography of Werkzeug's hashes (the two
    laws of [PasswordHasher] stand in for it); text beyond 8-bit
    characters in LIKE; percent-decoding of URL paths, Unicode digits
    in the [int] converter, the [?next=] argument of the login redirect
    and automatic [HEAD]/[OPTIONS] routes.  The model loads the current
    user on every route, as the page layout does when it reads
    [current_user].  Both
    services are modelled as handling one request at a time, in any
    interleaving; the workers of the HTTP servers are not modelled. *)

From Stdlib Require Import ZArith Ascii DecimalString DecimalZ DecimalPos.
From stdpp Require Export base list strings gmap sorting.

Declare Scope blog_scope.
Delimit Scope blog_scope with blog.
Open Scope string_scope.

(** ** Python's [str(int)] and [int(str)] *)

(** [str(n)]: an optional minus sign, then the decimal digits, with no
    leading zeros. *)
Definition py_str (z : Z) : string := NilZero.string_of_int (Z.to_int z).

(** [int(s)] on an optional sign and one or more decimal digits.  Python
    also accepts surrounding whitespace and underscores between digits;
    those forms are not modelled.  [None] is Python's [ValueError]. *)
Definition py_int (s : string) : option Z :=
  match s with
  | String "+"%char s' => Z.of_uint <$> NilZero.uint_of_string s'
  | String "-"%char s' => (λ d, Z.opp (Z.of_uint d)) <$> NilZero.uint_of_string s'
  | _ => Z.of_uint <$> NilZero.uint_of_string s
  end.

(** ** Exceptions and results *)

(** The exceptions the modelled code can raise and not catch.  Flask
    turns each into a 500 response. *)
Inductive exc :=
  | IntegrityError (constraint : string)
  | AttributeError (what : string)
  | ValueError (what : string)
  | OverflowError (what : string)
  | SQLiteFull.

Inductive result (A : Type) :=
  | Ok (a : A)
  | Raise (e : exc).
Arguments Ok {A} a.
Arguments Raise {A} e.

Notation "x <- c ;; k" :=
  (match c with Ok x => k | Raise e => Raise e end)
  (at level 60, c at next level, right associativity) : blog_scope.
Open Scope blog_scope.

(** ** The largest key of a table *)

Definition max_key {A} (m : gmap Z A) : option Z :=
  match (map_to_list m).*1 with
  | [] => None
  | k :: ks => Some (foldr Z.max k ks)
  end.

(** ** Automation *)

Create HintDb blog.
Create Rewrite HintDb blog_rw.

Ltac invc H := inversion H; subst; clear H.

(** Unfold [String.append] on literal heads, everywhere. *)
Ltac simpl_str := autorewrite with blog_rw in *; simpl in *.

(** ** Lemmas *)

Lemma py_int_uint (d : Decimal.uint) :
  d ≠ Decimal.Nil → py_int (NilZero.string_of_uint d) = Some (Z.of_uint d).
Proof.
  intros Hd. pose proof (NilEmpty.usu d) as Hu.
  destruct d; [done| ..]; simpl in *; by rewrite Hu.
Qed.

(** Python's [int(str(n)) == n]. *)
Lemma py_int_str z : py_int (py_str z) = Some z.
Proof.
  destruct z as [|p|p]; [done| |].
  - pose proof (DecimalZ.of_to (Z.pos p)) as E. unfold py_str. simpl in *.
    rewrite py_int_uint by apply Unsigned.to_uint_nonnil. by rewrite E.
  - pose proof (DecimalZ.of_to (Z.neg p)) as E. unfold py_str, py_int. simpl in *.
    rewrite (NilZero.usu _ (Unsigned.to_uint_nonnil p)). simpl. by rewrite E.
Qed.

Lemma py_str_inj z1 z2 : py_str z1 = py_str z2 → z1 = z2.
Proof.
  intros E. apply (f_equal py_int) in E. rewrite !py_int_str in E. congruence.
Qed.

Lemma py_str_eq_iff z1 z2 : py_str z1 = py_str z2 ↔ z1 = z2.
Proof. split; [apply py_str_inj | by intros ->]. Qed.

Lemma foldr_max_ge (k : Z) ks x : x ∈ k :: ks → (x ≤ foldr Z.max k ks)%Z.
Proof.
  revert x. induction ks as [|k' ks IH]; intros x Hx; simpl.
  - apply list_elem_of_singleton in Hx. lia.
  - apply elem_of_cons in Hx as [->|Hx]; [|apply elem_of_cons in Hx as [->|Hx]].
    + specialize (IH k ltac:(by left)). lia.
    + lia.
    + specialize (IH x ltac:(by right)). lia.
Qed.

Lemma foldr_max_in (k : Z) ks : foldr Z.max k ks ∈ k :: ks.
Proof.
  induction ks as [|k' ks IH]; simpl; [by left|].
  destruct (Z.max_spec k' (foldr Z.max k ks)) as [[_ ->]|[_ ->]].
  - apply elem_of_cons in IH as [->|IH]; [by left|by do 2 right].
  - by right; left.
Qed.

Lemma max_key_ge {A} (m : gmap Z A) k x :
  m !! k = Some x → ∃ mx, max_key m = Some mx ∧ (k ≤ mx)%Z.
Proof.
  intros Hk. unfold max_key.
  assert (Hin : k ∈ (map_to_list m).*1).
  { apply list_elem_of_fmap. exists (k, x). by rewrite elem_of_map_to_list. }
  destruct ((map_to_list m).*1) as [|k0 ks]; [by apply not_elem_of_nil in Hin|].
  eexists; split; [done|]. by apply foldr_max_ge.
Qed.

Lemma max_key_lookup {A} (m : gmap Z A) mx :
  max_key m = Some mx → is_Some (m !! mx).
Proof.
  unfold max_key. intros H.
  destruct ((map_to_list m).*1) as [|k0 ks] eqn:E; [done|]. invc H.
  pose proof (foldr_max_in k0 ks) as Hin. rewrite <- E in Hin.
  apply list_elem_of_fmap in Hin as [[k v] [-> Hkv]].
  apply elem_of_map_to_list in Hkv. by exists v.
Qed.

(** [String.append] does not unfold under [simpl]; these are its two
    equations. *)
Lemma str_app_nil_l s : "" +:+ s = s.
Proof. reflexivity. Qed.
Lemma str_app_cons c s1 s2 : String c s1 +:+ s2 = String c (s1 +:+ s2).
Proof. reflexivity. Qed.

Lemma str_app_assoc s1 s2 s3 : (s1 +:+ s2) +:+ s3 = s1 +:+ (s2 +:+ s3).
Proof. induction s1 as [|c s1 IH]; [done|]. by rewrite !str_app_cons, IH. Qed.

#[export] Hint Resolve py_str_inj : blog.
#[export] Hint Rewrite str_app_nil_l str_app_cons : blog_rw.
#[export] Hint Rewrite py_int_str : blog_rw.
