(* ===== verification/Json.v ===== *)
(** * JSON values and Pydantic validation (src/main.py, lines 69-85)

    FastAPI reads a request body with [json.loads] and validates the
    Python value it gets against the endpoint's Pydantic model, in
    Pydantic's lax (Python) mode.  It validates a handler's return value
    against [response_model] the same way.  [json] is the Python value
    [json.loads] produces: [None], a bool, an int, a float, a str, a list
    or a dict.  A [JDict] is a dict, so its keys are distinct
    ([json.loads] keeps the last of repeated keys).

    Each field annotation of a model becomes a validator: [str] is
    [v_str], [int] is [v_int], [float] is [v_float], [bool] is [v_bool],
    [List[T]] is [v_list], and a nested model is [v_model] over its
    fields.  Pydantic collects errors instead of stopping at the first:
    a model reports every bad field and a list every bad element, each
    error with its location ([at_loc]).  [vap] (written [<*>]) is this
    error-collecting application.  Extra keys of a dict are ignored, as
    with Pydantic's default [extra='ignore'].

    Which strings a numeric or boolean field accepts (surrounding
    whitespace, underscores, "yes"/"no") is pydantic-core's own grammar.
    The model leaves it open as the record [LaxStrings], and every
    theorem holds for every [LaxStrings].  Coercions that cannot arise
    from [json.loads] (bytes, Decimal, tuples) are not modelled. *)

From S2P Require Import Prelude.
From Stdlib Require Import Floats.

Module Json.
Local Open Scope Z_scope.

(** ** Values *)

#[local] Set Warnings "-register-all".
Inductive json :=
  | JNone
  | JBool (b : bool)
  | JInt (z : Z)
  | JFloat (f : float)
  | JStr (s : string)
  | JList (l : list json)
  | JDict (kv : list (string * json)).

(** [d.get(k)] on a dict. *)
Fixpoint dict_get (k : string) (kv : list (string * json)) : option json :=
  match kv with
  | [] => None
  | (k', v) :: kv' => if String.eqb k k' then Some v else dict_get k kv'
  end.

(** ** Validation errors *)

(** An element of an error's [loc]: a field name or a list index. *)
Inductive LocItem := LKey (k : string) | LIdx (i : nat).

(** The [type] of a Pydantic error. *)
Inductive ErrorType :=
  | Missing | ModelAttributesType | ListType | StringType
  | IntType | IntParsing | IntFromFloat | IntParsingSize | FiniteNumber
  | FloatType | FloatParsing | BoolType | BoolParsing.

Record ValError := mkValError { err_type : ErrorType; loc : list LocItem }.

#[export] Instance LocItem_eq_dec : EqDecision LocItem.
Proof. solve_decision. Defined.
#[export] Instance ErrorType_eq_dec : EqDecision ErrorType.
Proof. solve_decision. Defined.
#[export] Instance ValError_eq_dec : EqDecision ValError.
Proof. solve_decision. Defined.

Inductive validated (A : Type) :=
  | Valid (a : A)
  | Invalid (errs : list ValError).
Arguments Valid {A} a.
Arguments Invalid {A} errs.

Definition errors {A} (v : validated A) : list ValError :=
  match v with Valid _ => [] | Invalid es => es end.

#[export] Instance validated_fmap : FMap validated :=
  λ A B f v, match v with Valid a => Valid (f a) | Invalid es => Invalid es end.

(** Both sides are validated; their errors are concatenated in order. *)
Definition vap {A B} (vf : validated (A → B)) (va : validated A) : validated B :=
  match vf, va with
  | Valid f, Valid a => Valid (f a)
  | _, _ => Invalid (errors vf ++ errors va)
  end.

Notation "vf <*> va" := (vap vf va) (at level 61, left associativity) : blog_scope.

Definition relocate (l : LocItem) (e : ValError) : ValError :=
  mkValError (err_type e) (l :: loc e).

(** Prefix the location of every error with [l]. *)
Definition at_loc {A} (l : LocItem) (v : validated A) : validated A :=
  match v with Valid a => Valid a | Invalid es => Invalid (relocate l <$> es) end.

Definition fail1 {A} (t : ErrorType) : validated A := Invalid [mkValError t []].

(** ** Scalar fields *)

(** pydantic-core's parsers for numbers and booleans given as strings. *)
Record LaxStrings := mkLaxStrings {
  str_as_int : string → option Z;
  str_as_float : string → option float;
  str_as_bool : string → option bool
}.

Section Scalars.
Context (lax : LaxStrings).

(** [str]: only a str; lax mode does not turn numbers into strings. *)
Definition v_str (j : json) : validated string :=
  match j with JStr s => Valid s | _ => fail1 StringType end.

(** pydantic-core's [float_as_int]: a finite float with no fractional
    part, strictly between [i64::MIN as f64] and [i64::MAX as f64]. *)
Definition float_as_int (f : float) : validated Z :=
  let in_range (z : Z) := if (- 2 ^ 63 <? z)%Z && (z <? 2 ^ 63)%Z then Valid z else fail1 IntParsingSize in
  (match Prim2SF f with
  | S754_zero _ => Valid 0
  | S754_infinity _ | S754_nan => fail1 FiniteNumber
  | S754_finite s m e =>
      let sg z := if s then - z else z in
      if 0 <=? e then in_range (sg (Z.pos m * 2 ^ e))
      else if Z.pos m mod 2 ^ (- e) =? 0 then in_range (sg (Z.pos m / 2 ^ (- e)))
      else fail1 IntFromFloat
  end)%Z.

(** [int]: an int; a bool as 0 or 1; an integral float; a numeric
    string. *)
Definition v_int (j : json) : validated Z :=
  match j with
  | JInt z => Valid z
  | JBool b => Valid (if b then 1 else 0)
  | JFloat f => float_as_int f
  | JStr s => match str_as_int lax s with Some z => Valid z | None => fail1 IntParsing end
  | _ => fail1 IntType
  end.

(** Python's [float(n)] on an int: round to nearest, ties to even. *)
Definition float_of_int (z : Z) : float :=
  SF2Prim (SpecFloat.binary_normalize FloatOps.prec FloatOps.emax z 0 false).

(** [float]: a float; an int or a bool converted; a numeric string. *)
Definition v_float (j : json) : validated float :=
  match j with
  | JFloat f => Valid f
  | JInt z => Valid (float_of_int z)
  | JBool b => Valid (if b then 1 else 0)%float
  | JStr s => match str_as_float lax s with Some f => Valid f | None => fail1 FloatParsing end
  | _ => fail1 FloatType
  end.

(** [bool]: a bool; the numbers 0 and 1; the strings pydantic-core
    recognises. *)
Definition v_bool (j : json) : validated bool :=
  match j with
  | JBool b => Valid b
  | JInt 0 => Valid false
  | JInt 1 => Valid true
  | JInt _ => fail1 BoolParsing
  | JFloat f =>
      if PrimFloat.eqb f 0 then Valid false
      else if PrimFloat.eqb f 1 then Valid true else fail1 BoolParsing
  | JStr s => match str_as_bool lax s with Some b => Valid b | None => fail1 BoolParsing end
  | _ => fail1 BoolType
  end.

End Scalars.

(** ** Lists and models *)

(** The elements from index [i] on, each error located at its index. *)
Fixpoint v_items {A} (v : json → validated A) (i : nat) (l : list json) : validated (list A) :=
  match l with
  | [] => Valid []
  | x :: l' => cons <$> at_loc (LIdx i) (v x) <*> v_items v (S i) l'
  end.

(** [List[T]]: a list, validated element by element. *)
Definition v_list {A} (v : json → validated A) (j : json) : validated (list A) :=
  match j with JList l => v_items v 0 l | _ => fail1 ListType end.

(** One field of a model: [missing] when the key is absent. *)
Definition field {A} (d : list (string * json)) (k : string) (v : json → validated A) : validated A :=
  match dict_get k d with
  | None => Invalid [mkValError Missing [LKey k]]
  | Some j => at_loc (LKey k) (v j)
  end.

(** A model: a dict whose fields [fields] validates.  FastAPI validates
    with [from_attributes=True], so any other value is refused with
    [model_attributes_type], for the body and for list elements alike. *)
Definition v_model {A} (fields : list (string * json) → validated A) (j : json) : validated A :=
  match j with JDict d => fields d | _ => fail1 ModelAttributesType end.

(** ** Lemmas *)

Lemma errors_vap {A B} (vf : validated (A → B)) va : errors (vf <*> va) = (errors vf ++ errors va)%list.
Proof. by destruct vf, va. Qed.

Lemma vap_Valid {A B} (vf : validated (A → B)) va b :
  vf <*> va = Valid b ↔ ∃ f a, vf = Valid f ∧ va = Valid a ∧ b = f a.
Proof. destruct vf, va; split; naive_solver. Qed.

Lemma fmap_Valid {A B} (f : A → B) va b :
  f <$> va = Valid b ↔ ∃ a, va = Valid a ∧ b = f a.
Proof. destruct va; split; naive_solver. Qed.

Lemma errors_fmap {A B} (f : A → B) va : errors (f <$> va) = errors va.
Proof. by destruct va. Qed.

Lemma errors_at_loc {A} l (va : validated A) : errors (at_loc l va) = relocate l <$> errors va.
Proof. by destruct va. Qed.

Lemma at_loc_Valid {A} l (va : validated A) a : at_loc l va = Valid a ↔ va = Valid a.
Proof. destruct va; naive_solver. Qed.

(** A validation that fails says why: it reports at least one error. *)
Definition sound {A} (v : validated A) : Prop :=
  match v with Valid _ => True | Invalid es => es ≠ [] end.

Lemma vap_sound {A B} (vf : validated (A → B)) va : sound vf → sound va → sound (vf <*> va).
Proof.
  destruct vf, va; simpl; intros H1 H2; rewrite ?app_nil_r; try done.
  intros [? _]%app_nil. done.
Qed.

Lemma fmap_sound {A B} (f : A → B) va : sound va → sound (f <$> va).
Proof. by destruct va. Qed.

Lemma at_loc_sound {A} l (va : validated A) : sound va → sound (at_loc l va).
Proof. destruct va; simpl; [done|]. intros H Hn. by apply fmap_nil_inv in Hn. Qed.

Lemma fail1_sound {A} t : sound (@fail1 A t).
Proof. done. Qed.

Lemma v_items_sound {A} (v : json → validated A) i l : (∀ x, sound (v x)) → sound (v_items v i l).
Proof.
  intros Hv. revert i. induction l as [|x l IH]; intros i; [done|]. simpl.
  apply vap_sound; [apply fmap_sound, at_loc_sound, Hv | apply IH].
Qed.

Lemma v_list_sound {A} (v : json → validated A) j : (∀ x, sound (v x)) → sound (v_list v j).
Proof. intros Hv. destruct j; try done. by apply v_items_sound. Qed.

Lemma field_sound {A} d k (v : json → validated A) : (∀ x, sound (v x)) → sound (field d k v).
Proof. intros Hv. unfold field. destruct (dict_get k d); [by apply at_loc_sound|done]. Qed.

Lemma v_model_sound {A} (fs : list (string * json) → validated A) j :
  (∀ d, sound (fs d)) → sound (v_model fs j).
Proof. intros Hf. destruct j; try done. apply Hf. Qed.

Lemma v_str_sound j : sound (v_str j).
Proof. by destruct j. Qed.

Lemma v_int_sound lax j : sound (v_int lax j).
Proof.
  destruct j; simpl; try done; [|by case_match].
  unfold float_as_int. repeat case_match; done.
Qed.

#[export] Hint Resolve vap_sound fmap_sound at_loc_sound v_items_sound v_list_sound
  field_sound v_model_sound v_str_sound v_int_sound : blog.

#[export] Hint Rewrite @errors_vap @errors_fmap @errors_at_loc : blog_rw.

(** Every element of the list is valid, and the results are in order. *)
Lemma v_items_Valid {A} (v : json → validated A) i l xs :
  v_items v i l = Valid xs ↔ Forall2 (λ x a, v x = Valid a) l xs.
Proof.
  revert i xs. induction l as [|x l IH]; intros i xs; simpl.
  - split; [intros [= <-]; constructor | intros H; inversion H; done].
  - rewrite vap_Valid. setoid_rewrite fmap_Valid. setoid_rewrite at_loc_Valid. split.
    + intros (f & ys & (a & Ha & ->) & Hys & ->). constructor; [done|]. by apply (IH (S i)).
    + intros H. inversion H as [|? a ? ys Ha Hys]; subst.
      exists (cons a), ys. split; [by exists a|]. split; [by apply (IH (S i))|done].
Qed.



Lemma fmap_concat_imap {A B C} (f : B → C) (g : nat → A → list B) l :
  f <$> concat (imap g l) = concat (imap (λ k x, f <$> g k x) l).
Proof.
  revert g. induction l as [|x l IH]; intros g; [done|]. simpl.
  by rewrite fmap_app, IH.
Qed.

(** The errors of a list are those of its elements, in order, each
    located at the element's index. *)
Lemma v_items_errors {A} (v : json → validated A) i l :
  errors (v_items v i l) = concat (imap (λ k x, relocate (LIdx (i + k)) <$> errors (v x)) l).
Proof.
  revert i. induction l as [|x l IH]; intros i; [done|]. simpl. autorewrite with blog_rw.
  rewrite IH, Nat.add_0_r. do 2 f_equal. apply imap_ext. intros k y _. simpl.
  by rewrite Nat.add_succ_r.
Qed.

End Json.
