(* ===== verification/Like.v ===== *)
(** * SQLite's LIKE, as used by [search] (src/app.py, lines 171-173)

    [Post.title.contains(query)] compiles to the SQL
    [title LIKE '%' || :query || '%'] with no ESCAPE clause, so a [%] or an
    [_] inside the query is a wildcard, not a literal character.
    SQLite's default LIKE ignores case for ASCII letters only.  [like]
    below is SQLite's pattern semantics on strings of 8-bit characters:
    [%] matches any run of characters and [_] any one character.  The
    main theorem, [contains_substring], shows that on a query without
    wildcards, [contains] is case-insensitive substring search.  The model
    treats text as 8-bit characters; on non-ASCII text SQLite counts
    UTF-8 code points, which is not modelled. *)

From S2P Require Import Prelude.
From Stdlib Require Import Ascii.

Module Like.

(** [sqlite3Tolower] on one character: only [A-Z] change. *)
Definition ascii_lower (c : ascii) : ascii :=
  let n := nat_of_ascii c in
  if (65 <=? n)%nat && (n <=? 90)%nat then ascii_of_nat (n + 32) else c.

Fixpoint fold_case (s : string) : string :=
  match s with
  | EmptyString => EmptyString
  | String c s' => String (ascii_lower c) (fold_case s')
  end.

Definition chars_match (p c : ascii) : bool := Ascii.eqb (ascii_lower p) (ascii_lower c).

(** [patternCompare] of SQLite's func.c, with [%] and [_] as wildcards
    and no escape character. *)
Fixpoint like (p s : string) : bool :=
  match p with
  | EmptyString => match s with EmptyString => true | String _ _ => false end
  | String c p' =>
    if Ascii.eqb c "%" then
      (fix star (s : string) : bool :=
         like p' s || match s with EmptyString => false | String _ s' => star s' end) s
    else
      match s with
      | EmptyString => false
      | String d s' => (Ascii.eqb c "_" || chars_match c d) && like p' s'
      end
  end.

(** [column.contains(q)]: [column LIKE '%' || q || '%']. *)
Definition contains (q s : string) : bool := like ("%" +:+ q +:+ "%") s.

(** A query with no wildcard character. *)
Fixpoint no_wild (q : string) : bool :=
  match q with
  | EmptyString => true
  | String c q' => negb (Ascii.eqb c "%") && negb (Ascii.eqb c "_") && no_wild q'
  end.

(** ** Lemmas *)

Lemma fold_case_app s1 s2 : fold_case (s1 +:+ s2) = fold_case s1 +:+ fold_case s2.
Proof. induction s1 as [|c s1 IH]; [done|]. simpl_str. by rewrite IH. Qed.

Lemma str_app_nil_r (a : string) : a +:+ "" = a.
Proof. induction a as [|x a IH]; [done|]. simpl_str. by rewrite IH. Qed.

(** A split of a case-folded string is the case fold of a split. *)
Lemma fold_case_split s x y :
  fold_case s = x +:+ y → ∃ s1 s2, s = s1 +:+ s2 ∧ fold_case s1 = x ∧ fold_case s2 = y.
Proof.
  revert x. induction s as [|c s IH]; intros x H.
  - destruct x; [|done]. simpl_str. subst. by exists "", "".
  - destruct x as [|c' x]; simpl_str.
    + subst. by exists "", (String c s).
    + injection H as <- H. destruct (IH x H) as (s1 & s2 & -> & <- & <-).
      by exists (String c s1), s2.
Qed.

Lemma like_star p s :
  like (String "%" p) s = true ↔ ∃ s1 s2, s = s1 +:+ s2 ∧ like p s2 = true.
Proof.
  simpl. induction s as [|c s IH].
  - rewrite orb_false_r. split; [intros; by exists "", ""|].
    intros (s1 & s2 & Hs & Hl). destruct s1; [|done]. simpl_str. by subst.
  - rewrite orb_true_iff, IH. split.
    + intros [Hl|(s1 & s2 & -> & Hl)]; [by exists "", (String c s)|].
      by exists (String c s1), s2.
    + intros (s1 & s2 & Hs & Hl). destruct s1 as [|c' s1]; simpl_str.
      * subst. by left.
      * injection Hs as -> ->. right. eauto.
Qed.

(** A wildcard-free prefix of the pattern matches a case-insensitively
    equal prefix of the text. *)
Lemma like_literal_app q p s :
  no_wild q = true →
  like (q +:+ p) s = true ↔ ∃ s1 s2, s = s1 +:+ s2 ∧ fold_case s1 = fold_case q ∧ like p s2 = true.
Proof.
  revert s. induction q as [|c q IH]; intros s Hq.
  - split; [intros; by exists "", s|]. intros (s1 & s2 & -> & Hf & Hl).
    by destruct s1.
  - simpl in Hq. apply andb_true_iff in Hq as [Hc Hq]. apply andb_true_iff in Hc as [Hp Hu].
    apply negb_true_iff in Hp, Hu. rewrite str_app_cons. simpl. rewrite Hp.
    destruct s as [|d s].
    + split; [done|]. intros (s1 & s2 & Hs & Hf & _). destruct s1; [done|]. discriminate.
    + rewrite Hu, andb_true_iff. unfold chars_match. rewrite IH by done. split.
      * intros [Hcd%Ascii.eqb_eq (s1 & s2 & -> & Hf & Hl)].
        exists (String d s1), s2. simpl. rewrite Hcd, Hf. done.
      * intros (s1 & s2 & Hs & Hf & Hl). destruct s1 as [|d' s1]; [done|].
        simpl_str. injection Hs as <- ->. injection Hf as Hcd Hf.
        rewrite Hcd, Ascii.eqb_refl. split; [done|]. eauto.
Qed.

Lemma like_pct s : like "%" s = true.
Proof. apply like_star. exists s, "". by rewrite str_app_nil_r. Qed.

(** ** Theorems *)

(** C9: On a query with no [%] or [_], [contains] is case-insensitive
    substring search. *)
Theorem contains_substring q s :
  no_wild q = true →
  contains q s = true ↔ ∃ a b, fold_case s = a +:+ fold_case q +:+ b.
Proof.
  intros Hq. unfold contains. autorewrite with blog_rw. rewrite (like_star (q +:+ "%") s). split.
  - intros (a & r & -> & Hr). apply like_literal_app in Hr as (s1 & s2 & -> & Hf & _); [|done].
    exists (fold_case a), (fold_case s2). by rewrite !fold_case_app, Hf.
  - intros (a & b & Hs). apply fold_case_split in Hs as (s1 & r & -> & _ & Hr).
    apply fold_case_split in Hr as (s2 & s3 & -> & Hf & _).
    exists s1, (s2 +:+ s3). split; [done|].
    apply like_literal_app; [done|]. exists s2, s3. by rewrite like_pct.
Qed.

(** C22: [%] and [_] in a query are wildcards, not characters: a query
    of one [%] matches every text, and a query of one [_] matches every
    non-empty text. *)
Theorem contains_wildcards s : contains "%" s = true ∧ (contains "_" s = true ↔ s ≠ "").
Proof.
  unfold contains. autorewrite with blog_rw. split.
  - apply like_star. exists s, "". rewrite str_app_nil_r. split; [done|]. reflexivity.
  - rewrite (like_star (String "_" "%") s). split.
    + intros (s1 & s2 & -> & Hl). destruct s2 as [|c s2]; [done|].
      destruct s1; discriminate.
    + intros Hs. destruct s as [|c s]; [done|]. exists "", (String c s).
      split; [done|]. simpl. apply like_pct.
Qed.

(** ** Witnesses *)

Lemma contains_substring_witness :
  no_wild "carbonara" = true ∧
  (contains "carbonara" "Pasta Carbonara" = true ↔
   ∃ a b, fold_case "Pasta Carbonara" = a +:+ fold_case "carbonara" +:+ b).
Proof. split; [reflexivity|]. apply contains_substring. reflexivity. Defined.

End Like.
