(* ===== verification/Store.v ===== *)
(** * The blog's database: [User] and [Post] tables (src/app.py, 26-52)

    The two SQLAlchemy models become records, and the database becomes two
    [gmap Z] tables keyed by SQLite row id.  A Python object that has been
    built but not yet committed ([User(...)], [Post(...)]) is a record of
    options, because any of its fields may still be [None].  Committing it
    allocates a row id the way SQLite does for an [INTEGER PRIMARY KEY]
    column: the largest id plus one, or 1 when the table is empty.  It
    then checks the NOT NULL and UNIQUE constraints of the schema.  A
    failed commit raises [IntegrityError] and changes nothing.  SQLite
    does not enforce the lengths in [db.String(n)], so the model does not
    either.  A lookup by primary key ([Query.get], [get_or_404]) binds
    the id as a 64-bit INTEGER parameter.  The [sqlite3] module raises
    [OverflowError] for an id outside that range ([get_row]). *)

From S2P Require Import Prelude.

Module Models.

(** ** Schema *)

(** The largest SQLite row id, [2^63 - 1]. *)
Definition i64_max : Z := 9223372036854775807.

Definition default_bio : string := "No bio yet.".
Definition default_profile_image : string :=
  "https://placehold.co/100x100/slate-700/white?text=Profile".
Definition default_tags : string := "".
Definition default_thumbnail : string :=
  "https://placehold.co/600x400/slate-700/white?text=Thumbnail".

(** A stored [User] row.  [username] and [email] are NOT NULL; the other
    columns are nullable. *)
Record User := mkUser {
  username : string;
  email : string;
  password_hash : option string;
  bio : option string;
  profile_image : option string
}.

(** A stored [Post] row.  [date_posted] is a UTC timestamp in
    microseconds, the resolution of [datetime.utcnow()]. *)
Record Post := mkPost {
  title : string;
  content : string;
  date_posted : Z;
  tags : option string;
  thumbnail : option string;
  user_id : Z
}.

Record Db := mkDb {
  users : gmap Z User;
  posts : gmap Z Post
}.

Definition empty_db : Db := mkDb ∅ ∅.

(** [User(username=..., email=...)] after [set_password]. *)
Record NewUser := mkNewUser {
  nu_username : option string;
  nu_email : option string;
  nu_password_hash : option string
}.

(** [Post(title=..., content=..., tags=..., thumbnail=..., author=...)]. *)
Record NewPost := mkNewPost {
  np_title : option string;
  np_content : option string;
  np_tags : option string;
  np_thumbnail : option string;
  np_user_id : Z
}.

#[export] Instance User_eq_dec : EqDecision User.
Proof. solve_decision. Defined.
#[export] Instance Post_eq_dec : EqDecision Post.
Proof. solve_decision. Defined.

(** ** Queries *)

Definition rowid_le {A} (a b : Z * A) : Prop := (a.1 ≤ b.1)%Z.
#[export] Instance rowid_le_dec {A} : RelDecision (@rowid_le A).
Proof. intros a b. unfold rowid_le. apply _. Defined.

(** A full table scan, in row-id order. *)
Definition scan {A} (m : gmap Z A) : list (Z * A) :=
  merge_sort rowid_le (map_to_list m).

(** [Model.query.filter_by(...).first()]: the first row of the scan that
    satisfies the filter. *)
Definition first_where {A} (P : A → Prop) `{∀ a, Decision (P a)}
    (m : gmap Z A) : option (Z * A) :=
  head (filter (λ kv : Z * A, P kv.2) (scan m)).

(** [User.query.filter_by(email=email).first()].  SQLAlchemy compiles
    [email=None] to [email IS NULL], which no stored row satisfies. *)
Definition user_by_email (db : Db) (e : option string) : option (Z * User) :=
  match e with
  | None => None
  | Some e => first_where (λ u, email u = e) (users db)
  end.

(** [User.query.filter_by(username=username).first()]. *)
Definition user_by_username (db : Db) (n : string) : option (Z * User) :=
  first_where (λ u, username u = n) (users db).

(** ** Row ids *)

(** SQLite's row id for a new row.  When the largest id is already
    [i64_max], SQLite probes random free ids; the model raises
    [SQLiteFull] there instead. *)
Definition next_rowid {A} (m : gmap Z A) : result Z :=
  match max_key m with
  | None => Ok 1%Z
  | Some mx => if (mx <? i64_max)%Z then Ok (mx + 1)%Z else Raise SQLiteFull
  end.

(** ** Commits *)

Definition not_null (col : string) {A} (o : option A) : result A :=
  match o with
  | Some a => Ok a
  | None => Raise (IntegrityError ("NOT NULL constraint failed: " +:+ col))
  end.

Definition unique (col : string) (taken : bool) : result unit :=
  if taken then Raise (IntegrityError ("UNIQUE constraint failed: " +:+ col))
  else Ok tt.

(** [db.session.add(new_user); db.session.commit()].  The [bio] and
    [profile_image] columns take their defaults. *)
Definition insert_user (db : Db) (nu : NewUser) : result (Z * Db) :=
  id <- next_rowid (users db) ;;
  un <- not_null "user.username" (nu_username nu) ;;
  em <- not_null "user.email" (nu_email nu) ;;
  _ <- unique "user.username" (bool_decide (is_Some (user_by_username db un))) ;;
  _ <- unique "user.email" (bool_decide (is_Some (user_by_email db (Some em)))) ;;
  let u := mkUser un em (nu_password_hash nu) (Some default_bio)
                  (Some default_profile_image) in
  Ok (id, mkDb (<[id := u]> (users db)) (posts db)).

(** SQLAlchemy leaves a column that holds [None] out of the INSERT, so a
    column with a default takes it. *)
Definition with_default (d : string) (o : option string) : option string :=
  match o with None => Some d | Some s => Some s end.

(** [db.session.add(new_post); db.session.commit()] at time [now]. *)
Definition insert_post (db : Db) (now : Z) (np : NewPost) : result (Z * Db) :=
  id <- next_rowid (posts db) ;;
  t <- not_null "post.title" (np_title np) ;;
  c <- not_null "post.content" (np_content np) ;;
  let p := mkPost t c now (with_default default_tags (np_tags np))
                  (with_default default_thumbnail (np_thumbnail np)) (np_user_id np) in
  Ok (id, mkDb (users db) (<[id := p]> (posts db))).

(** Four attribute assignments on a loaded post, then
    [db.session.commit()].  An UPDATE writes [None] as NULL; column
    defaults apply only to INSERT. *)
Definition update_post (db : Db) (id : Z) (p : Post)
    (t c tg th : option string) : result Db :=
  t' <- not_null "post.title" t ;;
  c' <- not_null "post.content" c ;;
  let p' := mkPost t' c' (date_posted p) tg th (user_id p) in
  Ok (mkDb (users db) (<[id := p']> (posts db))).

(** [db.session.delete(post); db.session.commit()]. *)
Definition delete_post (db : Db) (id : Z) : Db :=
  mkDb (users db) (delete id (posts db)).

(** ** Primary-key lookups *)

(** The [sqlite3] module binds a Python int as a signed 64-bit INTEGER
    and raises [OverflowError] for any other int. *)
Definition sqlite_int (z : Z) : result Z :=
  if bool_decide (- i64_max - 1 ≤ z ≤ i64_max)%Z then Ok z
  else Raise (OverflowError "Python int too large to convert to SQLite INTEGER").

(** [Model.query.get(id)]: a lookup by primary key, whose id is bound as
    a query parameter. *)
Definition get_row {A} (m : gmap Z A) (id : Z) : result (option A) :=
  id' <- sqlite_int id ;; Ok (m !! id').

(** ** Well-formedness *)

Definition ids_in_range {A} (m : gmap Z A) : Prop :=
  map_Forall (λ id _, 1 ≤ id ≤ i64_max)%Z m.

Definition unique_on {B} (f : User → B) (m : gmap Z User) : Prop :=
  ∀ i j u v, m !! i = Some u → m !! j = Some v → f u = f v → i = j.

(** The invariant of the database: ids in SQLite's positive range,
    usernames and emails unique, and every post's author present. *)
Record wf_db (db : Db) : Prop := {
  wf_user_ids : ids_in_range (users db);
  wf_post_ids : ids_in_range (posts db);
  wf_username : unique_on username (users db);
  wf_email : unique_on email (users db);
  wf_author : map_Forall (λ _ p, is_Some (users db !! user_id p)) (posts db)
}.

(** ** Queries: lemmas *)

Lemma elem_of_scan {A} (m : gmap Z A) k a : (k, a) ∈ scan m ↔ m !! k = Some a.
Proof.
  unfold scan. rewrite (merge_sort_Permutation _ (map_to_list m)).
  apply elem_of_map_to_list.
Qed.

Lemma first_where_Some {A} (P : A → Prop) `{∀ a, Decision (P a)} m k a :
  first_where P m = Some (k, a) → m !! k = Some a ∧ P a.
Proof.
  unfold first_where. intros Hh.
  apply head_Some_elem_of, list_elem_of_filter in Hh as [HP Hin].
  by apply elem_of_scan in Hin.
Qed.

Lemma first_where_is_Some {A} (P : A → Prop) `{∀ a, Decision (P a)} m :
  is_Some (first_where P m) ↔ ∃ k a, m !! k = Some a ∧ P a.
Proof.
  split.
  - intros [[k a] Hs]. apply first_where_Some in Hs. eauto.
  - intros (k & a & Hk & HP). unfold first_where.
    destruct (filter _ (scan m)) as [|x l] eqn:E; [|by eexists].
    exfalso. eapply (filter_nil_not_elem_of _ _ (k, a)); [exact E|done|].
    by apply elem_of_scan.
Qed.

Lemma first_where_None {A} (P : A → Prop) `{∀ a, Decision (P a)} m k a :
  first_where P m = None → m !! k = Some a → ¬ P a.
Proof.
  intros Hn Hk HP. destruct (proj2 (first_where_is_Some P m)) as [x Hx]; [eauto|].
  congruence.
Qed.

(** ** Row ids: lemmas *)

Lemma next_rowid_fresh {A} (m : gmap Z A) id :
  next_rowid m = Ok id → ∀ k, is_Some (m !! k) → (k < id)%Z.
Proof.
  unfold next_rowid. intros Hn k [x Hk].
  destruct (max_key_ge m k x Hk) as (mx & Hmx & Hle). rewrite Hmx in Hn.
  case_match; simplify_eq. lia.
Qed.

Lemma next_rowid_None {A} (m : gmap Z A) id :
  next_rowid m = Ok id → m !! id = None.
Proof.
  intros Hn. destruct (m !! id) eqn:E; [|done].
  pose proof (next_rowid_fresh m id Hn id ltac:(by eexists)). lia.
Qed.

(** Where every id is in range, a new id is in range too. *)
Lemma next_rowid_range {A} (m : gmap Z A) id :
  ids_in_range m → next_rowid m = Ok id → (1 ≤ id ≤ i64_max)%Z.
Proof.
  unfold next_rowid. intros Hr Hn. destruct (max_key m) as [mx|] eqn:Hmx.
  - destruct (max_key_lookup m mx Hmx) as [x Hx].
    specialize (Hr mx x Hx). simpl in Hr. case_match; simplify_eq. lia.
  - simplify_eq. unfold i64_max. lia.
Qed.

Lemma next_rowid_max {A} (m : gmap Z A) mx :
  max_key m = Some mx → (mx < i64_max)%Z → next_rowid m = Ok (mx + 1)%Z.
Proof. intros Hmx Hlt. unfold next_rowid. rewrite Hmx. by destruct (Z.ltb_spec mx i64_max); [|lia]. Qed.

(** Deleting the row with the largest id hands that id out again when
    the ids below it are taken up to the one just below. *)
Lemma next_rowid_delete_max {A} (m : gmap Z A) k x :
  ids_in_range m → m !! k = Some x → map_Forall (λ q _, q ≤ k)%Z m →
  (k = 1 ∨ is_Some (m !! (k - 1)))%Z → next_rowid (delete k m) = Ok k.
Proof.
  intros Hr Hk Hmax Hprev. unfold next_rowid.
  destruct (max_key (delete k m)) as [mx|] eqn:E.
  - destruct (max_key_lookup _ _ E) as [y Hy].
    apply lookup_delete_Some in Hy as [Hne Hy].
    pose proof (Hmax mx y Hy) as Hle. pose proof (Hr mx y Hy) as Hmr. pose proof (Hr k x Hk).
    destruct Hprev as [->|[z Hz]]; [simpl in *; lia|].
    destruct (max_key_ge (delete k m) (k - 1) z) as (mx' & E' & Hge);
      [rewrite lookup_delete_ne by lia; done|].
    rewrite E in E'. simplify_eq. simpl in *. destruct (Z.ltb_spec mx' i64_max); [f_equal|]; lia.
  - destruct Hprev as [->|[z Hz]]; [done|].
    destruct (max_key_ge (delete k m) (k - 1) z) as (mx' & E' & _);
      [rewrite lookup_delete_ne by lia; done|congruence].
Qed.

(** ** Invariant: lemmas *)

Lemma ids_in_range_insert {A} (m : gmap Z A) id x :
  ids_in_range m → (1 ≤ id ≤ i64_max)%Z → ids_in_range (<[id := x]> m).
Proof. intros. by apply map_Forall_insert_2. Qed.

Lemma unique_on_insert {B} (f : User → B) m id u :
  unique_on f m → m !! id = None →
  (∀ k v, m !! k = Some v → f v ≠ f u) → unique_on f (<[id := u]> m).
Proof.
  intros Hu Hnone Hnew i j a b Ha Hb Hf.
  apply lookup_insert_Some in Ha as [[<- <-]|[Hi Ha]];
  apply lookup_insert_Some in Hb as [[<- <-]|[Hj Hb]].
  - done.
  - exfalso. by apply (Hnew j b).
  - exfalso. by apply (Hnew i a).
  - by apply (Hu i j a b).
Qed.

Lemma authors_insert_user (us : gmap Z User) (ps : gmap Z Post) id u :
  map_Forall (λ _ p, is_Some (us !! user_id p)) ps →
  map_Forall (λ _ p, is_Some (<[id := u]> us !! user_id p)) ps.
Proof.
  intros H. eapply map_Forall_impl; [exact H|]. intros i p Hp. simpl.
  rewrite lookup_insert_is_Some'. by right.
Qed.

#[export] Hint Resolve ids_in_range_insert unique_on_insert authors_insert_user
  next_rowid_None next_rowid_range : blog.

(** ** Commits: lemmas *)

Lemma username_free db n k u :
  bool_decide (is_Some (user_by_username db n)) = false →
  users db !! k = Some u → username u ≠ n.
Proof.
  intros Hb Hk Hn. apply bool_decide_eq_false in Hb. apply Hb.
  apply first_where_is_Some. eauto.
Qed.

Lemma email_free db e k u :
  bool_decide (is_Some (user_by_email db (Some e))) = false →
  users db !! k = Some u → email u ≠ e.
Proof.
  intros Hb Hk Hn. apply bool_decide_eq_false in Hb. apply Hb.
  apply first_where_is_Some. eauto.
Qed.

(** What a successful user insert did: both NOT NULL columns were set,
    neither value was taken, and the row went in under a fresh id. *)
Lemma insert_user_Ok db nu id db' :
  insert_user db nu = Ok (id, db') →
  ∃ un em, nu_username nu = Some un ∧ nu_email nu = Some em ∧
    (∀ k u, users db !! k = Some u → username u ≠ un ∧ email u ≠ em) ∧
    next_rowid (users db) = Ok id ∧
    db' = mkDb (<[id := mkUser un em (nu_password_hash nu) (Some default_bio)
                               (Some default_profile_image)]> (users db)) (posts db).
Proof.
  unfold insert_user, not_null, unique. intros H.
  repeat case_match; simplify_eq.
  eexists _, _. repeat split; eauto using username_free, email_free.
Qed.

Lemma insert_post_Ok db now np id db' :
  insert_post db now np = Ok (id, db') →
  ∃ t c, np_title np = Some t ∧ np_content np = Some c ∧
    next_rowid (posts db) = Ok id ∧
    db' = mkDb (users db)
      (<[id := mkPost t c now (with_default default_tags (np_tags np))
                 (with_default default_thumbnail (np_thumbnail np)) (np_user_id np)]> (posts db)).
Proof.
  unfold insert_post, not_null. intros H. repeat case_match; simplify_eq. eauto 10.
Qed.

Lemma update_post_Ok db id p t c tg th db' :
  update_post db id p t c tg th = Ok db' →
  ∃ t' c', t = Some t' ∧ c = Some c' ∧
    db' = mkDb (users db) (<[id := mkPost t' c' (date_posted p) tg th (user_id p)]> (posts db)).
Proof.
  unfold update_post, not_null. intros H. repeat case_match; simplify_eq. eauto 10.
Qed.

(** ** Primary-key lookups: lemmas *)

Lemma get_row_Ok {A} (m : gmap Z A) id o : get_row m id = Ok o → m !! id = o.
Proof. unfold get_row, sqlite_int. by case_bool_decide; intros; simplify_eq. Qed.

#[export] Hint Resolve get_row_Ok : blog.

Lemma get_row_in_range {A} (m : gmap Z A) id :
  (- i64_max - 1 ≤ id ≤ i64_max)%Z → get_row m id = Ok (m !! id).
Proof. intros H. unfold get_row, sqlite_int. by rewrite bool_decide_eq_true_2. Qed.

Lemma ids_in_range_i64 {A} (m : gmap Z A) id x :
  ids_in_range m → m !! id = Some x → (- i64_max - 1 ≤ id ≤ i64_max)%Z.
Proof. intros Hr Hx. pose proof (Hr id x Hx). simpl in *. unfold i64_max in *. lia. Qed.

Lemma get_row_Some {A} (m : gmap Z A) id x :
  ids_in_range m → m !! id = Some x → get_row m id = Ok (Some x).
Proof. intros Hr Hx. rewrite get_row_in_range, Hx; [done|]. by eapply ids_in_range_i64. Qed.

Lemma get_row_out_of_range {A} (m : gmap Z A) id :
  ¬ (- i64_max - 1 ≤ id ≤ i64_max)%Z →
  get_row m id = Raise (OverflowError "Python int too large to convert to SQLite INTEGER").
Proof. intros H. unfold get_row, sqlite_int. by rewrite bool_decide_eq_false_2. Qed.

Lemma get_row_overflow {A} (m : gmap Z A) id :
  (i64_max < id)%Z → get_row m id = Raise (OverflowError "Python int too large to convert to SQLite INTEGER").
Proof. intros H. apply get_row_out_of_range. lia. Qed.

(** ** Commits preserve the invariant *)

Lemma insert_user_wf db nu id db' :
  wf_db db → insert_user db nu = Ok (id, db') → wf_db db'.
Proof.
  intros [Hu Hp Hn He Ha] H.
  destruct (insert_user_Ok _ _ _ _ H) as (un & em & _ & _ & Hnew & Hid & ->).
  constructor; simpl; eauto with blog.
  - apply unique_on_insert; eauto with blog. intros k v Hk. apply (Hnew k v Hk).
  - apply unique_on_insert; eauto with blog. intros k v Hk. apply (Hnew k v Hk).
Qed.

Lemma insert_post_wf db now np id db' :
  wf_db db → is_Some (users db !! np_user_id np) →
  insert_post db now np = Ok (id, db') → wf_db db'.
Proof.
  intros [Hu Hp Hn He Ha] Hauth H.
  destruct (insert_post_Ok _ _ _ _ _ H) as (t & c & _ & _ & Hid & ->).
  constructor; simpl; eauto with blog. by apply map_Forall_insert_2.
Qed.

Lemma update_post_wf db id p t c tg th db' :
  wf_db db → posts db !! id = Some p →
  update_post db id p t c tg th = Ok db' → wf_db db'.
Proof.
  intros [Hu Hp Hn He Ha] Hid H.
  destruct (update_post_Ok _ _ _ _ _ _ _ _ H) as (t' & c' & _ & _ & ->).
  constructor; simpl; auto.
  - apply ids_in_range_insert; [done|]. apply (Hp id p Hid).
  - apply map_Forall_insert_2; [|done]. apply (Ha id p Hid).
Qed.

Lemma delete_post_wf db id : wf_db db → wf_db (delete_post db id).
Proof.
  intros [Hu Hp Hn He Ha]. constructor; simpl; try done.
  - by apply map_Forall_delete.
  - by apply map_Forall_delete.
Qed.

#[export] Hint Resolve insert_user_wf insert_post_wf update_post_wf delete_post_wf : blog.

(** ** Lookups by a unique column *)

Lemma user_by_email_exists db k u :
  users db !! k = Some u → ∃ k' u', user_by_email db (Some (email u)) = Some (k', u').
Proof.
  intros Hk. destruct (proj2 (first_where_is_Some (λ v, email v = email u) (users db)))
    as [[k' u'] Hs]; [eauto|]. simpl. rewrite Hs. eauto.
Qed.

Lemma user_by_email_unique db k u :
  wf_db db → users db !! k = Some u → user_by_email db (Some (email u)) = Some (k, u).
Proof.
  intros Hwf Hk. destruct (user_by_email_exists db k u Hk) as (k' & u' & Hs).
  rewrite Hs. simpl in Hs. apply first_where_Some in Hs as [Hk' He].
  assert (k' = k) as -> by (eapply (wf_email db Hwf); eauto). congruence.
Qed.

Lemma user_by_email_Some db e k u :
  user_by_email db e = Some (k, u) → users db !! k = Some u ∧ e = Some (email u).
Proof.
  destruct e as [e|]; simpl; [|done]. intros Hs.
  apply first_where_Some in Hs as [Hk He]. by subst.
Qed.

(** No row holds the email: the query finds nothing. *)
Lemma user_by_email_fresh db e :
  map_Forall (λ _ v, email v ≠ e) (users db) → user_by_email db (Some e) = None.
Proof.
  intros Hfresh. destruct (user_by_email db (Some e)) as [[k v]|] eqn:Hs; [|done].
  apply user_by_email_Some in Hs as [Hk Hev]. exfalso. apply (Hfresh k v Hk). congruence.
Qed.

(** Some row holds the username: the query finds a row. *)
Lemma user_by_username_taken db k v : users db !! k = Some v → is_Some (user_by_username db (username v)).
Proof. intros Hk. apply first_where_is_Some. eauto. Qed.

(** ** The invariant is decidable *)

Lemma unique_on_Forall {B} (f : User → B) m :
  unique_on f m ↔
  Forall (λ a : Z * User, Forall (λ b : Z * User, f a.2 = f b.2 → a.1 = b.1) (map_to_list m))
         (map_to_list m).
Proof.
  rewrite Forall_forall. setoid_rewrite Forall_forall. split.
  - intros Hu [i u] Hi [j v] Hj Huv. rewrite elem_of_map_to_list in Hi, Hj. eauto.
  - intros H i j u v Hi Hj Huv.
    apply (H (i, u) (proj2 (elem_of_map_to_list _ _ _) Hi) (j, v)
             (proj2 (elem_of_map_to_list _ _ _) Hj) Huv).
Qed.

#[export] Instance unique_on_dec {B} `{EqDecision B} (f : User → B) m : Decision (unique_on f m).
Proof.
  refine (cast_if (decide (Forall (λ a : Z * User, Forall (λ b : Z * User,
    f a.2 = f b.2 → a.1 = b.1) (map_to_list m)) (map_to_list m))));
    by rewrite unique_on_Forall.
Defined.

Lemma wf_db_iff db :
  wf_db db ↔ ids_in_range (users db) ∧ ids_in_range (posts db) ∧ unique_on username (users db) ∧
             unique_on email (users db) ∧
             map_Forall (λ _ p, is_Some (users db !! user_id p)) (posts db).
Proof. split; [intros []; done|intros (? & ? & ? & ? & ?); by constructor]. Qed.

#[export] Instance wf_db_dec db : Decision (wf_db db).
Proof.
  refine (cast_if (decide (ids_in_range (users db) ∧ ids_in_range (posts db) ∧
    unique_on username (users db) ∧ unique_on email (users db) ∧
    map_Forall (λ _ p, is_Some (users db !! user_id p)) (posts db))));
    by rewrite wf_db_iff.
Defined.

(** ** Row ids: bounds *)

(** C14: While the largest id is below [2^63 - 1], a new row gets an id in
    [1, 2^63 - 1] that no row has, and larger than every id. *)
Theorem next_rowid_spec {A} (m : gmap Z A) :
  ids_in_range m → map_Forall (λ k _, (k < i64_max)%Z) m →
  ∃ id, next_rowid m = Ok id ∧ (1 ≤ id ≤ i64_max)%Z ∧ m !! id = None ∧
        (∀ k, is_Some (m !! k) → (k < id)%Z).
Proof.
  intros Hr Hlt. assert (∃ id, next_rowid m = Ok id) as [id Hid].
  { unfold next_rowid. destruct (max_key m) as [mx|] eqn:Hmx; [|by eexists].
    destruct (max_key_lookup m mx Hmx) as [x Hx].
    rewrite (proj2 (Z.ltb_lt mx i64_max)); [by eexists|]. exact (Hlt mx x Hx). }
  exists id. split; [done|]. split; [by eapply next_rowid_range|].
  split; [by eapply next_rowid_None | by eapply next_rowid_fresh].
Qed.

(** ** Test data *)

Definition alice : User :=
  mkUser "alice" "alice@example.com" (Some "alice-pw") (Some default_bio) (Some default_profile_image).
Definition bob : User :=
  mkUser "bob" "bob@example.com" (Some "bob-pw") (Some default_bio) (Some default_profile_image).
Definition carbonara_post : Post :=
  mkPost "Pasta Carbonara" "Creamy sauce with pancetta." 100 (Some "pasta")
         (Some default_thumbnail) 1.
Definition tiramisu_post : Post :=
  mkPost "Tiramisu" "Classic coffee-flavored dessert." 200 (Some "dessert")
         (Some default_thumbnail) 2.

(** Alice (id 1) wrote post 1, Bob (id 2) wrote post 2. *)
Definition demo_db : Db :=
  mkDb (<[1%Z := alice]> (<[2%Z := bob]> ∅))
       (<[1%Z := carbonara_post]> (<[2%Z := tiramisu_post]> ∅)).

(** ** Witnesses *)

Lemma next_rowid_spec_witness :
  ids_in_range (posts demo_db) ∧ map_Forall (λ k _, (k < i64_max)%Z) (posts demo_db) ∧
  ∃ id, next_rowid (posts demo_db) = Ok id ∧ (1 ≤ id ≤ i64_max)%Z ∧ posts demo_db !! id = None ∧
        (∀ k, is_Some (posts demo_db !! k) → (k < id)%Z).
Proof.
  assert (Hr : ids_in_range (posts demo_db))
    by (unfold ids_in_range; apply (bool_decide_unpack _); vm_compute; reflexivity).
  assert (Hlt : map_Forall (λ k _, (k < i64_max)%Z) (posts demo_db))
    by (apply (bool_decide_unpack _); vm_compute; reflexivity).
  split; [exact Hr|]. split; [exact Hlt|]. exact (next_rowid_spec (posts demo_db) Hr Hlt).
Defined.

(** SQLite reuses the id of a deleted newest row: after post 2 is
    deleted, the next post gets id 2 again, and the old URL
    [/post/2] then shows the new post. *)
Example rowid_reused_after_delete :
  next_rowid (posts demo_db) = Ok 3%Z ∧
  next_rowid (posts (delete_post demo_db 2)) = Ok 2%Z.
Proof. split; vm_compute; reflexivity. Qed.

End Models.
