(* ===== verification/Web.v ===== *)
(** * Requests, responses and the login session

    Module [Http] holds the parts of Flask the handlers use.  A request is
    its method, its form and query arguments, the server clock and the
    random salt Werkzeug draws for a new password hash.  A response is a
    rendered page, a redirect, an [abort] or a 500.  The session is
    signed and held by the client.  [flash] appends to the session.

    Module [Login] holds the parts of Flask-Login the handlers use.  It
    models them as the library defines them, because the application
    relies on their behaviour: the [_user_id] and [_remember] session
    keys, the remember-me cookie written after the response, and the
    [user_loader] [load_user] of src/app.py (lines 20-23).

    The application runs with [debug=True] (src/app.py, line 183).  In
    that mode Flask re-raises an uncaught exception instead of saving the
    session, so a request that raises leaves the client and the database
    as they were. *)

From S2P Require Import Prelude Store.
Import Models.

Module Http.

Inductive Method := GET | POST.

#[export] Instance Method_eq_dec : EqDecision Method.
Proof. solve_decision. Defined.

Record Request := mkRequest {
  method : Method;
  form : list (string * string);
  args : list (string * string);
  now : Z;
  salt : Z
}.

(** [request.form.get(k)] and [request.args.get(k)]: the first value
    under the key, or [None]. *)
Definition multidict_get (k : string) (d : list (string * string)) : option string :=
  snd <$> head (filter (λ kv : string * string, kv.1 = k) d).

(** The pages the handlers render, with the template variables that
    matter to the model. *)
Inductive Page :=
  | PIndex (posts : list (Z * Post)) (search_query : option string)
  | PLogin
  | PSignup
  | PProfile (uid : Z) (u : User) (posts : list (Z * Post))
  | PCreatePost
  | PEditPost (id : Z) (p : Post)
  | PPost (id : Z) (p : Post).

Inductive Endpoint := EIndex | ELogin | ESignup | EViewPost (id : Z).

Inductive Response :=
  | Render (p : Page)
  | Redirect (e : Endpoint)
  | Abort (code : Z)
  | ServerError (e : exc).

Inductive RememberOp := RemSet | RemClear.

#[export] Instance RememberOp_eq_dec : EqDecision RememberOp.
Proof. solve_decision. Defined.

(** The session keys the application reaches: [_user_id], [_remember]
    and [_flashes]. *)
Record Session := mkSession {
  sess_user_id : option string;
  sess_remember : option RememberOp;
  sess_flashes : list (string * string)
}.

(** What a browser holds: the session cookie and Flask-Login's
    remember-me cookie, which carries a user id. *)
Record Client := mkClient {
  session : Session;
  remember_cookie : option string
}.

Definition fresh_client : Client := mkClient (mkSession None None []) None.

Definition set_session (c : Client) (s : Session) : Client :=
  mkClient s (remember_cookie c).

(** [flash(message, category)]. *)
Definition flash (msg cat : string) (c : Client) : Client :=
  let s := session c in
  set_session c (mkSession (sess_user_id s) (sess_remember s)
                           (sess_flashes s ++ [(cat, msg)])).

End Http.

Module Login.
Import Http.

(** [load_user(user_id)]: [User.query.get(int(user_id))]. *)
Definition load_user (db : Db) (uid : string) : result (option (Z * User)) :=
  match py_int uid with
  | None => Raise (ValueError "invalid literal for int() with base 10")
  | Some id => o <- get_row (users db) id ;; Ok ((λ u, (id, u)) <$> o)
  end.

(** [LoginManager._load_user]: the session's [_user_id] first, then the
    remember-me cookie unless a logout asked to clear it.  Loading from
    the cookie writes the id back into the session. *)
Definition load_request_user (db : Db) (c : Client) :
    result (Client * option (Z * User)) :=
  u <- match sess_user_id (session c) with
       | Some uid => load_user db uid
       | None => Ok None
       end ;;
  match u, remember_cookie c with
  | Some _, _ => Ok (c, u)
  | None, Some uid =>
      if bool_decide (sess_remember (session c) = Some RemClear) then Ok (c, None)
      else
        let s := session c in
        let c' := set_session c (mkSession (Some uid) (sess_remember s) (sess_flashes s)) in
        u' <- load_user db uid ;;
        Ok (c', u')
  | None, None => Ok (c, None)
  end.

(** [login_user(user, remember=True)]: the session records [str(user.id)]
    and asks for the remember-me cookie. *)
Definition login_user (id : Z) (c : Client) : Client :=
  set_session c (mkSession (Some (py_str id)) (Some RemSet) (sess_flashes (session c))).

(** [logout_user()]: the session forgets the user and, when the request
    carried a remember-me cookie, asks to clear it. *)
Definition logout_user (c : Client) : Client :=
  let s := session c in
  let r := match remember_cookie c with
           | Some _ => Some RemClear
           | None => sess_remember s
           end in
  set_session c (mkSession None r (sess_flashes s)).

(** [LoginManager._update_remember_cookie], run after every response. *)
Definition update_remember_cookie (c : Client) : Client :=
  let s := session c in
  let s' := mkSession (sess_user_id s) None (sess_flashes s) in
  match sess_remember s with
  | Some RemSet =>
      match sess_user_id s with
      | Some uid => mkClient s' (Some uid)
      | None => mkClient s' (remember_cookie c)
      end
  | Some RemClear => mkClient s' None
  | None => c
  end.

Definition login_message : string := "Please log in to access this page.".

(** [@login_required]: an anonymous client is flashed the login message
    and redirected to [login_manager.login_view], here ['login']. *)
Definition login_required (db : Db) (c : Client) (cu : option (Z * User))
    (view : Z * User → result (Db * Client * Response)) :
    result (Db * Client * Response) :=
  match cu with
  | Some u => view u
  | None => Ok (db, flash login_message "message" c, Redirect ELogin)
  end.

(** [UserMixin.__ne__]: two users differ when their [get_id()],
    [str(self.id)], differ. *)
Definition user_ne (id1 id2 : Z) : bool :=
  negb (bool_decide (py_str id1 = py_str id2)).

(** ** Lemmas *)

(** [load_user(str(id))] looks up row [id] when [id] fits SQLite's
    INTEGER. *)
Lemma load_user_str db id :
  (- i64_max - 1 ≤ id ≤ i64_max)%Z → load_user db (py_str id) = Ok ((λ u, (id, u)) <$> users db !! id).
Proof. intros H. unfold load_user. by rewrite py_int_str, get_row_in_range. Qed.

End Login.
