(* ===== verification/Auth.v ===== *)
(** * Sign-up, login and logout (src/app.py, lines 37-41 and 61-103)

    Werkzeug's password hashing is an interface, the class
    [PasswordHasher].  It has two laws: a hash accepts the password it was
    made from, and only that password.  The second law idealises a
    collision-resistant hash.  The handlers and their theorems live in a
    Section that assumes an instance.  [identity_hasher] is a test
    instance that makes concrete runs compute; it is not Werkzeug's
    scheme.

    Each handler takes the database, the client, the user that
    Flask-Login loaded for the request, and the request.  It returns the
    new database, the new client and the response, or the exception it
    raised. *)

From S2P Require Import Prelude Store Web.
Import Models Http Login.

Class PasswordHasher := {
  generate_password_hash : Z → string → string;
  check_password_hash : string → string → bool;
  check_generate s p : check_password_hash (generate_password_hash s p) p = true;
  check_generate_inv s p q :
    check_password_hash (generate_password_hash s p) q = true → q = p
}.

Module Auth.

Section WithHasher.
Context `{PasswordHasher}.

(** [User.set_password]: Werkzeug encodes the password, so [None] raises. *)
Definition set_password (salt : Z) (pw : option string) : result string :=
  match pw with
  | Some p => Ok (generate_password_hash salt p)
  | None => Raise (AttributeError "'NoneType' object has no attribute 'encode'")
  end.

(** [User.check_password]: Werkzeug splits the stored hash first, so a
    NULL hash raises; a missing password raises next. *)
Definition check_password (u : User) (pw : option string) : result bool :=
  match password_hash u, pw with
  | None, _ => Raise (AttributeError "'NoneType' object has no attribute 'split'")
  | Some _, None => Raise (AttributeError "'NoneType' object has no attribute 'encode'")
  | Some h, Some p => Ok (check_password_hash h p)
  end.

Definition login_failed : string := "Login Unsuccessful. Please check email and password".
Definition email_taken : string := "An account with this email already exists.".

(** [login()]. *)
Definition login (db : Db) (c : Client) (cu : option (Z * User)) (req : Request) :
    result (Db * Client * Response) :=
  match cu with
  | Some _ => Ok (db, c, Redirect EIndex)
  | None =>
    match method req with
    | POST =>
      let em := multidict_get "email" (form req) in
      let pw := multidict_get "password" (form req) in
      match user_by_email db em with
      | Some (id, u) =>
          ok <- check_password u pw ;;
          if ok then Ok (db, login_user id c, Redirect EIndex)
          else Ok (db, flash login_failed "danger" c, Render PLogin)
      | None => Ok (db, flash login_failed "danger" c, Render PLogin)
      end
    | GET => Ok (db, c, Render PLogin)
    end
  end.

(** [signup()]. *)
Definition signup (db : Db) (c : Client) (cu : option (Z * User)) (req : Request) :
    result (Db * Client * Response) :=
  match cu with
  | Some _ => Ok (db, c, Redirect EIndex)
  | None =>
    match method req with
    | POST =>
      let un := multidict_get "username" (form req) in
      let em := multidict_get "email" (form req) in
      let pw := multidict_get "password" (form req) in
      match user_by_email db em with
      | Some _ => Ok (db, flash email_taken "warning" c, Redirect ESignup)
      | None =>
          h <- set_password (salt req) pw ;;
          r <- insert_user db (mkNewUser un em (Some h)) ;;
          let '(id, db') := r in
          Ok (db', login_user id c, Redirect EIndex)
      end
    | GET => Ok (db, c, Render PSignup)
    end
  end.

(** [logout()], under [@login_required]. *)
Definition logout (db : Db) (c : Client) (cu : option (Z * User)) (req : Request) :
    result (Db * Client * Response) :=
  login_required db c cu (λ _, Ok (db, logout_user c, Redirect EIndex)).

End WithHasher.

(** A test instance: the "hash" is the password itself. *)
#[export] Program Instance identity_hasher : PasswordHasher := {
  generate_password_hash s p := p;
  check_password_hash h q := bool_decide (h = q)
}.
Next Obligation. intros. simpl. by apply bool_decide_eq_true. Qed.
Next Obligation. intros s p q Hq. simpl in Hq. apply bool_decide_eq_true in Hq. done. Qed.

(** ** Theorems *)

(** C12: The session protocol round-trips.  After [login_user] for a
    stored user, the next request loads that user back through
    [load_user]'s [int(str(user.id))]; after [logout_user] and the
    remember-cookie update, the next request loads no user, whatever
    cookies the client held. *)
Lemma login_logout_session db id u c c0 :
  ids_in_range (users db) → users db !! id = Some u →
  load_request_user db (login_user id c) = Ok (login_user id c, Some (id, u)) ∧
  ∃ c', load_request_user db (update_remember_cookie (logout_user c0)) = Ok (c', None).
Proof.
  intros Hr Hu. split.
  - unfold load_request_user. simpl. rewrite load_user_str, Hu; [done|]. by eapply ids_in_range_i64.
  - destruct c0 as [[uid rem fl] cookie].
    destruct cookie; [by eexists|]. destruct rem as [[]|]; by eexists.
Qed.

Section Handlers.
Context `{PasswordHasher}.

(** C5: Sign-up with an email that is already registered changes no row:
    the database comes back unchanged, with a warning and a redirect to
    the sign-up form. *)
Lemma signup_duplicate_email db c req k u :
  method req = POST → users db !! k = Some u →
  multidict_get "email" (form req) = Some (email u) →
  signup db c None req = Ok (db, flash email_taken "warning" c, Redirect ESignup).
Proof.
  intros Hm Hk He. unfold signup. rewrite Hm, He.
  destruct (user_by_email_exists db k u Hk) as (k' & u' & ->). done.
Qed.

(** C7: Login with the right password logs the user in.  With a wrong
    password it flashes the generic failure and renders the form again,
    and an unknown email gets exactly that same answer, so a client
    cannot tell which of the two it was. *)
Lemma login_password db c req id u s p q req' e' :
  wf_db db → method req = POST → users db !! id = Some u →
  password_hash u = Some (generate_password_hash s p) →
  multidict_get "email" (form req) = Some (email u) →
  multidict_get "password" (form req) = Some q →
  method req' = POST → multidict_get "email" (form req') = Some e' →
  map_Forall (λ _ v, email v ≠ e') (users db) →
  login db c None req =
    (if bool_decide (q = p) then Ok (db, login_user id c, Redirect EIndex)
     else Ok (db, flash login_failed "danger" c, Render PLogin)) ∧
  login db c None req' = Ok (db, flash login_failed "danger" c, Render PLogin).
Proof.
  intros Hwf Hm Hu Hh He Hp Hm' He' Hfresh. split.
  - unfold login. rewrite Hm, He, Hp.
    rewrite (user_by_email_unique db id u Hwf Hu). unfold check_password. rewrite Hh.
    case_bool_decide as Hqp.
    + subst. by rewrite check_generate.
    + destruct (check_password_hash _ q) eqn:Hc; [|done].
      by apply check_generate_inv in Hc.
  - unfold login. by rewrite Hm', He', user_by_email_fresh.
Qed.

(** C8: A sign-up with a new username and a new email inserts exactly one
    row, holding the salted hash of the password, and logs the client in
    as that row. *)
Lemma signup_new_user db c req un em p id :
  method req = POST →
  multidict_get "username" (form req) = Some un →
  multidict_get "email" (form req) = Some em →
  multidict_get "password" (form req) = Some p →
  map_Forall (λ _ v, username v ≠ un ∧ email v ≠ em) (users db) →
  next_rowid (users db) = Ok id →
  signup db c None req =
    Ok (mkDb (<[id := mkUser un em (Some (generate_password_hash (salt req) p))
                      (Some default_bio) (Some default_profile_image)]> (users db)) (posts db),
        login_user id c, Redirect EIndex).
Proof.
  intros Hm Hun Hem Hp Hfresh Hid. unfold signup. rewrite Hm, Hun, Hem, Hp.
  rewrite ?user_by_email_fresh by (intros k v Hk; by destruct (Hfresh k v Hk)). simpl. unfold insert_user. rewrite Hid. simpl.
  rewrite !bool_decide_eq_false_2; [done| |];
    intros [[k v] Hv]; apply first_where_Some in Hv as [Hk Hv'];
    destruct (Hfresh k v Hk); done.
Qed.

Lemma signup_wf db c cu req db' c' r :
  wf_db db → signup db c cu req = Ok (db', c', r) → wf_db db'.
Proof.
  intros Hwf. unfold signup. repeat case_match; intros; simplify_eq; eauto with blog.
Qed.

Lemma login_db db c cu req db' c' r :
  login db c cu req = Ok (db', c', r) → db' = db.
Proof. unfold login. repeat case_match; intros; simplify_eq; done. Qed.

End Handlers.

(** ** Witnesses *)

Definition form_req (f : list (string * string)) : Request := mkRequest POST f [] 0 7.

Lemma signup_duplicate_email_witness :
  method (form_req [("username", "eve"); ("email", "alice@example.com"); ("password", "x")]) = POST ∧
  users demo_db !! 1%Z = Some alice ∧
  multidict_get "email" (form (form_req [("username", "eve"); ("email", "alice@example.com");
                                         ("password", "x")])) = Some (email alice) ∧
  signup demo_db fresh_client None
    (form_req [("username", "eve"); ("email", "alice@example.com"); ("password", "x")]) =
    Ok (demo_db, flash email_taken "warning" fresh_client, Redirect ESignup).
Proof.
  split; [reflexivity|]. split; [reflexivity|]. split; [reflexivity|].
  apply (signup_duplicate_email demo_db fresh_client _ 1 alice); reflexivity.
Defined.

Lemma login_password_witness :
  wf_db demo_db ∧ map_Forall (λ _ v, email v ≠ "mallory@example.com") (users demo_db) ∧
  login demo_db fresh_client None
    (form_req [("email", "alice@example.com"); ("password", "guess")]) =
    Ok (demo_db, flash login_failed "danger" fresh_client, Render PLogin) ∧
  login demo_db fresh_client None
    (form_req [("email", "mallory@example.com"); ("password", "guess")]) =
    Ok (demo_db, flash login_failed "danger" fresh_client, Render PLogin).
Proof.
  assert (Hwf : wf_db demo_db) by (apply (bool_decide_unpack _); vm_compute; reflexivity).
  assert (Hf : map_Forall (λ _ v, email v ≠ "mallory@example.com") (users demo_db))
    by (apply (bool_decide_unpack _); vm_compute; reflexivity).
  split; [exact Hwf|]. split; [exact Hf|].
  exact (login_password demo_db fresh_client
           (form_req [("email", "alice@example.com"); ("password", "guess")]) 1 alice 0 "alice-pw" "guess"
           (form_req [("email", "mallory@example.com"); ("password", "guess")]) "mallory@example.com"
           Hwf eq_refl eq_refl eq_refl eq_refl eq_refl eq_refl eq_refl Hf).
Defined.

Lemma signup_new_user_witness :
  signup demo_db fresh_client None
    (form_req [("username", "carol"); ("email", "carol@example.com"); ("password", "pw")]) =
  Ok (mkDb (<[3%Z := mkUser "carol" "carol@example.com" (Some (generate_password_hash 7 "pw"))
                     (Some default_bio) (Some default_profile_image)]> (users demo_db))
           (posts demo_db),
      login_user 3 fresh_client, Redirect EIndex).
Proof.
  apply (signup_new_user demo_db fresh_client
    (form_req [("username", "carol"); ("email", "carol@example.com"); ("password", "pw")])
    "carol" "carol@example.com" "pw" 3);
    try reflexivity.
  apply (bool_decide_unpack _); vm_compute; reflexivity.
Defined.

(** Bob's browser after a "remember me" login. *)
Definition bob_session : Client := update_remember_cookie (login_user 2 fresh_client).

Lemma login_logout_session_witness :
  ids_in_range (users demo_db) ∧ users demo_db !! 2%Z = Some bob ∧
  load_request_user demo_db (login_user 2 fresh_client) =
    Ok (login_user 2 fresh_client, Some (2%Z, bob)) ∧
  ∃ c', load_request_user demo_db (update_remember_cookie (logout_user bob_session)) = Ok (c', None).
Proof.
  assert (Hr : ids_in_range (users demo_db)) by (apply (bool_decide_unpack _); vm_compute; reflexivity).
  split; [exact Hr|]. split; [reflexivity|]. apply login_logout_session; [exact Hr|reflexivity].
Defined.

End Auth.
