(* ===== verification/Posts.v ===== *)
(** * Posts: listing, profile, CRUD and search (src/app.py, 55-59 and 105-176)

    Every listing is [Post.query...order_by(Post.date_posted.desc()).all()].
    The model sorts the table scan (row-id order) with stdpp's stable
    [merge_sort], newest first.  SQLite does not specify the order of
    posts with equal timestamps, so the theorems on listings state only
    that a listing is a permutation of the matching posts sorted newest
    first, which holds whatever order SQLite picks for ties.

    The handlers take the database, the client, the user Flask-Login
    loaded, the request, and the URL parameter.  [edit_post] and
    [delete_post] compare the post's author with the current user through
    [UserMixin.__ne__].  When the post's author row is missing, [post.author]
    is [None] and the comparison says "different". *)

From S2P Require Import Prelude Like Store Web.
Import Models Http Login.

Module Posts.

(** ** Ordering *)

Definition date_desc (a b : Z * Post) : Prop := (date_posted b.2 ≤ date_posted a.2)%Z.

#[export] Instance date_desc_dec : RelDecision date_desc.
Proof. intros a b. unfold date_desc. apply _. Defined.
#[export] Instance date_desc_total : Total date_desc.
Proof. intros a b. unfold date_desc. lia. Qed.
#[export] Instance date_desc_trans : Transitive date_desc.
Proof. intros a b c. unfold date_desc. lia. Qed.

(** [.order_by(Post.date_posted.desc()).all()]. *)
Definition order_by_date_desc (rows : list (Z * Post)) : list (Z * Post) :=
  merge_sort date_desc rows.

(** [Post.query.order_by(Post.date_posted.desc()).all()]. *)
Definition all_posts (db : Db) : list (Z * Post) := order_by_date_desc (scan (posts db)).

(** ** Handlers *)

(** [index()]. *)
Definition index (db : Db) (c : Client) : result (Db * Client * Response) :=
  Ok (db, c, Render (PIndex (all_posts db) None)).

(** [profile(username)]: [first_or_404], then the user's posts. *)
Definition profile (db : Db) (c : Client) (name : string) : result (Db * Client * Response) :=
  match user_by_username db name with
  | None => Ok (db, c, Abort 404)
  | Some (uid, u) =>
      let ps := order_by_date_desc (filter (λ kv : Z * Post, user_id kv.2 = uid) (scan (posts db))) in
      Ok (db, c, Render (PProfile uid u ps))
  end.

(** [create_post()], under [@login_required]. *)
Definition create_post (db : Db) (c : Client) (cu : option (Z * User)) (req : Request) :
    result (Db * Client * Response) :=
  login_required db c cu (λ '(uid, _),
    match method req with
    | POST =>
        let f := form req in
        let np := mkNewPost (multidict_get "title" f) (multidict_get "content" f)
                            (multidict_get "tags" f) (multidict_get "thumbnail" f) uid in
        r <- insert_post db (now req) np ;;
        Ok (r.2, c, Redirect EIndex)
    | GET => Ok (db, c, Render PCreatePost)
    end).

(** [view_post(post_id)]: [get_or_404]. *)
Definition view_post (db : Db) (c : Client) (id : Z) : result (Db * Client * Response) :=
  o <- get_row (posts db) id ;;
  match o with
  | None => Ok (db, c, Abort 404)
  | Some p => Ok (db, c, Render (PPost id p))
  end.

(** [post.author != current_user]. *)
Definition author_ne (db : Db) (p : Post) (uid : Z) : bool :=
  match users db !! user_id p with
  | Some _ => user_ne (user_id p) uid
  | None => true
  end.

Definition no_edit : string := "You do not have permission to edit this post.".
Definition no_delete : string := "You do not have permission to delete this post.".
Definition deleted : string := "Your post has been deleted!".

(** [edit_post(post_id)], under [@login_required]. *)
Definition edit_post (db : Db) (c : Client) (cu : option (Z * User)) (req : Request) (id : Z) :
    result (Db * Client * Response) :=
  login_required db c cu (λ '(uid, _),
    o <- get_row (posts db) id ;;
    match o with
    | None => Ok (db, c, Abort 404)
    | Some p =>
      if author_ne db p uid then Ok (db, flash no_edit "danger" c, Redirect (EViewPost id))
      else
        match method req with
        | POST =>
            let f := form req in
            db' <- update_post db id p (multidict_get "title" f) (multidict_get "content" f)
                               (multidict_get "tags" f) (multidict_get "thumbnail" f) ;;
            Ok (db', c, Redirect (EViewPost id))
        | GET => Ok (db, c, Render (PEditPost id p))
        end
    end).

(** [delete_post(post_id)], under [@login_required]. *)
Definition delete_post (db : Db) (c : Client) (cu : option (Z * User)) (id : Z) :
    result (Db * Client * Response) :=
  login_required db c cu (λ '(uid, _),
    o <- get_row (posts db) id ;;
    match o with
    | None => Ok (db, c, Abort 404)
    | Some p =>
      if author_ne db p uid then Ok (db, flash no_delete "danger" c, Redirect (EViewPost id))
      else Ok (Models.delete_post db id, flash deleted "success" c, Redirect EIndex)
    end).

(** [Post.title.contains(q) | Post.content.contains(q)]. *)
Definition post_matches (q : string) (p : Post) : bool :=
  Like.contains q (title p) || Like.contains q (content p).

(** [search()]: [if query:] is false for a missing and for an empty
    query. *)
Definition search (db : Db) (c : Client) (req : Request) : result (Db * Client * Response) :=
  let q := multidict_get "q" (args req) in
  let ps := match q with
            | None | Some EmptyString => []
            | Some q' => order_by_date_desc
                           (filter (λ kv : Z * Post, post_matches q' kv.2 = true) (scan (posts db)))
            end in
  Ok (db, c, Render (PIndex ps q)).

(** ** Listings: lemmas *)

Lemma order_by_perm l : order_by_date_desc l ≡ₚ l.
Proof. apply merge_sort_Permutation. Qed.

Lemma order_by_sorted l : Sorted date_desc (order_by_date_desc l).
Proof. apply Sorted_merge_sort, _. Qed.

Lemma scan_perm {A} (m : gmap Z A) : scan m ≡ₚ map_to_list m.
Proof. apply merge_sort_Permutation. Qed.

Lemma NoDup_scan {A} (m : gmap Z A) : NoDup (scan m).
Proof. rewrite scan_perm. apply NoDup_map_to_list. Qed.

(** A filtered listing holds each matching row once. *)
Lemma listing_elem (P : Z * Post → Prop) `{∀ x, Decision (P x)} m k p :
  (k, p) ∈ order_by_date_desc (filter P (scan m)) ↔ m !! k = Some p ∧ P (k, p).
Proof. rewrite order_by_perm, list_elem_of_filter, elem_of_scan. tauto. Qed.

Lemma listing_NoDup (P : Z * Post → Prop) `{∀ x, Decision (P x)} m :
  NoDup (order_by_date_desc (filter P (scan m))).
Proof. rewrite order_by_perm. apply NoDup_filter, NoDup_scan. Qed.

(** [post.author != current_user] is [user_id p ≠ uid] when the author
    exists. *)
Lemma author_ne_iff db p uid :
  is_Some (users db !! user_id p) → author_ne db p uid = true ↔ user_id p ≠ uid.
Proof.
  intros [u Hu]. unfold author_ne, user_ne. rewrite Hu, negb_true_iff.
  rewrite bool_decide_eq_false, py_str_eq_iff. done.
Qed.

Lemma author_ne_self db p : is_Some (users db !! user_id p) → author_ne db p (user_id p) = false.
Proof. intros Hu. apply not_true_is_false. rewrite author_ne_iff by done. auto. Qed.

Lemma author_ne_other db p uid : user_id p ≠ uid → author_ne db p uid = true.
Proof.
  intros Hne. destruct (users db !! user_id p) eqn:Hu.
  - apply author_ne_iff; [by eexists|done].
  - unfold author_ne. by rewrite Hu.
Qed.

(** ** Theorems *)



(** C1: A logged-in user who is not the author cannot edit the post: the
    database is unchanged, a warning is flashed and the post is shown
    again, for GET and POST alike. *)
Theorem edit_post_forbidden db c req id uid u p :
  ids_in_range (posts db) → posts db !! id = Some p → user_id p ≠ uid →
  edit_post db c (Some (uid, u)) req id =
    Ok (db, flash no_edit "danger" c, Redirect (EViewPost id)).
Proof.
  intros Hr Hp Hne. unfold edit_post, login_required. rewrite (get_row_Some _ _ _ Hr Hp).
  by rewrite author_ne_other.
Qed.

(** C2: A logged-in user who is not the author cannot delete the post:
    the database is unchanged, a warning is flashed and the post is shown
    again. *)
Theorem delete_post_forbidden db c id uid u p :
  ids_in_range (posts db) → posts db !! id = Some p → user_id p ≠ uid →
  delete_post db c (Some (uid, u)) id =
    Ok (db, flash no_delete "danger" c, Redirect (EViewPost id)).
Proof.
  intros Hr Hp Hne. unfold delete_post, login_required. rewrite (get_row_Some _ _ _ Hr Hp).
  by rewrite author_ne_other.
Qed.

(** Whatever [delete_post] does, it either leaves the database alone or
    removes exactly the one post it names, which belongs to the current
    user; no other row changes. *)
Theorem delete_post_frame db c cu id db' c' r :
  delete_post db c cu id = Ok (db', c', r) →
  db' = db ∨
  (∃ uid u p, cu = Some (uid, u) ∧ posts db !! id = Some p ∧ user_id p = uid ∧
     users db' = users db ∧ posts db' = delete id (posts db)).
Proof.
  unfold delete_post, login_required. intros H.
  destruct cu as [[uid u]|]; [|simplify_eq; by left].
  destruct (get_row (posts db) id) as [[p|]|e] eqn:Hp; [|simplify_eq; by left|done].
  apply get_row_Ok in Hp.
  repeat case_match; simplify_eq; try (by left);
    right; exists uid, u, p; split_and!; try done;
    destruct (decide (user_id p = uid)) as [|Hne']; try done;
    match goal with Hne : author_ne _ _ _ = false |- _ => by rewrite author_ne_other in Hne end.
Qed.

(** Whatever [edit_post] does, it either leaves the database alone or
    rewrites the one post it names, which belongs to the current user,
    keeping its author and timestamp. *)
Theorem edit_post_frame db c cu req id db' c' r :
  edit_post db c cu req id = Ok (db', c', r) →
  db' = db ∨
  (∃ uid u p p', cu = Some (uid, u) ∧ posts db !! id = Some p ∧ user_id p = uid ∧
     user_id p' = user_id p ∧ date_posted p' = date_posted p ∧
     users db' = users db ∧ posts db' = <[id := p']> (posts db)).
Proof.
  unfold edit_post, login_required. intros H.
  destruct cu as [[uid u]|]; [|simplify_eq; by left].
  destruct (get_row (posts db) id) as [[p|]|e] eqn:Hp; [|simplify_eq; by left|done].
  apply get_row_Ok in Hp.
  repeat case_match; simplify_eq; try (by left).
  match goal with Hu : update_post _ _ _ _ _ _ _ = Ok _ |- _ =>
    apply update_post_Ok in Hu as (t & c'' & _ & _ & ->) end.
  assert (user_id p = uid).
  { destruct (decide (user_id p = uid)) as [|Hne']; [done|].
    match goal with Hne : author_ne _ _ _ = false |- _ => by rewrite author_ne_other in Hne end. }
  right. exists uid, u, p, (mkPost t c'' (date_posted p) (multidict_get "tags" (form req))
                             (multidict_get "thumbnail" (form req)) (user_id p)).
  by split_and!.
Qed.

(** C10: A search returns the posts its query matches: none when [?q=]
    is missing or empty, otherwise each post whose title or content
    matches the query, once, newest first. *)
Theorem search_spec db c req :
  ∃ ps, search db c req = Ok (db, c, Render (PIndex ps (multidict_get "q" (args req)))) ∧
    (∀ k p, (k, p) ∈ ps ↔ posts db !! k = Some p ∧
       ∃ q, multidict_get "q" (args req) = Some q ∧ q ≠ "" ∧ post_matches q p = true) ∧
    NoDup ps ∧ Sorted date_desc ps.
Proof.
  unfold search. destruct (multidict_get "q" (args req)) as [[|a q]|].
  2: { eexists. split; [done|]. split_and!; [|apply listing_NoDup|apply order_by_sorted].
       intros k p. rewrite listing_elem. naive_solver. }
  all: exists []; split; [done|]; split_and!; [|constructor|constructor].
  all: intros k p; split; [by intros ?%elem_of_nil|naive_solver].
Qed.
(** C11: The listings: the home page lists every post exactly once,
    newest first, and a user's profile page lists exactly that user's
    posts, newest first. *)
Theorem listings_newest_first db c name uid u :
  wf_db db → users db !! uid = Some u → username u = name →
  (∃ ps, index db c = Ok (db, c, Render (PIndex ps None)) ∧
         ps ≡ₚ map_to_list (posts db) ∧ Sorted date_desc ps) ∧
  (∃ ps, profile db c name = Ok (db, c, Render (PProfile uid u ps)) ∧
    (∀ k p, (k, p) ∈ ps ↔ posts db !! k = Some p ∧ user_id p = uid) ∧
    Sorted date_desc ps).
Proof.
  intros Hwf Hu <-. split.
  - exists (all_posts db). split; [done|]. unfold all_posts.
    split; [by rewrite order_by_perm, scan_perm | apply order_by_sorted].
  - unfold profile, user_by_username.
    destruct (first_where _ (users db)) as [[k v]|] eqn:Hf.
    + apply first_where_Some in Hf as [Hk Hn].
      assert (k = uid) as -> by (eapply (wf_username db Hwf); eauto).
      rewrite Hk in Hu. simplify_eq.
      eexists. split; [done|]. split; [|apply order_by_sorted].
      intros j p. apply listing_elem.
    + exfalso. by apply (first_where_None _ _ uid u Hf Hu).
Qed.

(** C21: A logged-in user's new post is stored under a fresh id with that
    user as its author and the request's time as its timestamp. *)
Theorem create_post_author db c req uid u t ct id :
  method req = POST →
  multidict_get "title" (form req) = Some t →
  multidict_get "content" (form req) = Some ct →
  next_rowid (posts db) = Ok id →
  ∃ db', create_post db c (Some (uid, u)) req = Ok (db', c, Redirect EIndex) ∧
    posts db !! id = None ∧
    posts db' = <[id := mkPost t ct (now req)
                         (with_default default_tags (multidict_get "tags" (form req)))
                         (with_default default_thumbnail (multidict_get "thumbnail" (form req)))
                         uid]> (posts db) ∧
    users db' = users db.
Proof.
  intros Hm Ht Hc Hid. unfold create_post, login_required. rewrite Hm.
  unfold insert_post. simpl. rewrite Hid, Ht, Hc. simpl.
  eexists. split; [done|]. split; [by eapply next_rowid_None|done].
Qed.

(** C6: The author of a post deletes it: exactly that row goes, every other
    row stays, and the success message is flashed. *)
Theorem delete_post_owner db c id uid u p :
  ids_in_range (posts db) → posts db !! id = Some p → user_id p = uid → is_Some (users db !! uid) →
  ∃ db', delete_post db c (Some (uid, u)) id = Ok (db', flash deleted "success" c, Redirect EIndex) ∧
    posts db' !! id = None ∧ (∀ j, j ≠ id → posts db' !! j = posts db !! j) ∧
    users db' = users db.
Proof.
  intros Hr Hp <- Hu. unfold delete_post, login_required.
  rewrite (get_row_Some _ _ _ Hr Hp), author_ne_self by done.
  eexists. split; [done|]. simpl. split; [apply lookup_delete_eq|].
  split; [|done]. intros j Hj. by apply lookup_delete_ne.
Qed.

(** C23: SQLite reuses row ids.  When the author deletes the newest
    post, and the post just below it exists (or it was post 1), the next
    post written gets the deleted post's id, so a link to [/post/<id>]
    saved before the delete shows the new post. *)
Theorem post_link_reused db c uid u pid p req t ct :
  ids_in_range (posts db) → posts db !! pid = Some p → user_id p = uid → is_Some (users db !! uid) →
  map_Forall (λ q _, q ≤ pid)%Z (posts db) → (pid = 1 ∨ is_Some (posts db !! (pid - 1)))%Z →
  method req = POST → multidict_get "title" (form req) = Some t →
  multidict_get "content" (form req) = Some ct →
  ∃ db1 c1 db2, delete_post db c (Some (uid, u)) pid = Ok (db1, c1, Redirect EIndex) ∧
    create_post db1 c1 (Some (uid, u)) req = Ok (db2, c1, Redirect EIndex) ∧
    view_post db2 c pid = Ok (db2, c, Render (PPost pid (mkPost t ct (now req)
      (with_default default_tags (multidict_get "tags" (form req)))
      (with_default default_thumbnail (multidict_get "thumbnail" (form req))) uid))).
Proof.
  intros Hr Hp <- Hu Hmax Hprev Hm Ht Hc. pose proof (Hr _ _ Hp) as Hpid.
  unfold delete_post, login_required. rewrite (get_row_Some _ _ _ Hr Hp), author_ne_self by done.
  do 3 eexists. split; [done|]. split.
  - unfold create_post, login_required. rewrite Hm. unfold insert_post. simpl.
    by rewrite (next_rowid_delete_max _ _ _ Hr Hp Hmax Hprev), Ht, Hc.
  - unfold view_post. rewrite get_row_in_range; [simpl; by rewrite lookup_insert_eq|].
    simpl in Hpid. unfold i64_max in *. lia.
Qed.

(** ** Witnesses and examples *)

Definition post_req (m : Method) (f a : list (string * string)) : Request := mkRequest m f a 300 0.

Lemma edit_post_forbidden_witness :
  ids_in_range (posts demo_db) ∧ posts demo_db !! 1%Z = Some carbonara_post ∧ user_id carbonara_post ≠ 2%Z ∧
  edit_post demo_db fresh_client (Some (2%Z, bob)) (post_req POST [("title", "mine now")] []) 1 =
    Ok (demo_db, flash no_edit "danger" fresh_client, Redirect (EViewPost 1)).
Proof.
  assert (Hr : ids_in_range (posts demo_db)) by (apply (bool_decide_unpack _); vm_compute; reflexivity).
  split; [exact Hr|]. split; [reflexivity|]. split; [apply (bool_decide_unpack _); vm_compute; reflexivity|].
  apply (edit_post_forbidden _ _ _ _ _ _ carbonara_post Hr);
    [reflexivity|apply (bool_decide_unpack _); vm_compute; reflexivity].
Defined.

Lemma delete_post_forbidden_witness :
  ids_in_range (posts demo_db) ∧ posts demo_db !! 1%Z = Some carbonara_post ∧ user_id carbonara_post ≠ 2%Z ∧
  delete_post demo_db fresh_client (Some (2%Z, bob)) 1 =
    Ok (demo_db, flash no_delete "danger" fresh_client, Redirect (EViewPost 1)).
Proof.
  assert (Hr : ids_in_range (posts demo_db)) by (apply (bool_decide_unpack _); vm_compute; reflexivity).
  split; [exact Hr|]. split; [reflexivity|]. split; [apply (bool_decide_unpack _); vm_compute; reflexivity|].
  apply (delete_post_forbidden _ _ _ _ _ carbonara_post Hr);
    [reflexivity|apply (bool_decide_unpack _); vm_compute; reflexivity].
Defined.

Lemma delete_post_owner_witness :
  ∃ db', delete_post demo_db fresh_client (Some (1%Z, alice)) 1 =
           Ok (db', flash deleted "success" fresh_client, Redirect EIndex) ∧
    posts db' !! 1%Z = None ∧ (∀ j, j ≠ 1%Z → posts db' !! j = posts demo_db !! j) ∧
    users db' = users demo_db.
Proof.
  apply (delete_post_owner demo_db fresh_client 1 1 alice carbonara_post); try reflexivity;
    apply (bool_decide_unpack _); vm_compute; reflexivity.
Defined.

(** The spec's search example: the query "Carbonara" returns the post
    whose title holds it, and only that post. *)
Example search_carbonara :
  search demo_db fresh_client (post_req GET [] [("q", "Carbonara")]) =
    Ok (demo_db, fresh_client, Render (PIndex [(1%Z, carbonara_post)] (Some "Carbonara"))).
Proof. vm_compute. reflexivity. Qed.

(** A query of "_" is a wildcard: it returns every post, newest first. *)
Example search_underscore_all :
  search demo_db fresh_client (post_req GET [] [("q", "_")]) =
    Ok (demo_db, fresh_client, Render (PIndex (all_posts demo_db) (Some "_"))).
Proof. vm_compute. reflexivity. Qed.

Lemma listings_newest_first_witness :
  wf_db demo_db ∧ users demo_db !! 2%Z = Some bob ∧
  (∃ ps, index demo_db fresh_client = Ok (demo_db, fresh_client, Render (PIndex ps None)) ∧
         ps ≡ₚ map_to_list (posts demo_db) ∧ Sorted date_desc ps) ∧
  (∃ ps, profile demo_db fresh_client "bob" = Ok (demo_db, fresh_client, Render (PProfile 2 bob ps)) ∧
    (∀ k p, (k, p) ∈ ps ↔ posts demo_db !! k = Some p ∧ user_id p = 2%Z) ∧ Sorted date_desc ps).
Proof.
  assert (Hwf : wf_db demo_db) by (apply (bool_decide_unpack _); vm_compute; reflexivity).
  split; [exact Hwf|]. split; [reflexivity|].
  exact (listings_newest_first demo_db fresh_client "bob" 2 bob Hwf eq_refl eq_refl).
Defined.

Lemma create_post_author_witness :
  ∃ db', create_post demo_db fresh_client (Some (2%Z, bob))
           (post_req POST [("title", "Tiramisu II"); ("content", "Even more coffee.")] []) =
         Ok (db', fresh_client, Redirect EIndex) ∧
    posts demo_db !! 3%Z = None ∧
    posts db' = <[3%Z := mkPost "Tiramisu II" "Even more coffee." 300
                          (with_default default_tags None)
                          (with_default default_thumbnail None) 2]> (posts demo_db) ∧
    users db' = users demo_db.
Proof. apply create_post_author; reflexivity. Defined.

(** Bob deletes his post 2, the newest, and writes another: it is post
    2 again. *)
Lemma post_link_reused_witness :
  ids_in_range (posts demo_db) ∧ map_Forall (λ q _, q ≤ 2)%Z (posts demo_db) ∧
  ∃ db1 c1 db2, delete_post demo_db fresh_client (Some (2%Z, bob)) 2 = Ok (db1, c1, Redirect EIndex) ∧
    create_post db1 c1 (Some (2%Z, bob)) (post_req POST [("title", "Flan"); ("content", "Caramel.")] []) =
      Ok (db2, c1, Redirect EIndex) ∧
    view_post db2 fresh_client 2 = Ok (db2, fresh_client, Render (PPost 2 (mkPost "Flan" "Caramel." 300
      (with_default default_tags None) (with_default default_thumbnail None) 2))).
Proof.
  assert (Hr : ids_in_range (posts demo_db))
    by (unfold ids_in_range; apply (bool_decide_unpack _); vm_compute; reflexivity).
  assert (Hmax : map_Forall (λ q _, q ≤ 2)%Z (posts demo_db))
    by (apply (bool_decide_unpack _); vm_compute; reflexivity).
  split; [exact Hr|]. split; [exact Hmax|].
  exact (post_link_reused demo_db fresh_client 2 bob 2 tiramisu_post
           (post_req POST [("title", "Flan"); ("content", "Caramel.")] []) "Flan" "Caramel." Hr eq_refl eq_refl
           (mk_is_Some _ _ eq_refl) Hmax (or_intror (mk_is_Some _ _ eq_refl)) eq_refl eq_refl eq_refl).
Defined.

(** The form's empty fields are stored as they come: a post with an
    empty title and content is accepted, and an empty thumbnail field is
    stored as "" rather than the placeholder. *)
Example create_post_blank_fields :
  create_post demo_db fresh_client (Some (1%Z, alice))
    (post_req POST [("title", ""); ("content", ""); ("tags", ""); ("thumbnail", "")] []) =
  Ok (mkDb (users demo_db) (<[3%Z := mkPost "" "" 300 (Some "") (Some "") 1]> (posts demo_db)),
      fresh_client, Redirect EIndex).
Proof. vm_compute. reflexivity. Qed.

(** ** The handlers preserve the invariant *)

(** The user Flask-Login loaded is a row of the database. *)
Definition loaded (db : Db) (cu : option (Z * User)) : Prop :=
  ∀ uid u, cu = Some (uid, u) → users db !! uid = Some u.

Lemma create_post_wf db c cu req db' c' r :
  wf_db db → loaded db cu → create_post db c cu req = Ok (db', c', r) → wf_db db'.
Proof.
  intros Hwf Hl. unfold create_post, login_required.
  destruct cu as [[uid u]|]; [|intros; by simplify_eq].
  destruct (method req); [intros; by simplify_eq|].
  destruct (insert_post _ _ _) as [[id db'']|] eqn:Hi; intros; simplify_eq.
  eapply insert_post_wf; [done| |exact Hi]. simpl. eexists. by apply Hl.
Qed.

Lemma edit_post_wf db c cu req id db' c' r :
  wf_db db → edit_post db c cu req id = Ok (db', c', r) → wf_db db'.
Proof.
  intros Hwf. unfold edit_post, login_required. repeat case_match; intros; simplify_eq; eauto with blog.
Qed.

Lemma delete_post_handler_wf db c cu id db' c' r :
  wf_db db → delete_post db c cu id = Ok (db', c', r) → wf_db db'.
Proof.
  intros Hwf. unfold delete_post, login_required. repeat case_match; intros; simplify_eq; eauto with blog.
Qed.

End Posts.
