(* ===== verification/Blog.v ===== *)
(** * The blog application: routing, clients and reachable states

    [serve] is one request, as Flask runs it.  The route's method list is
    checked first (405 otherwise).  Flask-Login then loads the user and
    the view runs; afterwards Flask-Login updates the remember-me cookie.
    An uncaught exception gives a 500 and keeps nothing: the database
    rolls back and, under [debug=True], the session is not saved.

    The model loads the current user on every route, also the public
    ones.  That is what happens when the page layout reads [current_user]
    (the templates are not in the repository).

    A system is one database shared by any number of clients, each with
    its own cookies, keyed by a number.  Requests are interleaved in any
    order.  [reachable] is the set of systems that some sequence of
    requests produces from an empty database.  The theorems: the
    invariant [app_inv] holds in every reachable system (rule induction),
    so a session never makes [load_user] raise; a request never changes
    a post that its sender did not write, nor the author or timestamp of
    any post; and in every reachable system the author of a post can
    delete it with one request.  A taken username at sign-up and a
    missing title end in a 500 that keeps the database and the cookies.
    The examples at the end replay concrete request sequences, among
    them an old [/post/<id>] link showing a newer post after SQLite
    reuses the id. *)

From S2P Require Import Prelude Like Store Web Auth Posts.
Import Models Http Login.

Module Blog.

(** The routes of src/app.py, with their URL parameters. *)
Inductive Route :=
  | RIndex
  | RLogin
  | RSignup
  | RLogout
  | RProfile (username : string)
  | RCreatePost
  | RViewPost (post_id : Z)
  | REditPost (post_id : Z)
  | RDeletePost (post_id : Z)
  | RSearch.

(** The [methods=...] of each [@app.route]; GET when none is given. *)
Definition allowed (r : Route) (m : Method) : bool :=
  match r, m with
  | (RLogin | RSignup | RCreatePost | REditPost _), _ => true
  | RDeletePost _, POST => true
  | RDeletePost _, GET => false
  | _, GET => true
  | _, POST => false
  end.

Section WithHasher.
Context `{PasswordHasher}.

Definition view (db : Db) (c : Client) (cu : option (Z * User)) (req : Request) (r : Route) :
    result (Db * Client * Response) :=
  match r with
  | RIndex => Posts.index db c
  | RLogin => Auth.login db c cu req
  | RSignup => Auth.signup db c cu req
  | RLogout => Auth.logout db c cu req
  | RProfile n => Posts.profile db c n
  | RCreatePost => Posts.create_post db c cu req
  | RViewPost id => Posts.view_post db c id
  | REditPost id => Posts.edit_post db c cu req id
  | RDeletePost id => Posts.delete_post db c cu id
  | RSearch => Posts.search db c req
  end.

(** One request from client [c]. *)
Definition serve (db : Db) (c : Client) (r : Route) (req : Request) : Db * Client * Response :=
  if negb (allowed r (method req)) then (db, update_remember_cookie c, Abort 405)
  else
    match load_request_user db c with
    | Raise e => (db, c, ServerError e)
    | Ok (c1, cu) =>
        match view db c1 cu req r with
        | Raise e => (db, c, ServerError e)
        | Ok (db', c', resp) => (db', update_remember_cookie c', resp)
        end
    end.

Record Sys := mkSys {
  sys_db : Db;
  sys_clients : gmap nat Client
}.

Definition init_sys : Sys := mkSys empty_db ∅.

(** A client the server has not seen yet has no cookies. *)
Definition client_of (s : Sys) (k : nat) : Client :=
  default fresh_client (sys_clients s !! k).

Definition sys_step (s : Sys) (k : nat) (r : Route) (req : Request) : Sys * Response :=
  let '(db', c', resp) := serve (sys_db s) (client_of s k) r req in
  (mkSys db' (<[k := c']> (sys_clients s)), resp).

Inductive reachable : Sys → Prop :=
  | reach_init : reachable init_sys
  | reach_step s k r req : reachable s → reachable (sys_step s k r req).1.

(** The user id a request from client [k] acts for, if any. *)
Definition requester (s : Sys) (k : nat) : option Z :=
  match load_request_user (sys_db s) (client_of s k) with
  | Ok (_, Some (uid, _)) => Some uid
  | _ => None
  end.

End WithHasher.

(** ** Invariant *)

(** A session value or cookie that holds a user id holds [str(id)], for
    an id that fits SQLite's INTEGER. *)
Definition id_str (o : option string) : Prop :=
  match o with None => True | Some s => ∃ id, s = py_str id ∧ (- i64_max - 1 ≤ id ≤ i64_max)%Z end.

Record client_ok (c : Client) : Prop := {
  co_user : id_str (sess_user_id (session c));
  co_cookie : id_str (remember_cookie c);
  co_remember : sess_remember (session c) = None
}.

Record app_inv (s : Sys) : Prop := {
  inv_db : wf_db (sys_db s);
  inv_hash : map_Forall (λ _ u, is_Some (password_hash u)) (users (sys_db s));
  inv_clients : map_Forall (λ _ c, client_ok c) (sys_clients s)
}.

(** ** Sessions *)

Definition client_pre (c : Client) : Prop :=
  id_str (sess_user_id (session c)) ∧ id_str (remember_cookie c).

Lemma id_str_py_str id : (- i64_max - 1 ≤ id ≤ i64_max)%Z → id_str (Some (py_str id)).
Proof. by exists id. Qed.

(** The ids [login_user] receives are row ids, so they fit. *)
Lemma user_by_email_i64 db e id u :
  wf_db db → user_by_email db e = Some (id, u) → (- i64_max - 1 ≤ id ≤ i64_max)%Z.
Proof. intros Hwf [Hu _]%user_by_email_Some. by eapply ids_in_range_i64, Hu; apply wf_user_ids. Qed.

Lemma insert_user_i64 db nu id db' :
  wf_db db → insert_user db nu = Ok (id, db') → (- i64_max - 1 ≤ id ≤ i64_max)%Z.
Proof.
  intros Hwf (? & ? & _ & _ & _ & Hn & _)%insert_user_Ok.
  apply next_rowid_range in Hn; [unfold i64_max in *; lia|apply wf_user_ids, Hwf].
Qed.

Lemma flash_pre m k c : client_pre c → client_pre (flash m k c).
Proof. done. Qed.

Lemma login_user_pre id c :
  (- i64_max - 1 ≤ id ≤ i64_max)%Z → client_pre c → client_pre (login_user id c).
Proof. intros Hid [_ Hc]. split; [by apply id_str_py_str|done]. Qed.

Lemma logout_user_pre c : client_pre c → client_pre (logout_user c).
Proof. intros [_ Hc]. by split. Qed.

Lemma client_ok_pre c : client_ok c → client_pre c.
Proof. by intros []. Qed.

Lemma fresh_client_ok : client_ok fresh_client.
Proof. by constructor. Qed.

#[local] Hint Resolve flash_pre login_user_pre logout_user_pre client_ok_pre
  user_by_email_i64 insert_user_i64 : blog.

Lemma update_remember_cookie_ok c : client_pre c → client_ok (update_remember_cookie c).
Proof.
  destruct c as [[u [[]|] fl] ck]; intros [Hu Hc]; simpl in *;
    [destruct u| |]; by constructor.
Qed.

Lemma load_user_loaded db s cu :
  load_user db s = Ok cu → Posts.loaded db cu.
Proof.
  unfold load_user. destruct (py_int s) as [id|]; intros H; simplify_eq.
  destruct (get_row (users db) id) as [o|] eqn:Hg; simplify_eq.
  apply get_row_Ok in Hg. intros uid u Hcu. destruct o; simplify_eq/=. done.
Qed.

(** On a session whose ids are [str(id)], loading the user does not
    raise, and loads a row of the database. *)
Lemma load_request_user_ok db c :
  client_pre c →
  ∃ c1 cu, load_request_user db c = Ok (c1, cu) ∧ Posts.loaded db cu ∧ client_pre c1.
Proof.
  destruct c as [[u rem fl] ck]. intros [Hu Hc]. unfold load_request_user. simpl in *.
  assert (Hload : ∀ o, id_str o → ∃ cu, match o with Some uid => load_user db uid
                                          | None => Ok None end = Ok cu ∧ Posts.loaded db cu).
  { intros [s|] Hs; [|exists None; split; [done|by intros ??]].
    destruct Hs as [id [-> Hr]]. rewrite load_user_str by done. eexists. split; [done|].
    by eapply load_user_loaded, load_user_str. }
  destruct (Hload u Hu) as (cu & -> & Hl).
  destruct cu as [[uid v]|].
  { eexists _, _. split; [done|]. split; [done|]. by split. }
  destruct ck as [s|].
  2: { eexists _, _. split; [done|]. split; [by intros ??|]. by split. }
  case_bool_decide.
  { eexists _, _. split; [done|]. split; [by intros ??|]. by split. }
  destruct (Hload (Some s) Hc) as (cu' & Hs & Hl'). rewrite Hs. eexists _, _. split; [done|].
  split; [done|]. by split.
Qed.

(** ** Views *)

Section Views.
Context `{PasswordHasher}.

Lemma view_client_pre db c cu req r db' c' resp :
  wf_db db → client_pre c → view db c cu req r = Ok (db', c', resp) → client_pre c'.
Proof.
  intros Hwf Hc. destruct r; simpl;
    unfold Posts.index, Posts.profile, Posts.view_post, Posts.search, Auth.login,
      Auth.signup, Auth.logout, Posts.create_post, Posts.edit_post, Posts.delete_post,
      login_required;
    repeat case_match; intros; simplify_eq; eauto with blog.
Qed.

Lemma view_wf db c cu req r db' c' resp :
  wf_db db → Posts.loaded db cu → view db c cu req r = Ok (db', c', resp) → wf_db db'.
Proof.
  intros Hwf Hl. destruct r; simpl; intros Hv;
    first [ by apply Auth.login_db in Hv as ->
          | by eapply Auth.signup_wf
          | by eapply Posts.create_post_wf
          | by eapply Posts.edit_post_wf
          | by eapply Posts.delete_post_handler_wf
          | unfold Posts.index, Posts.profile, Posts.view_post, Posts.search,
              Auth.logout, login_required in Hv;
            repeat case_match; simplify_eq; eauto with blog ].
Qed.

Definition hashed (db : Db) : Prop := map_Forall (λ _ u, is_Some (password_hash u)) (users db).

Lemma view_hashed db c cu req r db' c' resp :
  hashed db → view db c cu req r = Ok (db', c', resp) → hashed db'.
Proof.
  unfold hashed. intros Hh. destruct r; simpl;
    unfold Posts.index, Posts.profile, Posts.view_post, Posts.search, Auth.login,
      Auth.signup, Auth.logout, Posts.create_post, Posts.edit_post, Posts.delete_post,
      login_required;
    repeat case_match; intros; simplify_eq; try done.
  - match goal with Hi : insert_user _ _ = Ok _ |- _ =>
      apply insert_user_Ok in Hi as (? & ? & _ & _ & _ & _ & ->) end.
    apply map_Forall_insert_2; [|done]. simpl. by eexists.
  - match goal with Hi : insert_post _ _ _ = Ok ?a |- _ =>
      destruct a; apply insert_post_Ok in Hi as (? & ? & _ & _ & _ & ->) end.
    done.
  - match goal with Hi : update_post _ _ _ _ _ _ _ = Ok _ |- _ => apply update_post_Ok in Hi end.
    naive_solver.
Qed.

(** A view leaves alone every post whose author is not the request's
    user. *)
Lemma view_posts_frame db c cu req r db' c' resp pid p :
  view db c cu req r = Ok (db', c', resp) → posts db !! pid = Some p →
  (∀ uid u, cu = Some (uid, u) → uid ≠ user_id p) →
  posts db' !! pid = Some p.
Proof.
  intros Hv Hp Hnot. destruct r; simpl in Hv.
  - by invc Hv.
  - by apply Auth.login_db in Hv as ->.
  - unfold Auth.signup in Hv. repeat case_match; simplify_eq; try done.
    match goal with Hi : insert_user _ _ = Ok _ |- _ => apply insert_user_Ok in Hi end.
    naive_solver.
  - unfold Auth.logout, login_required in Hv. case_match; by simplify_eq.
  - unfold Posts.profile in Hv. case_match; [case_match|]; by simplify_eq.
  - unfold Posts.create_post, login_required in Hv. repeat case_match; simplify_eq; try done.
    match goal with Hi : insert_post _ _ _ = Ok ?a |- _ =>
      destruct a; apply insert_post_Ok in Hi as (? & ? & _ & _ & Hid & ->) end.
    simpl. rewrite lookup_insert_ne; [done|].
    intros ->. apply next_rowid_None in Hid. congruence.
  - unfold Posts.view_post in Hv. repeat case_match; by simplify_eq.
  - apply Posts.edit_post_frame in Hv as [->|(uid & u & q & q' & -> & Hq & Hown & _ & _ & _ & ->)];
      [done|].
    rewrite lookup_insert_ne; [done|]. intros ->. rewrite Hp in Hq. simplify_eq.
    by apply (Hnot (user_id q) u).
  - apply Posts.delete_post_frame in Hv as [->|(uid & u & q & -> & Hq & Hown & _ & ->)]; [done|].
    rewrite lookup_delete_ne; [done|]. intros ->. rewrite Hp in Hq. simplify_eq.
    by apply (Hnot (user_id q) u).
  - by invc Hv.
Qed.

(** A view never changes the author or the timestamp of a post that
    survives it. *)
Lemma view_posts_meta db c cu req r db' c' resp pid p p' :
  view db c cu req r = Ok (db', c', resp) → posts db !! pid = Some p → posts db' !! pid = Some p' →
  user_id p' = user_id p ∧ date_posted p' = date_posted p.
Proof.
  intros Hv Hp Hp'. assert (Hsame : posts db' = posts db → user_id p' = user_id p ∧ date_posted p' = date_posted p)
    by (intros E; rewrite E, Hp in Hp'; by simplify_eq).
  destruct r; simpl in Hv.
  - by invc Hv; apply Hsame.
  - apply Auth.login_db in Hv as ->. by apply Hsame.
  - unfold Auth.signup in Hv. repeat case_match; simplify_eq; try by apply Hsame.
    match goal with Hi : insert_user _ _ = Ok _ |- _ => apply insert_user_Ok in Hi end.
    apply Hsame. naive_solver.
  - unfold Auth.logout, login_required in Hv. case_match; simplify_eq; by apply Hsame.
  - unfold Posts.profile in Hv. case_match; [case_match|]; simplify_eq; by apply Hsame.
  - unfold Posts.create_post, login_required in Hv. repeat case_match; simplify_eq; try by apply Hsame.
    match goal with Hi : insert_post _ _ _ = Ok ?a |- _ =>
      destruct a; apply insert_post_Ok in Hi as (? & ? & _ & _ & Hid & ->) end.
    simpl in Hp'. rewrite lookup_insert_ne in Hp'; [by rewrite Hp in Hp'; simplify_eq|].
    intros ->. apply next_rowid_None in Hid. congruence.
  - unfold Posts.view_post in Hv. repeat case_match; simplify_eq; by apply Hsame.
  - apply Posts.edit_post_frame in Hv as [->|(uid & u & q & q' & -> & Hq & _ & Hu & Hd & _ & Hpost)];
      [by apply Hsame|].
    rewrite Hpost in Hp'. destruct (decide (pid = post_id)) as [->|Hne].
    + rewrite lookup_insert_eq in Hp'. rewrite Hp in Hq. by simplify_eq.
    + rewrite lookup_insert_ne in Hp' by done. rewrite Hp in Hp'. by simplify_eq.
  - apply Posts.delete_post_frame in Hv as [->|(uid & u & q & -> & Hq & _ & _ & Hpost)]; [by apply Hsame|].
    rewrite Hpost in Hp'. destruct (decide (pid = post_id)) as [->|Hne].
    + by rewrite lookup_delete_eq in Hp'.
    + rewrite lookup_delete_ne in Hp' by done. rewrite Hp in Hp'. by simplify_eq.
  - by invc Hv; apply Hsame.
Qed.

End Views.

(** ** One request *)

Section Serve.
Context `{PasswordHasher}.

Lemma client_of_ok s k :
  map_Forall (λ _ c, client_ok c) (sys_clients s) → client_ok (client_of s k).
Proof.
  intros Hc. unfold client_of. destruct (sys_clients s !! k) eqn:E; simpl.
  - by apply (Hc k).
  - apply fresh_client_ok.
Qed.

Lemma serve_ok db c r req db' c' resp :
  wf_db db → hashed db → client_ok c →
  serve db c r req = (db', c', resp) → wf_db db' ∧ hashed db' ∧ client_ok c'.
Proof.
  intros Hwf Hh Hc. unfold serve.
  destruct (allowed r (method req)); simpl.
  2: { intros; simplify_eq. split_and!; auto using update_remember_cookie_ok, client_ok_pre. }
  destruct (load_request_user_ok db c (client_ok_pre c Hc)) as (c1 & cu & -> & Hl & Hc1).
  destruct (view db c1 cu req r) as [[[db'' c''] resp']|e] eqn:Hv; intros; simplify_eq; [|done].
  split_and!.
  - by eapply view_wf.
  - by eapply view_hashed.
  - by eapply update_remember_cookie_ok, view_client_pre.
Qed.

Lemma sys_step_inv s k r req : app_inv s → app_inv (sys_step s k r req).1.
Proof.
  intros [Hwf Hh Hc]. unfold sys_step.
  destruct (serve (sys_db s) (client_of s k) r req) as [[db' c'] resp] eqn:E. simpl.
  destruct (serve_ok _ _ _ _ _ _ _ Hwf Hh (client_of_ok s k Hc) E) as (Hwf' & Hh' & Hc').
  constructor; simpl; [done|done|]. by apply map_Forall_insert_2.
Qed.

End Serve.

(** ** Theorems *)

Section Theorems.
Context `{PasswordHasher}.

Lemma reachable_inv s : reachable s → app_inv s.
Proof.
  induction 1 as [|s k r req _ IH].
  - constructor; simpl.
    + constructor; simpl; try done; intros ????; simplify_map_eq.
    + apply map_Forall_empty.
    + apply map_Forall_empty.
  - by apply sys_step_inv.
Qed.

(** C4: Every reachable system satisfies the invariant: the database is
    well formed, every user has a password hash, and every client's
    session and remember-me cookie hold [str(id)] values. *)
Theorem app_inv_reachable s : reachable s → app_inv s.
Proof. apply reachable_inv. Qed.

(** C13: In a reachable system, loading the current user never raises: no
    request ends in a [ValueError] from [int(user_id)]. *)
Theorem reachable_load_total s k :
  reachable s → ∃ c1 cu, load_request_user (sys_db s) (client_of s k) = Ok (c1, cu).
Proof.
  intros Hr. destruct (reachable_inv s Hr) as [_ _ Hc].
  destruct (load_request_user_ok (sys_db s) (client_of s k)) as (c1 & cu & E & _);
    [by apply client_ok_pre, client_of_ok|eauto].
Qed.

(** C3: A request leaves unchanged every post whose author is not the user
    the request acts for, whatever the route, method and form. *)
Theorem step_keeps_others_posts s k r req pid p :
  posts (sys_db s) !! pid = Some p → requester s k ≠ Some (user_id p) →
  posts (sys_db (sys_step s k r req).1) !! pid = Some p.
Proof.
  unfold sys_step, serve, requester. intros Hp Hreq.
  destruct (allowed r (method req)); simpl; [|done].
  destruct (load_request_user (sys_db s) (client_of s k)) as [[c1 cu]|e]; simpl; [|done].
  destruct (view (sys_db s) c1 cu req r) as [[[db' c'] resp]|e] eqn:Hv; simpl; [|done].
  eapply view_posts_frame; [exact Hv|done|]. intros uid u ->. congruence.
Qed.

(** C38: No request changes the author or the timestamp of a post: a
    post that survives a request keeps its [user_id] and [date_posted],
    whatever the route, the client and the form. *)
Theorem step_keeps_author_date s k r req pid p p' :
  posts (sys_db s) !! pid = Some p → posts (sys_db (sys_step s k r req).1) !! pid = Some p' →
  user_id p' = user_id p ∧ date_posted p' = date_posted p.
Proof.
  unfold sys_step, serve. intros Hp.
  destruct (allowed r (method req)); simpl; [|rewrite Hp; by intros [= <-]].
  destruct (load_request_user _ _) as [[c1 cu]|e]; simpl; [|rewrite Hp; by intros [= <-]].
  destruct (view _ c1 cu req r) as [[[db' c'] resp]|e] eqn:Hv; simpl; [|rewrite Hp; by intros [= <-]].
  by apply (view_posts_meta _ _ _ _ _ _ _ _ _ _ _ Hv Hp).
Qed.

(** C37: The author can always delete a post: in every reachable
    system, one [POST /post/<id>/delete] from a client logged in as the
    post's author removes exactly that post and redirects home. *)
Theorem owner_can_delete s k pid p req :
  reachable s → posts (sys_db s) !! pid = Some p → requester s k = Some (user_id p) →
  method req = POST →
  posts (sys_db (sys_step s k (RDeletePost pid) req).1) = delete pid (posts (sys_db s)) ∧
  users (sys_db (sys_step s k (RDeletePost pid) req).1) = users (sys_db s) ∧
  (sys_step s k (RDeletePost pid) req).2 = Redirect EIndex.
Proof.
  intros Hr Hp Hreq Hm. destruct (reachable_inv s Hr) as [Hwf _ _].
  unfold requester in Hreq. unfold sys_step, serve. rewrite Hm. simpl.
  destruct (load_request_user _ _) as [[c1 [[uid u]|]]|e]; simplify_eq. simpl.
  unfold Posts.delete_post, login_required.
  rewrite ?(get_row_Some _ _ _ (wf_post_ids _ Hwf) Hp). simpl.
  destruct (Posts.author_ne (sys_db s) p (user_id p)) eqn:Hne; [|done].
  apply Posts.author_ne_iff in Hne; [done|]. by apply (wf_author _ Hwf pid p).
Qed.

(** C24: The handlers leave two constraints to the commit, and a
    violation ends in a 500 that keeps the database and the cookies, not
    in a flashed message.  An anonymous sign-up with a new email but a
    taken username raises [IntegrityError] on the UNIQUE constraint of
    [user.username]; a logged-in user's post form without a title raises
    it on the NOT NULL constraint of [post.title]. *)
Theorem commit_errors_500 db c c1 req :
  method req = POST →
  (∀ un em, load_request_user db c = Ok (c1, None) →
     multidict_get "username" (form req) = Some un → multidict_get "email" (form req) = Some em →
     is_Some (multidict_get "password" (form req)) →
     map_Forall (λ _ v, email v ≠ em) (users db) → (∃ k v, users db !! k = Some v ∧ username v = un) →
     (∃ id, next_rowid (users db) = Ok id) →
     serve db c RSignup req = (db, c, ServerError (IntegrityError "UNIQUE constraint failed: user.username"))) ∧
  (∀ uid u, load_request_user db c = Ok (c1, Some (uid, u)) → multidict_get "title" (form req) = None →
     (∃ id, next_rowid (posts db) = Ok id) →
     serve db c RCreatePost req = (db, c, ServerError (IntegrityError "NOT NULL constraint failed: post.title"))).
Proof.
  intros Hm. split.
  - intros un em Hl Hun Hem [pw Hpw] Hfresh (k & v & Hk & <-) [id Hid].
    unfold serve. rewrite Hm, Hl. simpl. unfold Auth.signup. rewrite Hm, Hun, Hem, Hpw.
    rewrite ?user_by_email_fresh by done. simpl. unfold insert_user. rewrite Hid. simpl.
    by rewrite bool_decide_eq_true_2 by (by eapply user_by_username_taken).
  - intros uid u Hl Ht [id Hid]. unfold serve. rewrite Hm, Hl. simpl.
    unfold Posts.create_post, login_required. rewrite Hm. unfold insert_post. simpl.
    by rewrite Hid, Ht.
Qed.

End Theorems.

(** ** Witnesses and examples *)

#[local] Existing Instance Auth.identity_hasher.

(** Bob's browser after he logged in with "remember me". *)
Definition bob_client : Client := update_remember_cookie (login_user 2 fresh_client).

Definition demo_sys : Sys := mkSys demo_db (<[0%nat := bob_client]> ∅).

Definition signup_req : Request :=
  mkRequest POST [("username", "carol"); ("email", "carol@example.com"); ("password", "pw")] [] 0 7.

Lemma step_keeps_others_posts_witness :
  posts (sys_db demo_sys) !! 1%Z = Some carbonara_post ∧
  requester demo_sys 0 ≠ Some (user_id carbonara_post) ∧
  posts (sys_db (sys_step demo_sys 0 (REditPost 1)
                   (mkRequest POST [("title", "mine"); ("content", "now")] [] 0 0)).1) !! 1%Z =
    Some carbonara_post.
Proof.
  split; [reflexivity|]. split; [apply (bool_decide_unpack _); vm_compute; reflexivity|].
  apply step_keeps_others_posts;
    [reflexivity|apply (bool_decide_unpack _); vm_compute; reflexivity].
Defined.

Lemma app_inv_reachable_witness : app_inv (sys_step init_sys 0 RSignup signup_req).1.
Proof. apply app_inv_reachable. apply reach_step. apply reach_init. Defined.

Lemma reachable_load_total_witness :
  ∃ c1 cu, load_request_user (sys_db (sys_step init_sys 0 RSignup signup_req).1)
             (client_of (sys_step init_sys 0 RSignup signup_req).1 0) = Ok (c1, cu).
Proof. apply reachable_load_total. apply reach_step. apply reach_init. Defined.

(** A sign-up that reuses Alice's name with a new email. *)
Definition alice_again_req : Request :=
  mkRequest POST [("username", "alice"); ("email", "alice2@example.com"); ("password", "x")] [] 0 7.

Lemma commit_errors_500_witness :
  method alice_again_req = POST ∧
  serve demo_db fresh_client RSignup alice_again_req =
    (demo_db, fresh_client, ServerError (IntegrityError "UNIQUE constraint failed: user.username")).
Proof.
  split; [reflexivity|].
  apply (proj1 (commit_errors_500 demo_db fresh_client fresh_client alice_again_req eq_refl)
           "alice" "alice2@example.com" eq_refl eq_refl eq_refl (mk_is_Some _ _ eq_refl)).
  - apply (bool_decide_unpack _); vm_compute; reflexivity.
  - by exists 1%Z, alice.
  - by exists 3%Z.
Defined.

(** Deleting needs POST: a GET is refused with 405 before any view
    runs. *)
Example delete_needs_post :
  (sys_step demo_sys 0 (RDeletePost 2) (mkRequest GET [] [] 0 0)).2 = Abort 405.
Proof. vm_compute. reflexivity. Qed.

(** Carol signs up, then writes a post (row 1) at time 5. *)
Definition carol_sys : Sys := (sys_step init_sys 0 RSignup signup_req).1.
Definition soup_req : Request := mkRequest POST [("title", "Soup"); ("content", "Hot")] [] 5 0.
Definition soup_sys : Sys := (sys_step carol_sys 0 RCreatePost soup_req).1.
Definition soup_post : Post :=
  mkPost "Soup" "Hot" 5 (Some default_tags) (Some default_thumbnail) 1.

Lemma soup_sys_reachable : reachable soup_sys.
Proof. apply reach_step, reach_step, reach_init. Qed.

Lemma owner_can_delete_witness :
  posts (sys_db soup_sys) !! 1%Z = Some soup_post ∧ requester soup_sys 0 = Some (user_id soup_post) ∧
  posts (sys_db (sys_step soup_sys 0 (RDeletePost 1) (mkRequest POST [] [] 6 0)).1) =
    delete 1%Z (posts (sys_db soup_sys)) ∧
  users (sys_db (sys_step soup_sys 0 (RDeletePost 1) (mkRequest POST [] [] 6 0)).1) = users (sys_db soup_sys) ∧
  (sys_step soup_sys 0 (RDeletePost 1) (mkRequest POST [] [] 6 0)).2 = Redirect EIndex.
Proof.
  assert (Hp : posts (sys_db soup_sys) !! 1%Z = Some soup_post) by (vm_compute; reflexivity).
  assert (Hq : requester soup_sys 0 = Some (user_id soup_post)) by (vm_compute; reflexivity).
  split; [exact Hp|]. split; [exact Hq|].
  apply (owner_can_delete _ _ _ _ _ soup_sys_reachable Hp Hq). reflexivity.
Defined.

Lemma step_keeps_author_date_witness :
  posts (sys_db soup_sys) !! 1%Z = Some soup_post ∧
  posts (sys_db (sys_step soup_sys 0 (REditPost 1)
                   (mkRequest POST [("title", "Stew"); ("content", "Cold")] [] 9 0)).1) !! 1%Z =
    Some (mkPost "Stew" "Cold" 5 None None 1) ∧
  user_id (mkPost "Stew" "Cold" 5 None None 1) = user_id soup_post ∧
  date_posted (mkPost "Stew" "Cold" 5 None None 1) = date_posted soup_post.
Proof.
  assert (Hp : posts (sys_db soup_sys) !! 1%Z = Some soup_post) by (vm_compute; reflexivity).
  assert (Hq : posts (sys_db (sys_step soup_sys 0 (REditPost 1)
                   (mkRequest POST [("title", "Stew"); ("content", "Cold")] [] 9 0)).1) !! 1%Z =
    Some (mkPost "Stew" "Cold" 5 None None 1)) by (vm_compute; reflexivity).
  split; [exact Hp|]. split; [exact Hq|]. apply (step_keeps_author_date _ _ _ _ _ _ _ Hp Hq).
Defined.

(** The reuse of row ids over a run: after Carol deletes her only post
    and writes a new one, the new post gets the deleted post's id, so a
    link to [/post/1] saved before shows the new post. *)
Example old_link_new_post :
  let s1 := (sys_step soup_sys 0 (RDeletePost 1) (mkRequest POST [] [] 6 0)).1 in
  let s2 := (sys_step s1 0 RCreatePost (mkRequest POST [("title", "Cake"); ("content", "Sweet")] [] 7 0)).1 in
  (sys_step soup_sys 1 (RViewPost 1) (mkRequest GET [] [] 6 0)).2 = Render (PPost 1 soup_post) ∧
  (sys_step s2 1 (RViewPost 1) (mkRequest GET [] [] 8 0)).2 =
    Render (PPost 1 (mkPost "Cake" "Sweet" 7 (Some default_tags) (Some default_thumbnail) 1)).
Proof. split; vm_compute; reflexivity. Qed.

End Blog.
