(* ===== verification/Urls.v ===== *)
(** * Werkzeug's URL map for the blog

    Flask builds a Werkzeug [Map] from the [@app.route] decorators of
    src/app.py (lines 55-166).  No [static] folder is in the repository,
    so Flask adds no static rule.  This file models that map as Werkzeug
    uses it:

    - the rules, one per decorator, as lists of parts: static text, the
      [int] converter ([IntegerConverter]: the regex [\d+] then [int()],
      no sign and no bound) and the default converter
      ([UnicodeConverter]: [[^/]+]);
    - [MapAdapter.match]: the path with its leading slashes stripped,
      split on ["/"], matched rule by rule.  Every rule has
      [strict_slashes] and [merge_slashes] on, Flask's defaults.  A
      path that matches a rule but not its methods is a 405.  A path
      that matches only once runs of slashes are merged is a 308
      redirect to the merged path.  Anything else is a 404;
    - [url_for], building a path from a rule;
    - [serve_url], the request pipeline of [Blog.serve] behind the
      router.  A 404, a 405 and a redirect are raised while matching.
      The session is still saved and Flask-Login's after-request hook
      still updates the remember cookie;
    - [reachable_url], the systems that sequences of requests for URL
      paths produce.

    Werkzeug's matcher is a state machine, trying static parts before
    converters.  No two rules here match the same path
    ([match_rules_any]), so matching rule by rule finds the same rule.

    The theorems:
    - the paths [url_for] builds route back to their views;
    - no path reaches the profile of a username that is empty or holds
      a ['/'];
    - a post id in the URL has no bound, while SQLite's INTEGER does;
    - every redirect the blog sends leads to a route that accepts GET;
    - a browser that follows redirects ([follow]) stops within three
      more requests, whatever it asked first: the fuel of [follow] is an
      explicit bound, and the theorem shows that 3 is enough;
    - URL-level runs and route-level runs reach the same systems: each
      URL step is a route step, a path built for a route is served as
      that route, and a route no path names ([canon_route]: a negative
      id, a username with a ['/']) has the effect of one a path names.
      So the theorems of Blog.v about reachable systems hold for the
      running application and describe all of it.

    Not modelled: percent-decoding of the path (the model starts from
    the decoded [PATH_INFO]); Unicode digits, which [\d] and [int()]
    accept; the [?next=] argument of the login redirect; automatic
    [HEAD] and [OPTIONS]; a path of more than 4300 digits, where
    [int()] raises [ValueError]. *)

From S2P Require Import Prelude Store Web Auth Posts Blog.
From Stdlib Require Import Ascii DecimalString DecimalZ DecimalPos.
Import Models Http Login Blog.

Module Urls.

(** ** Paths *)

(** [path.lstrip("/")] in [MapAdapter.match]. *)
Fixpoint lstrip_slash (s : string) : string :=
  match s with
  | String c s' => if Ascii.eqb c "/"%char then lstrip_slash s' else s
  | EmptyString => EmptyString
  end.

(** [path.split("/")]. *)
Fixpoint split_slash (s : string) : list string :=
  match s with
  | EmptyString => [""]
  | String c s' =>
      let rest := split_slash s' in
      if Ascii.eqb c "/"%char then "" :: rest
      else match rest with
           | x :: xs => String c x :: xs
           | [] => [String c ""]
           end
  end.

(** [re.sub("/+", "/", path)]; [prev] is whether the last character
    written was a slash. *)
Fixpoint merge_from (prev : bool) (s : string) : string :=
  match s with
  | EmptyString => EmptyString
  | String c s' =>
      if Ascii.eqb c "/"%char then
        if prev then merge_from true s' else String c (merge_from true s')
      else String c (merge_from false s')
  end.

Definition merge_slashes (s : string) : string := merge_from false s.

(** ** Converters *)

(** [IntegerConverter]: [\d+], then [int(value)].  Leading zeros are
    accepted; a sign is not. *)
Definition int_converter (s : string) : option Z :=
  Z.of_uint <$> NilZero.uint_of_string s.

(** [UnicodeConverter]: [[^/]+].  A segment holds no slash, so this is
    any non-empty segment. *)
Definition str_converter (s : string) : option string :=
  if String.eqb s "" then None else Some s.

(** ** Rules *)

Inductive Part := Static (s : string) | IntArg | StrArg.

Inductive Value := VInt (z : Z) | VStr (s : string).

(** A rule: its parts after the leading slash, and the view it calls
    with the converted values. *)
Record Rule := mkRule {
  rule_parts : list Part;
  rule_view : list Value → option Route
}.

Fixpoint match_parts (ps : list Part) (segs : list string) : option (list Value) :=
  match ps, segs with
  | [], [] => Some []
  | Static t :: ps', seg :: segs' =>
      if String.eqb t seg then match_parts ps' segs' else None
  | IntArg :: ps', seg :: segs' =>
      z ← int_converter seg; vs ← match_parts ps' segs'; Some (VInt z :: vs)
  | StrArg :: ps', seg :: segs' =>
      u ← str_converter seg; vs ← match_parts ps' segs'; Some (VStr u :: vs)
  | _, _ => None
  end.

Definition int_view (f : Z → Route) (vs : list Value) : option Route :=
  match vs with [VInt z] => Some (f z) | _ => None end.

Definition const_view (r : Route) (vs : list Value) : option Route :=
  match vs with [] => Some r | _ => None end.

(** [@app.route('/')] *)
Definition rule_index : Rule := mkRule [Static ""] (const_view RIndex).
(** [@app.route('/login', methods=['GET', 'POST'])] *)
Definition rule_login : Rule := mkRule [Static "login"] (const_view RLogin).
(** [@app.route('/signup', methods=['GET', 'POST'])] *)
Definition rule_signup : Rule := mkRule [Static "signup"] (const_view RSignup).
(** [@app.route('/logout')] *)
Definition rule_logout : Rule := mkRule [Static "logout"] (const_view RLogout).
(** [@app.route('/profile/<username>')] *)
Definition rule_profile : Rule :=
  mkRule [Static "profile"; StrArg]
    (λ vs, match vs with [VStr u] => Some (RProfile u) | _ => None end).
(** [@app.route('/create_post', methods=['GET', 'POST'])] *)
Definition rule_create_post : Rule := mkRule [Static "create_post"] (const_view RCreatePost).
(** [@app.route('/post/<int:post_id>')] *)
Definition rule_view_post : Rule := mkRule [Static "post"; IntArg] (int_view RViewPost).
(** [@app.route('/post/<int:post_id>/edit', methods=['GET', 'POST'])] *)
Definition rule_edit_post : Rule :=
  mkRule [Static "post"; IntArg; Static "edit"] (int_view REditPost).
(** [@app.route('/post/<int:post_id>/delete', methods=['POST'])] *)
Definition rule_delete_post : Rule :=
  mkRule [Static "post"; IntArg; Static "delete"] (int_view RDeletePost).
(** [@app.route('/search')] *)
Definition rule_search : Rule := mkRule [Static "search"] (const_view RSearch).

(** [app.url_map], in the order of the decorators. *)
Definition url_map : list Rule :=
  [rule_index; rule_login; rule_signup; rule_logout; rule_profile; rule_create_post;
   rule_view_post; rule_edit_post; rule_delete_post; rule_search].

Fixpoint match_rules (rs : list Rule) (segs : list string) : option Route :=
  match rs with
  | [] => None
  | rl :: rs' =>
      match match_parts (rule_parts rl) segs ≫= rule_view rl with
      | Some r => Some r
      | None => match_rules rs' segs
      end
  end.

(** The view a path (with its leading slash) reaches, before methods. *)
Definition match_path (p : string) : option Route :=
  match split_slash p with
  | "" :: segs => match_rules url_map segs
  | _ => None
  end.

(** ** Matching *)

Inductive Dispatch :=
  | Matched (r : Route)
  | NotFound
  | MethodNotAllowed
  | MovedPermanently (path : string).

(** One matching pass: the route, or whether some rule matched the path
    but not the method ([have_match_for]). *)
Definition attempt (m : Method) (p : string) : Route + bool :=
  match match_path p with
  | Some r => if allowed r m then inl r else inr true
  | None => inr false
  end.

(** [MapAdapter.match]: a second pass on the merged path when the first
    finds nothing. *)
Definition dispatch (m : Method) (path_info : string) : Dispatch :=
  let p := "/" ++ lstrip_slash path_info in
  match attempt m p with
  | inl r => Matched r
  | inr h1 =>
      let p' := merge_slashes p in
      match attempt m p' with
      | inl _ => MovedPermanently p'
      | inr h2 => if h1 || h2 then MethodNotAllowed else NotFound
      end
  end.

(** ** Building URLs *)

(** [MapAdapter.build] on the rule of each view: the static parts and
    [str()] of the values. *)
Definition build_path (r : Route) : string :=
  match r with
  | RIndex => "/"
  | RLogin => "/login"
  | RSignup => "/signup"
  | RLogout => "/logout"
  | RProfile u => "/profile/" ++ u
  | RCreatePost => "/create_post"
  | RViewPost id => "/post/" ++ py_str id
  | REditPost id => "/post/" ++ py_str id ++ "/edit"
  | RDeletePost id => "/post/" ++ py_str id ++ "/delete"
  | RSearch => "/search"
  end.

(** The endpoints the handlers pass to [url_for]. *)
Definition endpoint_route (e : Endpoint) : Route :=
  match e with
  | EIndex => RIndex
  | ELogin => RLogin
  | ESignup => RSignup
  | EViewPost id => RViewPost id
  end.

Definition url_for (e : Endpoint) : string := build_path (endpoint_route e).

(** ** The request pipeline behind the router *)

Inductive UrlResponse :=
  | Served (resp : Response)
  | Moved (code : Z) (location : string) (query : list (string * string)).

Section WithHasher.
Context `{PasswordHasher}.

(** One request for a URL path.  A routing error or redirect is raised
    before any view runs; the session is saved and the remember cookie
    updated as after any response.  The redirect keeps the query
    string. *)
Definition serve_url (db : Db) (c : Client) (path : string) (req : Request) :
    Db * Client * UrlResponse :=
  match dispatch (method req) path with
  | Matched r => let '(db', c', resp) := serve db c r req in (db', c', Served resp)
  | NotFound => (db, update_remember_cookie c, Served (Abort 404))
  | MethodNotAllowed => (db, update_remember_cookie c, Served (Abort 405))
  | MovedPermanently p => (db, update_remember_cookie c, Moved 308 p (args req))
  end.

Definition sys_step_url (s : Sys) (k : nat) (path : string) (req : Request) : Sys * UrlResponse :=
  let '(db', c', resp) := serve_url (sys_db s) (client_of s k) path req in
  (mkSys db' (<[k := c']> (sys_clients s)), resp).

Inductive reachable_url : Sys → Prop :=
  | reach_url_init : reachable_url init_sys
  | reach_url_step s k path req : reachable_url s → reachable_url (sys_step_url s k path req).1.

End WithHasher.

(** ** Lemmas on paths *)

#[local] Arguments int_converter : simpl never.

(** Drop the [String.append ""] that [simpl] leaves after a literal. *)
Ltac app_nil :=
  repeat match goal with
  | |- context [String.append "" ?x] => change (String.append "" x) with x
  | H : context [String.append "" ?x] |- _ => change (String.append "" x) with x in H
  end.

Fixpoint has_slash (s : string) : bool :=
  match s with
  | EmptyString => false
  | String c s' => Ascii.eqb c "/"%char || has_slash s'
  end.

(** The views a path may name: ids that [\d+] can spell, usernames that
    fit one segment. *)
Definition route_ok (r : Route) : Prop :=
  match r with
  | RProfile u => u ≠ "" ∧ has_slash u = false
  | RViewPost id | REditPost id | RDeletePost id => (0 ≤ id)%Z
  | _ => True
  end.

(** For a route no path can name, a route a path names that has the same
    effect on the state: a negative id in SQLite's range finds no row, as
    id 0 does; an id below that range overflows, as [2^63] does; a
    profile page only reads. *)
Definition canon_id (id : Z) : Z :=
  if bool_decide (0 ≤ id)%Z then id
  else if bool_decide (- i64_max - 1 ≤ id)%Z then 0%Z else (i64_max + 1)%Z.

Definition canon_route (r : Route) : Route :=
  match r with
  | RProfile u => if bool_decide (u ≠ "" ∧ has_slash u = false) then RProfile u else RProfile "_"
  | RViewPost id => RViewPost (canon_id id)
  | REditPost id => REditPost (canon_id id)
  | RDeletePost id => RDeletePost (canon_id id)
  | r => r
  end.

(** What a view's outcome does to the state. *)
Definition view_effect (x : result (Db * Client * Response)) : option (Db * Client) :=
  match x with Ok (db, c, _) => Some (db, c) | Raise _ => None end.

Lemma split_slash_ne s : split_slash s ≠ [].
Proof. induction s as [|c s IH]; simpl; [done|]. by repeat case_match. Qed.

Lemma split_slash_noslash s : has_slash s = false → split_slash s = [s].
Proof.
  induction s as [|c s IH]; simpl; [done|].
  intros [Hc ?]%orb_false_iff. by rewrite Hc, IH.
Qed.

Lemma split_slash_app x y :
  has_slash x = false → split_slash (x ++ String "/" y) = x :: split_slash y.
Proof.
  induction x as [|c x IH]; simpl; [done|].
  intros [Hc ?]%orb_false_iff. by rewrite Hc, IH.
Qed.

Lemma merge_from_noslash b s : has_slash s = false → merge_from b s = s.
Proof.
  revert b; induction s as [|c s IH]; intros b; simpl; [done|].
  intros [Hc ?]%orb_false_iff. by rewrite Hc, IH.
Qed.

Lemma merge_from_app b x y :
  has_slash x = false → x ≠ "" → merge_from b (x ++ y) = x ++ merge_from false y.
Proof.
  revert b; induction x as [|c x IH]; intros b; simpl; [done|].
  intros [Hc Hx]%orb_false_iff _. rewrite Hc.
  destruct x as [|d x]; [done|]. by rewrite (IH false Hx).
Qed.

Lemma uint_noslash d : has_slash (NilEmpty.string_of_uint d) = false.
Proof. induction d; simpl; auto. Qed.

(** The decimal digits [str()] writes for a non-negative id: one or
    more, no slash, read back by the [int] converter. *)
Lemma py_str_digits id :
  (0 ≤ id)%Z →
  has_slash (py_str id) = false ∧ py_str id ≠ "" ∧ int_converter (py_str id) = Some id.
Proof.
  intros Hid. destruct id as [|p|p]; [done| |lia].
  pose proof (DecimalZ.of_to (Z.pos p)) as E. pose proof (Unsigned.to_uint_nonnil p) as Hn.
  pose proof (NilEmpty.usu (Pos.to_uint p)) as Hu.
  unfold py_str, int_converter. simpl in *. split_and!.
  - destruct (Pos.to_uint p); [done|..]; apply uint_noslash.
  - by destruct (Pos.to_uint p).
  - destruct (Pos.to_uint p) eqn:Ep; [done|..]; simpl in *; rewrite Hu; simpl; congruence.
Qed.

(** ** Lemmas on matching *)

Definition value_ok (v : Value) : Prop :=
  match v with
  | VInt z => (0 ≤ z)%Z
  | VStr u => u ≠ "" ∧ has_slash u = false
  end.

Lemma split_slash_segs s : Forall (λ x, has_slash x = false) (split_slash s).
Proof.
  induction s as [|c s IH]; simpl; [by constructor|].
  destruct (Ascii.eqb c "/"%char) eqn:Hc; [by constructor|].
  destruct (split_slash s) as [|x xs]; [constructor; [by simpl; rewrite Hc|done]|].
  inversion IH. constructor; [|done]. simpl. by rewrite Hc.
Qed.

Lemma int_converter_nonneg s z : int_converter s = Some z → (0 ≤ z)%Z.
Proof.
  unfold int_converter. intros (d & _ & ->)%fmap_Some. unfold Z.of_uint. lia.
Qed.

Lemma match_parts_ok ps segs vs :
  match_parts ps segs = Some vs → Forall (λ x, has_slash x = false) segs → Forall value_ok vs.
Proof.
  revert segs vs; induction ps as [|[t| |] ps IH]; intros [|seg segs] vs; simpl; try done.
  - by intros [= <-].
  - case_match; [|done]. intros Hm Hs. inversion Hs. eauto.
  - intros Hm Hs. inversion Hs; subst.
    destruct (int_converter seg) eqn:Hi; [|done]. simpl in Hm.
    destruct (match_parts ps segs) eqn:Hp; simplify_eq/=.
    constructor; [by eapply int_converter_nonneg|eauto].
  - intros Hm Hs. inversion Hs; subst. unfold str_converter in Hm.
    destruct (String.eqb_spec seg ""); [done|]. simpl in Hm.
    destruct (match_parts ps segs) eqn:Hp; simplify_eq/=. constructor; [done|eauto].
Qed.

(** Every view a path reaches is one whose URL [url_for] can build. *)
Lemma match_rules_ok rs segs r :
  Forall (λ rl, ∀ vs r, Forall value_ok vs → rule_view rl vs = Some r → route_ok r) rs →
  Forall (λ x, has_slash x = false) segs → match_rules rs segs = Some r → route_ok r.
Proof.
  induction rs as [|rl rs IH]; simpl; [done|]. intros Hrs Hs.
  inversion Hrs as [|? ? Hrl Hrs']; subst.
  destruct (match_parts (rule_parts rl) segs) as [vs|] eqn:Hm; simpl; [|by apply IH].
  destruct (rule_view rl vs) eqn:Hv; [|by apply IH]. intros [= <-].
  eapply Hrl; [|done]. by eapply match_parts_ok.
Qed.

Lemma url_map_views_ok :
  Forall (λ rl, ∀ vs r, Forall value_ok vs → rule_view rl vs = Some r → route_ok r) url_map.
Proof.
  unfold url_map. repeat (constructor; [intros vs r Hvs Hv; cbn in Hv; unfold const_view, int_view in Hv;
    repeat (case_match; simplify_eq/=); try done; by inversion_clear Hvs|]). constructor.
Qed.

Lemma match_path_ok p r : match_path p = Some r → route_ok r.
Proof.
  unfold match_path. pose proof (split_slash_segs p) as Hs.
  destruct (split_slash p) as [|x segs]; [done|]. inversion Hs.
  case_match; [|done]. apply match_rules_ok; [apply url_map_views_ok|done].
Qed.

Lemma dispatch_Matched m path r :
  dispatch m path = Matched r →
  match_path ("/" ++ lstrip_slash path) = Some r ∧ allowed r m = true.
Proof. unfold dispatch, attempt. by repeat case_match; intros; simplify_eq. Qed.

Lemma match_path_build_path r : route_ok r → match_path (build_path r) = Some r.
Proof.
  unfold match_path. destruct r as [| | | |u| | | | |]; simpl; app_nil; try done; intros Hok.
  - destruct Hok as [Hne Hs]. rewrite split_slash_noslash by done. simpl. unfold str_converter. by destruct (String.eqb_spec u "").
  - destruct (py_str_digits _ Hok) as (Hs & _ & Hi).
    rewrite split_slash_noslash by done. simpl. by rewrite Hi.
  - destruct (py_str_digits _ Hok) as (Hs & _ & Hi).
    rewrite split_slash_app by done. simpl. by rewrite Hi.
  - destruct (py_str_digits _ Hok) as (Hs & _ & Hi).
    rewrite split_slash_app by done. simpl. by rewrite Hi.
Qed.

Lemma merge_build_path r : route_ok r → merge_slashes (build_path r) = build_path r.
Proof.
  unfold merge_slashes. destruct r; simpl; app_nil; try done; intros Hok.
  - by rewrite merge_from_noslash by apply Hok.
  - destruct (py_str_digits _ Hok) as (Hs & _ & _). by rewrite merge_from_noslash.
  - destruct (py_str_digits _ Hok) as (Hs & Hne & _). by rewrite merge_from_app.
  - destruct (py_str_digits _ Hok) as (Hs & Hne & _). by rewrite merge_from_app.
Qed.

Lemma lstrip_build_path r : "/" ++ lstrip_slash (build_path r) = build_path r.
Proof. by destruct r. Qed.

(** A canonical path is served by its view, or refused with 405. *)
Lemma dispatch_canonical m r :
  route_ok r → dispatch m (build_path r) = if allowed r m then Matched r else MethodNotAllowed.
Proof.
  intros Hok. unfold dispatch, attempt.
  rewrite lstrip_build_path, merge_build_path, match_path_build_path by done.
  by destruct (allowed r m).
Qed.

(** ** The order of the rules does not matter *)

(** No path matches both part lists: they differ in length or in the
    text of a static part at the same place. *)
Fixpoint parts_disjoint (ps1 ps2 : list Part) : bool :=
  match ps1, ps2 with
  | [], [] => false
  | [], _ :: _ | _ :: _, [] => true
  | Static a :: ps1', Static b :: ps2' => negb (String.eqb a b) || parts_disjoint ps1' ps2'
  | _ :: ps1', _ :: ps2' => parts_disjoint ps1' ps2'
  end.

Fixpoint rules_disjoint (rs : list Rule) : bool :=
  match rs with
  | [] => true
  | rl :: rs' =>
      forallb (λ rl', parts_disjoint (rule_parts rl) (rule_parts rl')) rs' && rules_disjoint rs'
  end.

Lemma match_parts_cons p ps seg segs vs :
  match_parts (p :: ps) (seg :: segs) = Some vs →
  (∃ vs', match_parts ps segs = Some vs') ∧ (∀ t, p = Static t → t = seg).
Proof.
  destruct p as [t| |]; simpl.
  - destruct (String.eqb_spec t seg); [|done]. intros Hm. split; [eauto|congruence].
  - destruct (int_converter seg), (match_parts ps segs); simpl; naive_solver.
  - destruct (str_converter seg), (match_parts ps segs); simpl; naive_solver.
Qed.

Lemma parts_disjoint_sound ps1 ps2 segs vs1 vs2 :
  parts_disjoint ps1 ps2 = true →
  match_parts ps1 segs = Some vs1 → match_parts ps2 segs = Some vs2 → False.
Proof.
  revert ps2 segs vs1 vs2. induction ps1 as [|p1 ps1 IH]; intros ps2 segs vs1 vs2 Hd Hm1 Hm2.
  - destruct segs; simpl in Hm1; [|done]. destruct ps2 as [|p2 ps2]; [done|]. by destruct p2.
  - destruct segs as [|seg segs]; [by destruct p1|]. destruct ps2 as [|p2 ps2]; [by simpl in Hm2|].
    apply match_parts_cons in Hm1 as [[? Hm1] Ht1], Hm2 as [[? Hm2] Ht2].
    destruct p1 as [a| |], p2 as [b| |]; simpl in Hd; eauto.
    rewrite (Ht1 a), (Ht2 b), String.eqb_refl in Hd by done. simpl in Hd. eauto.
Qed.

Lemma url_map_disjoint : rules_disjoint url_map = true.
Proof. reflexivity. Qed.

(** The first rule that matches is the only one: matching rule by rule
    finds whatever rule matches. *)
Lemma match_rules_any rs segs rl r :
  rules_disjoint rs = true → rl ∈ rs →
  match_parts (rule_parts rl) segs ≫= rule_view rl = Some r → match_rules rs segs = Some r.
Proof.
  induction rs as [|rl0 rs IH]; simpl; [by intros ? ?%elem_of_nil|].
  intros [Hall Hd]%andb_prop [<-|Hin]%elem_of_cons Hm; [by rewrite Hm|].
  destruct (match_parts (rule_parts rl0) segs) as [vs0|] eqn:Hm0; simpl; [|by apply IH].
  exfalso. apply forallb_forall with (x := rl) in Hall; [|by apply list_elem_of_In].
  destruct (match_parts (rule_parts rl) segs) eqn:Hm'; [|done].
  by eapply parts_disjoint_sound.
Qed.

Lemma match_rules_url_map segs rl r :
  rl ∈ url_map → match_parts (rule_parts rl) segs ≫= rule_view rl = Some r →
  match_rules url_map segs = Some r.
Proof. apply match_rules_any, url_map_disjoint. Qed.

(** ** The pipeline *)

Section Pipeline.
Context `{PasswordHasher}.

Lemma serve_Redirect db c r req db' c' e :
  serve db c r req = (db', c', Redirect e) →
  ∃ c1 cu db'' c'', view db c1 cu req r = Ok (db'', c'', Redirect e).
Proof. unfold serve. repeat case_match; intros; simplify_eq; eauto. Qed.

(** Only the edit and delete views redirect to a post, and to the post
    of their URL. *)
Lemma view_Redirect_post db c cu req r db' c' id :
  view db c cu req r = Ok (db', c', Redirect (EViewPost id)) → r = REditPost id ∨ r = RDeletePost id.
Proof.
  destruct r; simpl;
    unfold Posts.index, Auth.login, Auth.signup, Auth.logout, Posts.profile, Posts.create_post,
      Posts.view_post, Posts.edit_post, Posts.delete_post, Posts.search, login_required;
    intros Hv; repeat case_match; simplify_eq/=; auto.
Qed.

(** A step on a path does what some step on a route does: a routing
    error leaves the state as a 405 does. *)
Lemma sys_step_url_sim s k path req :
  ∃ r req', (sys_step_url s k path req).1 = (sys_step s k r req').1.
Proof.
  unfold sys_step_url, serve_url, sys_step.
  destruct (dispatch (method req) path) as [r| | |p].
  - exists r, req. by destruct (serve _ _ r req) as [[??]?].
  - by exists (RDeletePost 0), (mkRequest GET [] [] 0 0).
  - by exists (RDeletePost 0), (mkRequest GET [] [] 0 0).
  - by exists (RDeletePost 0), (mkRequest GET [] [] 0 0).
Qed.

(** A path built for a route is served as a request for the route. *)
Lemma sys_step_url_canonical s k r req :
  route_ok r → sys_step_url s k (build_path r) req = ((sys_step s k r req).1, Served (sys_step s k r req).2).
Proof.
  intros Hok. unfold sys_step_url, serve_url, sys_step.
  rewrite dispatch_canonical by done. destruct (allowed r (method req)) eqn:Ha.
  - by destruct (serve _ _ r req) as [[??]?].
  - unfold serve. by rewrite Ha.
Qed.

End Pipeline.

(** ** Routes no path names *)

Lemma canon_route_ok r : route_ok (canon_route r).
Proof.
  assert (∀ id, 0 ≤ canon_id id)%Z.
  { intros id. unfold canon_id. repeat case_bool_decide; unfold i64_max in *; lia. }
  destruct r; simpl; try done. case_bool_decide; [done|]. by split.
Qed.

Lemma allowed_canon r m : allowed (canon_route r) m = allowed r m.
Proof. destruct r; simpl; try done. by case_bool_decide. Qed.

(** Where every post id is positive, a negative id and its
    representative find no row, or both overflow. *)
Lemma get_row_canon {A} (m : gmap Z A) id :
  ids_in_range m → canon_id id = id ∨
    (get_row m (canon_id id) = get_row m id ∧ ∀ x, get_row m id ≠ Ok (Some x)).
Proof.
  intros Hr. unfold canon_id. case_bool_decide as H0; [by left|right].
  assert (Hnone : ∀ j, (j ≤ 0)%Z → m !! j = None).
  { intros j Hj. destruct (m !! j) as [x|] eqn:E; [|done]. apply Hr in E. lia. }
  case_bool_decide as H1.
  - rewrite !get_row_in_range, !Hnone by (unfold i64_max in *; lia).
    split; [done|congruence].
  - rewrite !get_row_out_of_range by (unfold i64_max in *; lia).
    split; [done|congruence].
Qed.

Section Canon.
Context `{PasswordHasher}.

Lemma view_canon db c cu req r :
  ids_in_range (posts db) → view_effect (view db c cu req (canon_route r)) = view_effect (view db c cu req r).
Proof.
  intros Hr. destruct r as [| | | |u| |id|id|id|]; simpl; try done.
  { case_bool_decide; [done|]. simpl. unfold Posts.profile. by repeat case_match. }
  all: destruct (get_row_canon (posts db) id Hr) as [->|[E Hn]]; [done|].
  all: unfold Posts.view_post, Posts.edit_post, Posts.delete_post, login_required;
    try (destruct cu as [[uid u]|]; [|done]); rewrite E;
    destruct (get_row (posts db) id) as [[p|]|e] eqn:Eg; try done; by destruct (Hn p).
Qed.

Lemma sys_step_canon s k r req :
  ids_in_range (posts (sys_db s)) → (sys_step s k (canon_route r) req).1 = (sys_step s k r req).1.
Proof.
  intros Hr. unfold sys_step, serve. rewrite allowed_canon.
  destruct (allowed r (method req)); [|done]. simpl.
  destruct (load_request_user _ _) as [[c1 cu]|e]; [|done].
  pose proof (view_canon (sys_db s) c1 cu req r Hr) as E.
  destruct (view _ _ _ _ (canon_route r)) as [[[??]?]|], (view _ _ _ _ r) as [[[??]?]|];
    simpl in E; by simplify_eq.
Qed.

(** Post ids stay positive: new rows get [next_rowid], edits keep the
    row, deletes drop it. *)
Lemma view_post_ids db c cu req r db' c' resp :
  ids_in_range (posts db) → view db c cu req r = Ok (db', c', resp) → ids_in_range (posts db').
Proof.
  intros Hr Hv. destruct r; simpl in Hv.
  - by invc Hv.
  - by apply Auth.login_db in Hv as ->.
  - unfold Auth.signup in Hv. repeat case_match; simplify_eq; try done.
    match goal with Hi : insert_user _ _ = Ok _ |- _ => apply insert_user_Ok in Hi end.
    naive_solver.
  - unfold Auth.logout, login_required in Hv. case_match; by simplify_eq.
  - unfold Posts.profile in Hv. case_match; [case_match|]; by simplify_eq.
  - unfold Posts.create_post, login_required in Hv. repeat case_match; simplify_eq; try done.
    match goal with Hi : insert_post _ _ _ = Ok ?a |- _ =>
      destruct a; apply insert_post_Ok in Hi as (? & ? & _ & _ & Hid & ->) end.
    apply ids_in_range_insert; [done|]. by eapply next_rowid_range.
  - unfold Posts.view_post in Hv. repeat case_match; by simplify_eq.
  - apply Posts.edit_post_frame in Hv as [->|(uid & u & q & q' & -> & Hq & _ & _ & _ & _ & ->)];
      [done|].
    apply ids_in_range_insert; [done|]. apply (Hr _ _ Hq).
  - apply Posts.delete_post_frame in Hv as [->|(uid & u & q & -> & Hq & _ & _ & ->)]; [done|].
    by apply map_Forall_delete.
  - by invc Hv.
Qed.

Lemma reachable_post_ids s : reachable s → ids_in_range (posts (sys_db s)).
Proof.
  induction 1 as [|s k r req _ IH]; [apply map_Forall_empty|].
  unfold sys_step, serve.
  destruct (allowed r (method req)); [|done]. simpl.
  destruct (load_request_user _ _) as [[c1 cu]|e]; [|done].
  destruct (view _ _ _ _ r) as [[[db' c'] resp]|] eqn:Hv; [|done].
  by eapply view_post_ids.
Qed.

End Canon.

(** ** A browser following redirects *)

Definition is_redirect (resp : UrlResponse) : bool :=
  match resp with
  | Served (Redirect _) | Moved _ _ _ => true
  | _ => false
  end.

Section Browser.
Context `{PasswordHasher}.

(** A browser that follows the redirects client [k] receives, sending at
    most [fuel] more requests.  A [redirect()] (302) is followed with a
    GET of the [url_for] path.  A 308 repeats the request, with its
    method and form, on the new path with the query kept.  The result is
    the first response that is not a redirect. *)
Fixpoint follow (fuel : nat) (k : nat) (req : Request) (st : Sys * UrlResponse) :
    option (Sys * UrlResponse) :=
  let '(s, resp) := st in
  match resp with
  | Served (Redirect e) =>
      match fuel with
      | 0 => None
      | S f =>
          let req' := mkRequest GET [] [] (now req) (salt req) in
          follow f k req' (sys_step_url s k (url_for e) req')
      end
  | Moved _ p q =>
      match fuel with
      | 0 => None
      | S f =>
          let req' := mkRequest (method req) (form req) q (now req) (salt req) in
          follow f k req' (sys_step_url s k p req')
      end
  | _ => Some st
  end.

End Browser.

(** ** Lemmas on redirects *)

Definition head_ok (w : string) : Prop :=
  match w with String c _ => Ascii.eqb c "/"%char = false | EmptyString => True end.

Lemma lstrip_head_ok x : head_ok (lstrip_slash x).
Proof. induction x as [|c x IH]; simpl; [done|]. by destruct (Ascii.eqb c "/"%char) eqn:Hc. Qed.

Lemma lstrip_slash_id w : head_ok w → lstrip_slash w = w.
Proof. destruct w as [|c w]; simpl; [done|]. by intros ->. Qed.

Lemma merge_from_true_head_ok y : head_ok y → head_ok (merge_from true y).
Proof. destruct y as [|c y]; simpl; [done|]. intros Hc. by rewrite Hc. Qed.

Lemma merge_from_idem b y : merge_from b (merge_from b y) = merge_from b y.
Proof.
  revert b; induction y as [|c y IH]; intros b; simpl; [done|].
  destruct (Ascii.eqb c "/"%char) eqn:Hc; [destruct b|]; simpl; rewrite ?Hc, ?IH; done.
Qed.

(** The path of a 308 is canonical: matching it again neither strips
    nor merges anything, so it is never redirected again. *)
Lemma dispatch_after_move m path p m' :
  dispatch m path = MovedPermanently p →
  match dispatch m' p with MovedPermanently _ => False | _ => True end.
Proof.
  unfold dispatch at 1. destruct (attempt m _); [done|].
  destruct (attempt m (merge_slashes _)); [|by case_match]. intros [= <-].
  assert (Hp : "/" ++ lstrip_slash (merge_slashes ("/" ++ lstrip_slash path)) =
               merge_slashes ("/" ++ lstrip_slash path)).
  { unfold merge_slashes. simpl. f_equal.
    apply lstrip_slash_id, merge_from_true_head_ok, lstrip_head_ok. }
  unfold dispatch. rewrite Hp.
  assert (Hm : merge_slashes (merge_slashes ("/" ++ lstrip_slash path)) =
               merge_slashes ("/" ++ lstrip_slash path)) by apply merge_from_idem.
  rewrite Hm. destruct (attempt m' _) as [|h]; [done|]. simpl. by destruct (h || h).
Qed.

Lemma py_str_neg_noslash p : has_slash (py_str (Z.neg p)) = false ∧ int_converter (py_str (Z.neg p)) = None.
Proof.
  unfold py_str, int_converter. simpl. split.
  - destruct (Pos.to_uint p); simpl; try done; apply uint_noslash.
  - by destruct (NilEmpty.uint_of_string _).
Qed.

(** [url_for] of a negative post id builds a path no rule matches. *)
Lemma dispatch_url_for e :
  dispatch GET (url_for e) = Matched (endpoint_route e) ∨ dispatch GET (url_for e) = NotFound.
Proof.
  destruct e as [| | |id]; [by left..|].
  destruct (decide (0 ≤ id)%Z) as [Hid|Hid].
  - left. exact (dispatch_canonical GET (RViewPost id) Hid).
  - right. destruct id as [|p|p]; [lia|lia|]. destruct (py_str_neg_noslash p) as [Hs Hi].
    unfold url_for. simpl endpoint_route. unfold build_path.
    remember (py_str (Z.neg p)) as x eqn:Ex. clear Ex.
    unfold dispatch, attempt, match_path, merge_slashes. simpl. app_nil.
    rewrite merge_from_noslash, split_slash_noslash, Hi by done. done.
Qed.

Section FollowLemmas.
Context `{PasswordHasher}.

Lemma follow_mono (n m : nat) k req st x : (n ≤ m)%nat → follow n k req st = Some x → follow m k req st = Some x.
Proof.
  revert m k req st; induction n as [|n IH]; intros [|m] k req [s resp] Hnm; simpl; try lia;
    repeat case_match; try done; intros; apply IH; auto with lia.
Qed.

Lemma follow_Moved n k req s code p q :
  follow (S n) k req (s, Moved code p q) =
    let req' := mkRequest (method req) (form req) q (now req) (salt req) in
    follow n k req' (sys_step_url s k p req').
Proof. reflexivity. Qed.

Lemma follow_settled n k req s resp : is_redirect resp = false → follow n k req (s, resp) = Some (s, resp).
Proof. destruct n, resp as [[]|]; simpl; done. Qed.

(** The GET views [url_for] names: the home page and a post never
    redirect, the login and sign-up forms redirect only home. *)
Lemma serve_GET_Redirect db c r req db' c' e :
  method req = GET → serve db c r req = (db', c', Redirect e) →
  match r with
  | RIndex | RViewPost _ => False
  | RLogin | RSignup => e = EIndex
  | _ => True
  end.
Proof.
  intros Hm. destruct r; try done; unfold serve; simpl;
    unfold Posts.index, Auth.login, Auth.signup, Posts.view_post; rewrite ?Hm;
    repeat case_match; intros; simplify_eq/=; congruence.
Qed.

(** What one request for a path does to the browser's chain: a view's
    answer when a rule matches, a final 404 or 405, or a 308. *)
Lemma sys_step_url_cases s k path req :
  (∃ r, dispatch (method req) path = Matched r ∧
     (sys_step_url s k path req).2 = Served (serve (sys_db s) (client_of s k) r req).2) ∨
  is_redirect (sys_step_url s k path req).2 = false ∨
  (∃ p, dispatch (method req) path = MovedPermanently p ∧
     (sys_step_url s k path req).2 = Moved 308 p (args req)).
Proof.
  unfold sys_step_url, serve_url.
  destruct (dispatch (method req) path) as [r| | |p]; [left|right; by left..|right; right; eauto].
  exists r. split; [done|]. by destruct (serve _ _ r req) as [[??]?].
Qed.

(** Following a redirect home or to a post ends after one request. *)
Lemma follow_home_or_post k req s e :
  (e = EIndex ∨ ∃ id, e = EViewPost id) →
  ∃ x, follow 1 k req (s, Served (Redirect e)) = Some x ∧ is_redirect x.2 = false.
Proof.
  intros He. simpl. set (g := mkRequest GET [] [] (now req) (salt req)).
  destruct (sys_step_url s k (url_for e) g) as [s1 resp1] eqn:Hst.
  destruct (sys_step_url_cases s k (url_for e) g) as [(r & Hd & Hr)|[Hr|(p & Hd & Hr)]];
    rewrite Hst in Hr; simpl in Hr.
  - destruct (dispatch_url_for e) as [Hd'|Hd']; simpl in Hd; rewrite Hd' in Hd; [|done].
    injection Hd as <-. subst resp1.
    destruct (serve _ _ (endpoint_route e) g) as [[db2 c2] [| e2 | |]] eqn:Hs; eauto.
    apply serve_GET_Redirect in Hs; [|done]. by destruct He as [->|[id ->]].
  - destruct resp1 as [[]|]; done || eauto.
  - by destruct (dispatch_url_for e) as [Hd'|Hd']; simpl in Hd; rewrite Hd' in Hd.
Qed.

(** Following any [redirect()] ends after at most two requests: the
    login and sign-up forms may send the browser home once more. *)
Lemma follow_redirect k req s e :
  ∃ x, follow 2 k req (s, Served (Redirect e)) = Some x ∧ is_redirect x.2 = false.
Proof.
  destruct e as [| | |id].
  1: destruct (follow_home_or_post k req s EIndex) as (x & Hf & Hx); [by left|].
  4: destruct (follow_home_or_post k req s (EViewPost id)) as (x & Hf & Hx); [by right; exists id|].
  1,4: exists x; split; [|done]; eapply follow_mono; [|exact Hf]; lia.
  all: simpl; set (g := mkRequest GET [] [] (now req) (salt req)).
  all: match goal with |- context [sys_step_url ?s0 ?k0 ?u ?g0] =>
         destruct (sys_step_url s0 k0 u g0) as [s1 resp1] eqn:Hst;
         destruct (sys_step_url_cases s0 k0 u g0) as [(r & Hd & Hr)|[Hr|(p & Hd & Hr)]] end;
       rewrite Hst in Hr; simpl in Hr; [|destruct resp1 as [[]|]; done || eauto|done].
  all: injection Hd as <-; subst resp1.
  all: destruct (serve _ _ _ g) as [[db2 c2] [| e2 | |]] eqn:Hs; eauto.
  all: apply serve_GET_Redirect in Hs as ->; [|done].
  all: apply follow_home_or_post; by left.
Qed.

End FollowLemmas.

(** ** Theorems *)

Section Theorems.
Context `{PasswordHasher}.

(** C17: Every path [url_for] builds for a view routes back to that view,
    with the id or username it was built from: the view runs when the
    method is one of its [methods], and a 405 comes back otherwise.  Ids
    must be non-negative, and usernames non-empty and free of ['/']. *)
Theorem build_path_dispatch m r :
  route_ok r → dispatch m (build_path r) = if allowed r m then Matched r else MethodNotAllowed.
Proof. apply dispatch_canonical. Qed.

(** C20: A user's profile page can be reached by URL exactly when the
    username is non-empty and holds no ['/']: no path, with any method,
    reaches the profile of another username, and [/profile/<u>] reaches
    the profile of [u] when it is one. *)
Theorem profile_url_dispatch u :
  (∀ m path, dispatch m path = Matched (RProfile u) → u ≠ "" ∧ has_slash u = false) ∧
  (dispatch GET ("/profile/" ++ u) = Matched (RProfile u) ↔ u ≠ "" ∧ has_slash u = false).
Proof.
  assert (Hany : ∀ m path, dispatch m path = Matched (RProfile u) → u ≠ "" ∧ has_slash u = false)
    by (intros m path [Hok%match_path_ok _]%dispatch_Matched; exact Hok).
  split; [exact Hany|]. split; [apply Hany|].
  intros Hok. exact (dispatch_canonical GET (RProfile u) Hok).
Qed.

(** C16: The [int] converter puts no bound on a post id, but SQLite's
    INTEGER does.  [GET /post/<n>] with n beyond 2^63-1 ends in a 500 from
    the OverflowError of the sqlite3 binding, and nothing is saved.  An
    n in range shows the post or gives 404. *)
Theorem view_post_url_bounds db c c1 cu req n :
  method req = GET → (0 ≤ n)%Z → load_request_user db c = Ok (c1, cu) →
  if bool_decide (n ≤ i64_max)%Z then
    ∃ c', serve_url db c ("/post/" ++ py_str n) req =
      (db, c', Served (match posts db !! n with Some p => Render (PPost n p) | None => Abort 404 end))
  else
    serve_url db c ("/post/" ++ py_str n) req =
      (db, c, Served (ServerError (OverflowError "Python int too large to convert to SQLite INTEGER"))).
Proof.
  intros Hm Hn Hl. unfold serve_url. rewrite Hm.
  change ("/post/" ++ py_str n) with (build_path (RViewPost n)).
  rewrite (dispatch_canonical GET (RViewPost n) Hn). simpl.
  unfold serve. rewrite Hm, Hl. simpl. unfold Posts.view_post.
  case_bool_decide.
  - rewrite get_row_in_range by lia. eexists. by destruct (posts db !! n).
  - by rewrite get_row_overflow by lia.
Qed.

(** C18: Every redirect the blog sends can be followed: the browser's
    GET of the [url_for] path reaches the view the handler named. *)
Theorem redirects_followable db c path req db' c' e :
  serve_url db c path req = (db', c', Served (Redirect e)) →
  dispatch GET (url_for e) = Matched (endpoint_route e).
Proof.
  unfold serve_url. destruct (dispatch (method req) path) as [r| | |p] eqn:Hd; [|done..].
  destruct (serve db c r req) as [[db1 c1] resp] eqn:Hs. intros [= -> -> ->].
  apply dispatch_Matched in Hd as [Hok%match_path_ok _].
  destruct e as [| | |id]; [done..|].
  apply serve_Redirect in Hs as (c2 & cu & db2 & c3 & Hv).
  assert (Hid : (0 ≤ id)%Z) by (by destruct (view_Redirect_post _ _ _ _ _ _ _ _ Hv) as [->| ->]).
  exact (dispatch_canonical GET (RViewPost id) Hid).
Qed.

(** C15: URL-level runs and route-level runs reach the same systems.
    Every system reached by requests for URL paths, 404s, 405s and
    redirects included, is reached by requests for routes; and the
    router loses no route: a path built for a route is served as a
    request for that route, and a route no path names (a negative id, a
    username with a ['/']) changes the state as some route a path names.
    So every theorem of Blog.v about reachable systems (the invariant
    [app_inv], [reachable_load_total], [owner_can_delete]) holds for the
    running application, and describes all of it. *)
Theorem url_runs_refine :
  (∀ s, reachable_url s ↔ reachable s) ∧
  (∀ s k r req, route_ok r →
     sys_step_url s k (build_path r) req = ((sys_step s k r req).1, Served (sys_step s k r req).2)).
Proof.
  split; [|intros; by apply sys_step_url_canonical]. intros s. split.
  - induction 1 as [|s k path req _ IH]; [constructor|].
    destruct (sys_step_url_sim s k path req) as (r & req' & ->). by constructor.
  - induction 1 as [|s k r req Hr IH]; [constructor|].
    rewrite <- (sys_step_canon s k r req (reachable_post_ids s Hr)).
    pose proof (f_equal fst (sys_step_url_canonical s k (canon_route r) req (canon_route_ok r))) as E.
    simpl in E. rewrite <- E. by constructor.
Qed.

(** C19: A browser that follows redirects always stops, whatever request
    a client sends: a [redirect()] is followed with a GET and a 308 with
    the same method and form, and after at most three more requests an
    answer comes that is not a redirect.  No view redirects in a
    loop. *)
Theorem redirects_terminate s k path req :
  ∃ x, follow 3 k req (sys_step_url s k path req) = Some x ∧ is_redirect x.2 = false.
Proof.
  destruct (sys_step_url s k path req) as [s1 resp1] eqn:Hst.
  destruct (sys_step_url_cases s k path req) as [(r & Hd & Hr)|[Hr|(p & Hd & Hr)]];
    rewrite Hst in Hr; simpl in Hr; try subst resp1.
  - destruct (serve _ _ r req) as [[db1 c1] resp]; cbn [snd].
    destruct (is_redirect (Served resp)) eqn:Hrd; [|rewrite follow_settled by done; eauto].
    destruct resp as [|e| |]; try done.
    destruct (follow_redirect k req s1 e) as (x & Hf & Hx).
    exists x. split; [|done]. eapply follow_mono; [|exact Hf]; lia.
  - rewrite follow_settled by done. eauto.
  - rewrite follow_Moved. cbv zeta. set (req' := mkRequest (method req) (form req) (args req) (now req) (salt req)).
    pose proof (dispatch_after_move _ _ _ (method req) Hd) as Hm.
    destruct (sys_step_url s1 k p req') as [s2 resp2] eqn:Hst2.
    destruct (sys_step_url_cases s1 k p req') as [(r & Hd2 & Hr)|[Hr|(p' & Hd2 & Hr)]];
      rewrite Hst2 in Hr; simpl in Hr; try subst resp2.
    + destruct (serve _ _ r req') as [[db2 c2] resp]; cbn [snd].
      destruct (is_redirect (Served resp)) eqn:Hrd; [|rewrite follow_settled by done; eauto].
      destruct resp as [|e| |]; try done. apply follow_redirect.
    + rewrite follow_settled by done. eauto.
    + simpl in Hd2. by rewrite Hd2 in Hm.
Qed.

End Theorems.

(** ** Witnesses and examples *)

#[local] Existing Instance Auth.identity_hasher.

Lemma build_path_dispatch_witness :
  route_ok (REditPost 7) ∧ dispatch POST (build_path (REditPost 7)) = Matched (REditPost 7).
Proof.
  assert (Hok : route_ok (REditPost 7)) by (simpl; lia).
  split; [exact Hok|]. exact (build_path_dispatch POST (REditPost 7) Hok).
Defined.

Lemma view_post_url_bounds_witness :
  method (mkRequest GET [] [] 0 0) = GET ∧ (0 ≤ i64_max + 1)%Z ∧
  load_request_user demo_db fresh_client = Ok (fresh_client, None) ∧
  serve_url demo_db fresh_client ("/post/" ++ py_str (i64_max + 1)) (mkRequest GET [] [] 0 0) =
    (demo_db, fresh_client,
     Served (ServerError (OverflowError "Python int too large to convert to SQLite INTEGER"))).
Proof.
  assert (Hl : load_request_user demo_db fresh_client = Ok (fresh_client, None)) by reflexivity.
  split_and!; [reflexivity|unfold i64_max; lia|exact Hl|].
  pose proof (view_post_url_bounds demo_db fresh_client fresh_client None (mkRequest GET [] [] 0 0)
                (i64_max + 1) eq_refl) as Hb.
  rewrite bool_decide_eq_false_2 in Hb by (unfold i64_max; lia).
  apply Hb; [unfold i64_max; lia|exact Hl].
Defined.

Definition edit_req : Request := mkRequest POST [("title", "mine"); ("content", "now")] [] 0 0.

Lemma redirects_followable_witness :
  serve_url demo_db bob_client "/post/1/edit" edit_req =
    ((serve_url demo_db bob_client "/post/1/edit" edit_req).1.1,
     (serve_url demo_db bob_client "/post/1/edit" edit_req).1.2,
     Served (Redirect (EViewPost 1))) ∧
  dispatch GET (url_for (EViewPost 1)) = Matched (RViewPost 1).
Proof.
  assert (Hs : serve_url demo_db bob_client "/post/1/edit" edit_req =
    ((serve_url demo_db bob_client "/post/1/edit" edit_req).1.1,
     (serve_url demo_db bob_client "/post/1/edit" edit_req).1.2,
     Served (Redirect (EViewPost 1)))) by (vm_compute; reflexivity).
  split; [exact Hs|]. exact (redirects_followable _ _ _ _ _ _ _ Hs).
Defined.

Definition signup_url_sys : Sys := (sys_step_url init_sys 0 "/signup" signup_req).1.

Lemma url_runs_refine_witness :
  reachable (sys_step signup_url_sys 0 (RViewPost (-5)) (mkRequest GET [] [] 0 0)).1 ∧
  reachable_url (sys_step signup_url_sys 0 (RViewPost (-5)) (mkRequest GET [] [] 0 0)).1 ∧
  route_ok (RViewPost 1) ∧
  (sys_step_url signup_url_sys 0 "/post/1" (mkRequest GET [] [] 0 0)).2 =
    Served (sys_step signup_url_sys 0 (RViewPost 1) (mkRequest GET [] [] 0 0)).2.
Proof.
  assert (Hr : reachable (sys_step signup_url_sys 0 (RViewPost (-5)) (mkRequest GET [] [] 0 0)).1).
  { apply reach_step. apply (proj1 (proj1 url_runs_refine _)). do 2 constructor. }
  split; [exact Hr|]. split; [exact (proj2 (proj1 url_runs_refine _) Hr)|].
  assert (Hok : route_ok (RViewPost 1)) by (simpl; lia).
  split; [exact Hok|].
  change "/post/1" with (build_path (RViewPost 1)).
  by rewrite (proj2 url_runs_refine signup_url_sys 0 (RViewPost 1) _ Hok).
Defined.

(** A chain of two redirects: an anonymous GET of a doubled-slash edit
    URL is moved to [/post/1/edit], which redirects to the login form,
    which renders.  One more request is not enough; two are. *)
Example follow_login_chain :
  follow 1 1 (mkRequest GET [] [] 0 0)
    (sys_step_url demo_sys 1 "/post//1/edit" (mkRequest GET [] [] 0 0)) = None ∧
  ∃ s', follow 2 1 (mkRequest GET [] [] 0 0)
          (sys_step_url demo_sys 1 "/post//1/edit" (mkRequest GET [] [] 0 0)) =
        Some (s', Served (Render PLogin)).
Proof. split; [vm_compute; reflexivity|]. eexists. vm_compute. reflexivity. Qed.

(** The profile links [url_for] builds for usernames with a slash:
    ['a/b'] gives 404, and ['/bob'] is redirected to Bob's profile. *)
Example profile_slash_redirects :
  dispatch GET (build_path (RProfile "a/b")) = NotFound ∧
  dispatch GET (build_path (RProfile "/bob")) = MovedPermanently "/profile/bob" ∧
  dispatch GET "/profile/bob" = Matched (RProfile "bob").
Proof. vm_compute. repeat split. Qed.

(** Leading slashes are dropped.  A doubled slash inside the path is
    answered with a 308 to the merged path, keeping the query string.
    A trailing slash is a 404, and so is a signed id.  Leading zeros
    are accepted. *)
Example url_edge_cases :
  dispatch GET "//search" = Matched RSearch ∧
  dispatch GET "/post//1/edit" = MovedPermanently "/post/1/edit" ∧
  (sys_step_url demo_sys 0 "/profile//bob" (mkRequest GET [] [("tab", "posts")] 0 0)).2 =
    Moved 308 "/profile/bob" [("tab", "posts")] ∧
  dispatch GET "//search//" = NotFound ∧
  dispatch GET "/post/1/" = NotFound ∧
  dispatch GET "/post/-1" = NotFound ∧
  dispatch GET "/post/+1" = NotFound ∧
  dispatch GET "/post/007" = Matched (RViewPost 7) ∧
  dispatch GET "/post/1/delete" = MethodNotAllowed.
Proof. vm_compute. repeat split. Qed.

End Urls.
