(* ===== verification/Menu.v ===== *)
(** * The menu service's data and endpoints (src/main.py, lines 24-109)

    [menu_db] is the in-memory catalog: a list of Python dicts, here
    [JDict] values whose prices and ratings are binary64 floats.  The
    Pydantic models [MenuItem], [OrderItem] and [OrderRequest] are
    records, and their validators ([v_menu_item], [v_order_item],
    [v_order_request]) are built from the field annotations with the
    validators of [Json].  [get_menu] returns the catalog as it is;
    FastAPI validates it against [List[MenuItem]] and serialises the
    result ([dump_menu_item]).  [place_order] refuses an empty order
    with HTTP 400; it accepts any other order, prints one console line
    per item and answers with a fixed message.  It checks neither the
    item ids nor the sign of the quantities.

    [print] writes its line and a newline to standard output ([stdout]).
    The section [Console] reads such output back ([parse_console]), to
    show what the log records: each accepted order, as long as no item
    id contains a newline. *)

From S2P Require Import Prelude Json.
From Stdlib Require Import Floats Ascii DecimalString.
Import Json.

Module Menu.
#[local] Set Warnings "-inexact-float".

(** ** Models *)

(** [class MenuItem(BaseModel)]. *)
Record MenuItem := mkMenuItem {
  id : string;
  name : string;
  description : string;
  price : float;
  category : string;
  rating : float;
  isFeatured : bool;
  imageUrl : string
}.

(** [class OrderItem(BaseModel)] and [class OrderRequest(BaseModel)]. *)
Record OrderItem := mkOrderItem { item_id : string; quantity : Z }.
Record OrderRequest := mkOrderRequest { items : list OrderItem }.

#[export] Instance OrderItem_eq_dec : EqDecision OrderItem.
Proof. solve_decision. Defined.

(** [menu_db]: the dict literals of the source, in order. *)
Definition menu_db : list json := [
  JDict [("id", JStr "1"); ("name", JStr "Margherita Pizza");
         ("description", JStr "Classic tomato, mozzarella, and fresh basil.");
         ("price", JFloat 12.50%float); ("category", JStr "pizza"); ("rating", JFloat 4.5%float);
         ("isFeatured", JBool true);
         ("imageUrl", JStr "https://placehold.co/400x300/f97316/ffffff?text=Pizza")];
  JDict [("id", JStr "2"); ("name", JStr "Pasta Carbonara");
         ("description", JStr "Creamy sauce with pancetta and egg yolk.");
         ("price", JFloat 15.00%float); ("category", JStr "pasta"); ("rating", JFloat 5.0%float);
         ("isFeatured", JBool true);
         ("imageUrl", JStr "https://placehold.co/400x300/f97316/ffffff?text=Pasta")];
  JDict [("id", JStr "3"); ("name", JStr "Caesar Salad");
         ("description", JStr "Crisp romaine, croutons, and parmesan.");
         ("price", JFloat 9.75%float); ("category", JStr "salad"); ("rating", JFloat 4.0%float);
         ("isFeatured", JBool false);
         ("imageUrl", JStr "https://placehold.co/400x300/f97316/ffffff?text=Salad")];
  JDict [("id", JStr "4"); ("name", JStr "Cheeseburger");
         ("description", JStr "Juicy beef patty with cheddar cheese and pickles.");
         ("price", JFloat 11.25%float); ("category", JStr "burger"); ("rating", JFloat 4.8%float);
         ("isFeatured", JBool false);
         ("imageUrl", JStr "https://placehold.co/400x300/f97316/ffffff?text=Burger")];
  JDict [("id", JStr "5"); ("name", JStr "Spaghetti Bolognese");
         ("description", JStr "Rich meat sauce with fine herbs.");
         ("price", JFloat 14.50%float); ("category", JStr "pasta"); ("rating", JFloat 4.3%float);
         ("isFeatured", JBool false);
         ("imageUrl", JStr "https://placehold.co/400x300/f97316/ffffff?text=Bolognese")];
  JDict [("id", JStr "6"); ("name", JStr "Veggie Pizza");
         ("description", JStr "Assorted seasonal vegetables on a thin crust.");
         ("price", JFloat 13.75%float); ("category", JStr "pizza"); ("rating", JFloat 4.2%float);
         ("isFeatured", JBool false);
         ("imageUrl", JStr "https://placehold.co/400x300/f97316/ffffff?text=Veggie+Pizza")];
  JDict [("id", JStr "7"); ("name", JStr "Grilled Chicken Salad");
         ("description", JStr "Grilled chicken breast on a bed of mixed greens.");
         ("price", JFloat 12.00%float); ("category", JStr "salad"); ("rating", JFloat 4.6%float);
         ("isFeatured", JBool false);
         ("imageUrl", JStr "https://placehold.co/400x300/f97316/ffffff?text=Chicken+Salad")];
  JDict [("id", JStr "8"); ("name", JStr "Tiramisu");
         ("description", JStr "Classic coffee-flavored Italian dessert.");
         ("price", JFloat 7.50%float); ("category", JStr "dessert"); ("rating", JFloat 5.0%float);
         ("isFeatured", JBool false);
         ("imageUrl", JStr "https://placehold.co/400x300/f97316/ffffff?text=Tiramisu")];
  JDict [("id", JStr "9"); ("name", JStr "Chocolate Lava Cake");
         ("description", JStr "Warm chocolate cake with a molten center.");
         ("price", JFloat 8.00%float); ("category", JStr "dessert"); ("rating", JFloat 4.9%float);
         ("isFeatured", JBool false);
         ("imageUrl", JStr "https://placehold.co/400x300/f97316/ffffff?text=Lava+Cake")];
  JDict [("id", JStr "10"); ("name", JStr "Double Bacon Burger");
         ("description", JStr "Double beef patties with crispy bacon and special sauce.");
         ("price", JFloat 14.00%float); ("category", JStr "burger"); ("rating", JFloat 4.7%float);
         ("isFeatured", JBool false);
         ("imageUrl", JStr "https://placehold.co/400x300/f97316/ffffff?text=Bacon+Burger")]
].

(** ** Validation and serialisation *)

Section Validation.
Context (lax : LaxStrings).

(** The eight fields of [MenuItem], in declaration order. *)
Definition v_menu_item : json → validated MenuItem :=
  v_model (λ d, mkMenuItem <$> field d "id" v_str <*> field d "name" v_str
                 <*> field d "description" v_str <*> field d "price" (v_float lax)
                 <*> field d "category" v_str <*> field d "rating" (v_float lax)
                 <*> field d "isFeatured" (v_bool lax) <*> field d "imageUrl" v_str).

Definition v_order_item : json → validated OrderItem :=
  v_model (λ d, mkOrderItem <$> field d "item_id" v_str <*> field d "quantity" (v_int lax)).

Definition v_order_request : json → validated OrderRequest :=
  v_model (λ d, mkOrderRequest <$> field d "items" (v_list v_order_item)).

End Validation.

(** The JSON a [MenuItem] is serialised to in a response. *)
Definition dump_menu_item (m : MenuItem) : json :=
  JDict [("id", JStr (id m)); ("name", JStr (name m)); ("description", JStr (description m));
         ("price", JFloat (price m)); ("category", JStr (category m));
         ("rating", JFloat (rating m)); ("isFeatured", JBool (isFeatured m));
         ("imageUrl", JStr (imageUrl m))].

(** [model_dump()] of an order, the body a client sends. *)
Definition dump_order_item (it : OrderItem) : json :=
  JDict [("item_id", JStr (item_id it)); ("quantity", JInt (quantity it))].

Definition dump_order_request (o : OrderRequest) : json :=
  JDict [("items", JList (dump_order_item <$> items o))].

(** ** Endpoints *)

(** A JSON response: a body with [message], or an [HTTPException] with
    its status and [detail]. *)
Inductive OrderResponse :=
  | Message (message : string)
  | HTTPException (status_code : Z) (detail : string).

(** [get_menu()]. *)
Definition get_menu (catalog : list json) : list json := catalog.

(** [print(f"  - Item ID: {item.item_id}, Quantity: {item.quantity}")]. *)
Definition order_line (it : OrderItem) : string :=
  "  - Item ID: " +:+ item_id it +:+ ", Quantity: " +:+ py_str (quantity it).

Definition order_header : string := "Received new order:".

(** [place_order(order)]: the lines it prints, and its response. *)
Definition place_order (o : OrderRequest) : list string * OrderResponse :=
  match items o with
  | [] => ([], HTTPException 400 "Order cannot be empty.")
  | its => (order_header :: map order_line its, Message "Order received successfully!")
  end.

(** ** The console *)

Section Console.

Definition nl : ascii := "010".

Fixpoint has_char (c : ascii) (s : string) : bool :=
  match s with
  | EmptyString => false
  | String d s' => Ascii.eqb c d || has_char c s'
  end.

(** What a sequence of [print] calls writes to standard output. *)
Definition stdout (prints : list string) : string :=
  foldr (λ l acc, l +:+ String nl acc) "" prints.

(** Reading the output back: its lines, ... *)
Fixpoint lines (s : string) : list string :=
  match s with
  | EmptyString => []
  | String c s' =>
      if Ascii.eqb c nl then "" :: lines s'
      else match lines s' with [] => [String c ""] | l :: ls => String c l :: ls end
  end.

Fixpoint strip_prefix (p s : string) : option string :=
  match p, s with
  | EmptyString, _ => Some s
  | String c p', String d s' => if Ascii.eqb c d then strip_prefix p' s' else None
  | String _ _, EmptyString => None
  end.

(** ... the split of a line at the last occurrence of [sep], ... *)
Fixpoint split_last (sep s : string) : option (string * string) :=
  match s with
  | EmptyString => None
  | String c s' =>
      match split_last sep s' with
      | Some (a, b) => Some (String c a, b)
      | None => (λ b, (EmptyString, b)) <$> strip_prefix sep s
      end
  end.

(** ... an item line, whose quantity follows the last [", Quantity: "], ... *)
Definition parse_order_line (l : string) : option OrderItem :=
  match strip_prefix "  - Item ID: " l with
  | None => None
  | Some rest =>
      match split_last ", Quantity: " rest with
      | None => None
      | Some (i, d) => mkOrderItem i <$> py_int d
      end
  end.

(** ... and the orders: each header opens one, the item lines after it
    fill it.  The first component holds item lines before any header. *)
Fixpoint orders_of (ls : list string) : option (list OrderItem * list (list OrderItem)) :=
  match ls with
  | [] => Some ([], [])
  | l :: ls' =>
      match orders_of ls' with
      | None => None
      | Some (its, os) =>
          if String.eqb l order_header then Some ([], its :: os)
          else (λ it, (it :: its, os)) <$> parse_order_line l
      end
  end.

Definition parse_console (out : string) : option (list (list OrderItem)) :=
  match orders_of (lines out) with Some ([], os) => Some os | _ => None end.

End Console.

(** What the spec asks of the catalog: distinct ids, non-negative
    prices and ratings between 0 and 5. *)
Definition float_in (lo hi x : float) : bool := PrimFloat.leb lo x && PrimFloat.leb x hi.

Definition catalog_ok (l : list MenuItem) : bool :=
  bool_decide (NoDup (map id l)) &&
  forallb (λ m, PrimFloat.leb 0%float (price m) && float_in 0%float 5%float (rating m)) l.

(** ** Lemmas *)

#[local] Arguments Ascii.eqb : simpl never.

Lemma has_char_app c a b : has_char c (a +:+ b) = has_char c a || has_char c b.
Proof. induction a as [|d a IH]; [done|]. simpl. by rewrite IH, orb_assoc. Qed.

Lemma lines_app l rest :
  has_char nl l = false → lines (l +:+ String nl rest) = l :: lines rest.
Proof.
  induction l as [|c l IH]; [done|]. simpl. intros [Hc Hl]%orb_false_iff.
  rewrite Ascii.eqb_sym in Hc. rewrite IH, Hc by done. done.
Qed.

Lemma lines_stdout ps : Forall (λ l, has_char nl l = false) ps → lines (stdout ps) = ps.
Proof. induction 1 as [|l ps Hl _ IH]; [done|]. simpl. by rewrite lines_app, IH. Qed.

Lemma strip_prefix_app p s : strip_prefix p (p +:+ s) = Some s.
Proof. induction p as [|c p IH]; [done|]. simpl. by rewrite Ascii.eqb_refl. Qed.

Lemma split_last_None c sep s : has_char c s = false → split_last (String c sep) s = None.
Proof.
  induction s as [|d s IH]; [done|]. simpl. intros [Hc Hs]%orb_false_iff.
  by rewrite IH, Hc.
Qed.

Lemma split_last_app c sep a b :
  has_char c (sep +:+ b) = false → split_last (String c sep) (a +:+ String c sep +:+ b) = Some (a, b).
Proof.
  intros Hb. induction a as [|d a IH].
  - simpl. rewrite split_last_None by done. by rewrite Ascii.eqb_refl, strip_prefix_app.
  - simpl. by rewrite IH.
Qed.

Lemma has_char_uint c d :
  has_char c "0123456789" = false → has_char c (NilZero.string_of_uint d) = false.
Proof.
  intros H. simpl in H. repeat apply orb_false_iff in H as [? H].
  assert (E : has_char c (NilEmpty.string_of_uint d) = false).
  { induction d; simpl; rewrite ?IHd, ?orb_false_r; done. }
  destruct d; [simpl; by rewrite orb_false_r|exact E..].
Qed.

Lemma has_char_py_str c z : has_char c "-0123456789" = false → has_char c (py_str z) = false.
Proof.
  intros [Hm H]%orb_false_iff. unfold py_str, NilZero.string_of_int.
  destruct (Z.to_int z); simpl; rewrite ?Hm; by apply has_char_uint.
Qed.

Lemma parse_order_line_inv it : parse_order_line (order_line it) = Some it.
Proof.
  destruct it as [i q]. unfold parse_order_line, order_line. simpl item_id; simpl quantity.
  rewrite strip_prefix_app. 
  rewrite (split_last_app "," " Quantity: " i (py_str q)).
  - simpl. by rewrite py_int_str.
  - rewrite has_char_app. by rewrite has_char_py_str.
Qed.

Lemma order_line_not_header it : String.eqb (order_line it) order_header = false.
Proof. reflexivity. Qed.

Lemma orders_of_cons l ls :
  orders_of (l :: ls) =
    match orders_of ls with
    | None => None
    | Some (its, os) =>
        if String.eqb l order_header then Some ([], its :: os)
        else (λ it, (it :: its, os)) <$> parse_order_line l
    end.
Proof. done. Qed.

Lemma orders_of_items its ls :
  orders_of (map order_line its ++ ls)%list = (λ r, ((its ++ r.1)%list, r.2)) <$> orders_of ls.
Proof.
  induction its as [|it its IH]; cbn [map app orders_of].
  - by destruct (orders_of ls) as [[]|].
  - rewrite IH. destruct (orders_of ls) as [[x os]|]; [|done]. cbn [fmap option_fmap option_map].
    by rewrite order_line_not_header, parse_order_line_inv.
Qed.

Lemma order_line_no_nl it : has_char nl (item_id it) = false → has_char nl (order_line it) = false.
Proof.
  destruct it as [i q]. unfold order_line. simpl. intros Hi.
  rewrite !has_char_app, Hi. by rewrite has_char_py_str.
Qed.

Lemma v_order_item_dump lax it : v_order_item lax (dump_order_item it) = Valid it.
Proof. by destruct it. Qed.

Lemma v_order_request_sound lax j : sound (v_order_request lax j).
Proof.
  apply v_model_sound. intros d. apply fmap_sound, field_sound. intros x.
  apply v_list_sound. intros y. apply v_model_sound. intros d'. eauto 10 with blog.
Qed.

(** The catalog validates, and serialises back to itself. *)
Lemma menu_db_validates lax :
  ∃ l, v_list (v_menu_item lax) (JList menu_db) = Valid l ∧ dump_menu_item <$> l = menu_db.
Proof. eexists. split; [vm_compute; reflexivity|]. vm_compute. reflexivity. Qed.

(** The blocks [place_order] prints for a sequence of orders. *)
Definition order_block (its : list OrderItem) : list string := order_header :: map order_line its.

Lemma order_block_no_nl its :
  Forall (λ it, has_char nl (item_id it) = false) its →
  Forall (λ l, has_char nl l = false) (order_block its).
Proof.
  intros H. constructor; [done|]. apply Forall_fmap. eapply Forall_impl; [done|]. apply order_line_no_nl.
Qed.

(** An item id that ends one item line and starts another. *)
Definition forge_id (it : OrderItem) (i2 : string) : string :=
  item_id it +:+ ", Quantity: " +:+ py_str (quantity it) +:+ String nl ("  - Item ID: " +:+ i2).

Lemma order_line_forge it i2 q :
  order_line (mkOrderItem (forge_id it i2) q) = order_line it +:+ String nl (order_line (mkOrderItem i2 q)).
Proof. destruct it. unfold order_line, forge_id. simpl. rewrite !str_app_assoc. reflexivity. Qed.

Lemma stdout_app xs ys : stdout (xs ++ ys) = stdout xs +:+ stdout ys.
Proof. induction xs as [|x xs IH]; [done|]. simpl. by rewrite IH, str_app_assoc. Qed.

(** The line of a forged item is printed as two item lines. *)
Lemma stdout_forge xs it i2 q :
  stdout (xs ++ [order_line (mkOrderItem (forge_id it i2) q)]) =
  stdout (xs ++ [order_line it; order_line (mkOrderItem i2 q)]).
Proof. rewrite !stdout_app, order_line_forge. f_equal. simpl. by rewrite str_app_assoc. Qed.

Lemma orders_of_blocks os :
  orders_of (concat (order_block <$> os)) = Some ([], os).
Proof.
  induction os as [|its os IH]; [done|]. rewrite fmap_cons. cbn [concat]. unfold order_block at 1.
  rewrite <- app_comm_cons, orders_of_cons, orders_of_items, IH.
  cbn [fmap option_fmap option_map fst snd]. by rewrite String.eqb_refl, app_nil_r.
Qed.

(** ** Theorems *)

(** C25: Response validation against [List[MenuItem]] returns every
    serialised list of items unchanged, and the catalog is such a list:
    [menu_db] is the serialisation of ten items with distinct ids, prices
    at least 0 and ratings between 0 and 5. *)
Theorem menu_db_valid lax :
  (∀ l, v_list (v_menu_item lax) (JList (dump_menu_item <$> l)) = Valid l) ∧
  ∃ l, menu_db = dump_menu_item <$> l ∧ length l = 10%nat ∧ catalog_ok l = true.
Proof.
  split.
  - intros l. apply (proj2 (v_items_Valid _ _ _ _)).
    induction l as [|m l IH]; constructor; [by destruct m|done].
  - exists (match v_list (v_menu_item lax) (JList menu_db) with Valid l => l | Invalid _ => [] end).
    split_and!; vm_compute; reflexivity.
Qed.

(** C28: The body a client builds from an order validates to that order. *)
Theorem order_request_roundtrip lax o : v_order_request lax (dump_order_request o) = Valid o.
Proof.
  destruct o as [its]. unfold v_order_request, dump_order_request. simpl.
  apply fmap_Valid. exists its. split; [|done]. apply at_loc_Valid, v_items_Valid.
  induction its as [|it its IH]; constructor; [apply v_order_item_dump|done].
Qed.

(** C29: A body whose [items] is a list is valid exactly when every element
    is a valid [OrderItem]; otherwise its errors are those of the
    elements, in order, located at [items], then the index. *)
Theorem order_request_errors lax d l :
  dict_get "items" d = Some (JList l) →
  (∀ o, v_order_request lax (JDict d) = Valid o ↔ Forall2 (λ x it, v_order_item lax x = Valid it) l (items o)) ∧
  errors (v_order_request lax (JDict d)) =
    concat (imap (λ k x, relocate (LKey "items") ∘ relocate (LIdx k) <$> errors (v_order_item lax x)) l).
Proof.
  intros Hd. unfold v_order_request. simpl. unfold field. rewrite Hd. simpl. split.
  - intros [its]. rewrite fmap_Valid. setoid_rewrite at_loc_Valid. rewrite <- v_items_Valid.
    split; [by intros (? & -> & [= ->])|]. intros H. by exists its.
  - autorewrite with blog_rw. rewrite v_items_errors, fmap_concat_imap.
    f_equal. apply imap_ext. intros k x _. by rewrite list_fmap_compose.
Qed.

(** ** Witnesses and examples *)

(** Any [LaxStrings] does for the theorems; this one accepts canonical
    decimal integers only. *)
Definition lax_digits : LaxStrings := mkLaxStrings py_int (λ _, None) (λ _, None).

Lemma order_request_errors_witness :
  dict_get "items" [("items", JList [JNone])] = Some (JList [JNone]) ∧
  (∀ o, v_order_request lax_digits (JDict [("items", JList [JNone])]) = Valid o ↔
        Forall2 (λ x it, v_order_item lax_digits x = Valid it) [JNone] (items o)) ∧
  errors (v_order_request lax_digits (JDict [("items", JList [JNone])])) =
    concat (imap (λ k x, relocate (LKey "items") ∘ relocate (LIdx k) <$> errors (v_order_item lax_digits x))
                 [JNone]).
Proof. split; [reflexivity|]. apply order_request_errors. reflexivity. Defined.

(** Lax mode turns [true] into the quantity 1 and [2.0] into 2; [2.5]
    is refused. *)
Example quantity_coercions lax :
  v_order_item lax (JDict [("item_id", JStr "1"); ("quantity", JBool true)]) = Valid (mkOrderItem "1" 1) ∧
  v_order_item lax (JDict [("item_id", JStr "1"); ("quantity", JFloat 2.0)]) = Valid (mkOrderItem "1" 2) ∧
  v_order_item lax (JDict [("item_id", JStr "1"); ("quantity", JFloat 2.5)]) =
    Invalid [mkValError IntFromFloat [LKey "quantity"]].
Proof. split_and!; vm_compute; reflexivity. Qed.

End Menu.
