(* ===== verification/MenuApp.v ===== *)
(** * The menu service over HTTP (src/main.py, lines 9-22 and 87-109)

    [app] is the FastAPI application of lines 9-13 with the two routes of
    lines 87 and 94.  Starlette's router matches the path and the method.
    A known path with another method gets 405, and an unknown path 404.
    A path that matches only after adding or removing a trailing slash
    is redirected with 307.  FastAPI also serves its documentation pages,
    [/openapi.json], [/docs], [/docs/oauth2-redirect] and [/redoc] ([BDocs]);
    the document at [/openapi.json] is modelled in [OpenApi], the HTML
    pages are not.  The order body is validated
    against [OrderRequest] before [place_order] runs.  A missing or
    [null] body, or a body that fails validation, gets 422 with the
    errors under [detail], located under [body].  The return value of
    [get_menu] is validated against [List[MenuItem]]; a failure there
    would be a 500.  That 500 comes from Starlette's
    [ServerErrorMiddleware], which sits outside [CORSMiddleware], so the
    real answer would carry no CORS headers while the model adds them;
    [Menu.menu_db_valid] shows the branch is never taken.  A redirect's
    [location] is the path; Starlette writes the full URL.

    [cors] is Starlette's [CORSMiddleware] as lines 16-22 configure it:
    [allow_origins=["*"]], [allow_credentials=True], [allow_methods=["*"]]
    (Starlette's [ALL_METHODS]) and [allow_headers=["*"]].  With this
    configuration [preflight_explicit_allow_origin] is true.  A request
    without an [Origin] header goes through unchanged.  A preflight
    ([OPTIONS] with [Access-Control-Request-Method]) is answered by the
    middleware itself.  Any other response gets the CORS headers.

    The service's state is the catalog and the [print] calls made so far
    ([Service]).  [run] feeds it a sequence of requests.

    Request header names are lower case, as ASGI gives them.  Response
    headers are the ones the model sets; [content-length] is not
    modelled. *)

From S2P Require Import Prelude Json Menu.
From Stdlib Require Import Floats Ascii.
Import Json Menu.

Module MenuApp.

(** ** Requests and responses *)

Record HttpRequest := mkHttpRequest {
  method : string;
  path : string;
  headers : list (string * string);
  body : option json
}.

(** A response body: JSON, plain text, nothing, or a documentation
    page. *)
Inductive Body := BJson (j : json) | BText (t : string) | BEmpty | BDocs (page : string).

Record HttpResponse := mkHttpResponse {
  status : Z;
  resp_headers : list (string * string);
  content : Body
}.

(** [Headers.get]: the first value under a name. *)
Fixpoint header_get (k : string) (hs : list (string * string)) : option string :=
  match hs with
  | [] => None
  | (k', v) :: hs' => if String.eqb k k' then Some v else header_get k hs'
  end.

(** [MutableHeaders.__setitem__]: the first entry under the name takes
    the value and later ones are removed; a new name is appended. *)
Fixpoint header_set (k v : string) (hs : list (string * string)) : list (string * string) :=
  match hs with
  | [] => [(k, v)]
  | (k', v') :: hs' =>
      if String.eqb k k' then (k, v) :: filter (λ kv, kv.1 ≠ k) hs'
      else (k', v') :: header_set k v hs'
  end.

Definition json_response (code : Z) (j : json) : HttpResponse :=
  mkHttpResponse code [("content-type", "application/json")] (BJson j).

Definition text_response (code : Z) (t : string) : HttpResponse :=
  mkHttpResponse code [("content-type", "text/plain; charset=utf-8")] (BText t).

(** ** FastAPI *)

Definition error_type_name (t : ErrorType) : string :=
  match t with
  | Missing => "missing" | ModelAttributesType => "model_attributes_type" | ListType => "list_type"
  | StringType => "string_type" | IntType => "int_type" | IntParsing => "int_parsing"
  | IntFromFloat => "int_from_float" | IntParsingSize => "int_parsing_size"
  | FiniteNumber => "finite_number" | FloatType => "float_type"
  | FloatParsing => "float_parsing" | BoolType => "bool_type" | BoolParsing => "bool_parsing"
  end.

Definition loc_json (l : LocItem) : json :=
  match l with LKey k => JStr k | LIdx i => JInt (Z.of_nat i) end.

(** One entry of [detail]: its [type] and [loc] (the [msg] and [input]
    Pydantic adds are not modelled). *)
Definition error_json (e : ValError) : json :=
  JDict [("type", JStr (error_type_name (err_type e))); ("loc", JList (loc_json <$> loc e))].

(** FastAPI's handler for [RequestValidationError]. *)
Definition validation_error (es : list ValError) : HttpResponse :=
  json_response 422 (JDict [("detail", JList (error_json <$> es))]).

(** FastAPI's handler for [HTTPException], and a returned dict. *)
Definition order_response (r : OrderResponse) : HttpResponse :=
  match r with
  | Message m => json_response 200 (JDict [("message", JStr m)])
  | HTTPException code d => json_response code (JDict [("detail", JStr d)])
  end.

Record Service := mkService { catalog : list json; console : list string }.

Definition init_service : Service := mkService menu_db [].

Section Endpoints.
Context (lax : LaxStrings).

(** [GET /api/menu] with [response_model=List[MenuItem]]. *)
Definition serve_menu (s : Service) : HttpResponse :=
  match v_list (v_menu_item lax) (JList (get_menu (catalog s))) with
  | Valid l => json_response 200 (JList (dump_menu_item <$> l))
  | Invalid _ => text_response 500 "Internal Server Error"
  end.

(** [POST /api/order]: the body parameter [order: OrderRequest]. *)
Definition serve_order (s : Service) (b : option json) : Service * HttpResponse :=
  match b with
  | None | Some JNone => (s, validation_error [mkValError Missing [LKey "body"]])
  | Some j =>
      match v_order_request lax j with
      | Invalid es => (s, validation_error (relocate (LKey "body") <$> es))
      | Valid o =>
          let '(out, r) := place_order o in
          (mkService (catalog s) (console s ++ out)%list, order_response r)
      end
  end.

(** The routes: the two of the source and FastAPI's documentation
    pages, which Starlette also answers for [HEAD]. *)
Inductive Handler := GetMenu | PostOrder | Docs (page : string).

Definition routes : list (string * list string * Handler) := [
  ("/openapi.json", ["GET"; "HEAD"], Docs "/openapi.json");
  ("/docs", ["GET"; "HEAD"], Docs "/docs");
  ("/docs/oauth2-redirect", ["GET"; "HEAD"], Docs "/docs/oauth2-redirect");
  ("/redoc", ["GET"; "HEAD"], Docs "/redoc");
  ("/api/menu", ["GET"], GetMenu);
  ("/api/order", ["POST"], PostOrder)
].

(** [str.rstrip("/")]. *)
Fixpoint rstrip_slash (p : string) : string :=
  match p with
  | EmptyString => EmptyString
  | String c p' =>
      let r := rstrip_slash p' in
      if String.eqb r "" && Ascii.eqb c "/" then "" else String c r
  end.

(** [redirect_slashes]: the path without its trailing slashes, or with
    one added. *)
Definition toggle_slash (p : string) : string :=
  if String.eqb (rstrip_slash p) p then p +:+ "/" else rstrip_slash p.

Definition route_path (rt : string * list string * Handler) : string := rt.1.1.

Definition call_endpoint (s : Service) (r : HttpRequest) (e : Handler) : Service * HttpResponse :=
  match e with
  | GetMenu => (s, serve_menu s)
  | PostOrder => serve_order s (body r)
  | Docs p => (s, mkHttpResponse 200 [] (BDocs p))
  end.

(** Starlette's [Router]: a full match runs the endpoint; a path match
    with another method is 405 with [Allow]; then the slash redirect;
    then 404. *)
Definition app (s : Service) (r : HttpRequest) : Service * HttpResponse :=
  match list_find (λ rt, route_path rt = path r ∧ method r ∈ rt.1.2) routes with
  | Some (_, rt) => call_endpoint s r rt.2
  | None =>
    match list_find (λ rt, route_path rt = path r) routes with
    | Some (_, rt) =>
        (s, mkHttpResponse 405 [("allow", String.concat ", " rt.1.2); ("content-type", "application/json")]
                           (BJson (JDict [("detail", JStr "Method Not Allowed")])))
    | None =>
        if bool_decide (path r ≠ "/") && bool_decide (toggle_slash (path r) ∈ route_path <$> routes)
        then (s, mkHttpResponse 307 [("location", toggle_slash (path r))] BEmpty)
        else (s, json_response 404 (JDict [("detail", JStr "Not Found")]))
    end
  end.

End Endpoints.

(** ** CORS *)

(** Starlette's [ALL_METHODS], which [allow_methods=["*"]] becomes. *)
Definition all_methods : list string := ["DELETE"; "GET"; "HEAD"; "OPTIONS"; "PATCH"; "POST"; "PUT"].

(** [preflight_response]: every origin is allowed and, with
    [allow_credentials=True], mirrored; only the method can fail. *)
Definition preflight_response (r : HttpRequest) (origin req_method : string) : HttpResponse :=
  let hs := [("vary", "Origin"); ("access-control-allow-methods", String.concat ", " all_methods);
             ("access-control-max-age", py_str 600); ("access-control-allow-credentials", "true")] in
  let hs := header_set "access-control-allow-origin" origin hs in
  let hs := match header_get "access-control-request-headers" (headers r) with
            | Some rh => header_set "access-control-allow-headers" rh hs
            | None => hs
            end in
  let hs := (hs ++ [("content-type", "text/plain; charset=utf-8")])%list in
  if bool_decide (req_method ∈ all_methods) then mkHttpResponse 200 hs (BText "OK")
  else mkHttpResponse 400 hs (BText "Disallowed CORS method").

(** [CORSMiddleware.send]: the simple headers, and the request's own
    origin when it carries a cookie. *)
Definition cors_send (r : HttpRequest) (origin : string) (resp : HttpResponse) : HttpResponse :=
  let hs := header_set "access-control-allow-credentials" "true"
              (header_set "access-control-allow-origin" "*" (resp_headers resp)) in
  let hs := if bool_decide (is_Some (header_get "cookie" (headers r))) then
              let hs := header_set "access-control-allow-origin" origin hs in
              match header_get "vary" hs with
              | Some v => header_set "vary" (v +:+ ", Origin") hs
              | None => header_set "vary" "Origin" hs
              end
            else hs in
  mkHttpResponse (status resp) hs (content resp).

Section Middleware.
Context {St : Type} (inner : St → HttpRequest → St * HttpResponse).

(** [CORSMiddleware.__call__]. *)
Definition cors (s : St) (r : HttpRequest) : St * HttpResponse :=
  match header_get "origin" (headers r) with
  | None => inner s r
  | Some origin =>
      match String.eqb (method r) "OPTIONS", header_get "access-control-request-method" (headers r) with
      | true, Some m => (s, preflight_response r origin m)
      | _, _ => let '(s', resp) := inner s r in (s', cors_send r origin resp)
      end
  end.

(** The responses to a sequence of requests, in order. *)
Fixpoint run (s : St) (rs : list HttpRequest) : St * list HttpResponse :=
  match rs with
  | [] => (s, [])
  | r :: rs' =>
      let '(s1, a) := cors s r in
      let '(s2, as') := run s1 rs' in
      (s2, a :: as')
  end.

End Middleware.

(** ** Specification helpers *)

(** A request the middleware answers itself. *)
Definition preflight (r : HttpRequest) : bool :=
  bool_decide (is_Some (header_get "origin" (headers r))) && String.eqb (method r) "OPTIONS" &&
  bool_decide (is_Some (header_get "access-control-request-method" (headers r))).

(** The order a request places, if [place_order] accepts it. *)
Definition accepted (lax : LaxStrings) (r : HttpRequest) : option (list OrderItem) :=
  if bool_decide (method r = "POST" ∧ path r = "/api/order") then
    match body r with
    | Some j => match v_order_request lax j with
                | Valid o => match items o with [] => None | its => Some its end
                | Invalid _ => None
                end
    | None => None
    end
  else None.

(** A response lets a page of [origin] read it with credentials. *)
Definition readable_by (origin : string) (a : HttpResponse) : Prop :=
  header_get "access-control-allow-origin" (resp_headers a) = Some origin ∧
  header_get "access-control-allow-credentials" (resp_headers a) = Some "true".

(** ** Lemmas *)

Lemma cors_inner {St} (inner : St → HttpRequest → St * HttpResponse) s r :
  preflight r = false →
  ∃ f, cors inner s r = ((inner s r).1, f (inner s r).2) ∧
       ∀ a, status (f a) = status a ∧ content (f a) = content a.
Proof.
  unfold cors, preflight. intros Hp. destruct (inner s r) as [s' a] eqn:E.
  destruct (header_get "origin" (headers r)) as [o|]; simpl in Hp.
  - exists (cors_send r o). split; [|done].
    destruct (String.eqb (method r) "OPTIONS"), (header_get "access-control-request-method" _); simpl in *;
      rewrite ?E; done.
  - exists (λ a, a). done.
Qed.

Lemma cors_preflight {St} (inner : St → HttpRequest → St * HttpResponse) s r :
  preflight r = true → (cors inner s r).1 = s.
Proof.
  unfold cors, preflight. intros Hp. apply andb_prop in Hp as [Hp Ha]. apply andb_prop in Hp as [Ho Hm].
  apply bool_decide_eq_true in Ho as [o ->]. apply bool_decide_eq_true in Ha as [m Hm']. rewrite Hm, Hm'. done.
Qed.

Lemma header_get_set_eq k v hs : header_get k (header_set k v hs) = Some v.
Proof.
  induction hs as [|[k' v'] hs IH]; simpl; [by rewrite String.eqb_refl|].
  destruct (String.eqb k k') eqn:E; simpl; rewrite ?String.eqb_refl, ?E; done.
Qed.

Lemma header_get_filter k k' hs :
  k ≠ k' → header_get k (filter (λ kv : string * string, kv.1 ≠ k') hs) = header_get k hs.
Proof.
  intros Hne. induction hs as [|[k1 v1] hs IH]; [done|]. rewrite filter_cons. simpl.
  case_decide as Hk; simpl; rewrite IH; [done|].
  try apply dec_stable in Hk. subst. apply String.eqb_neq in Hne. by rewrite Hne.
Qed.

Lemma header_get_set_ne k k' v hs : k ≠ k' → header_get k (header_set k' v hs) = header_get k hs.
Proof.
  intros Hne. pose proof Hne as Hne'. apply String.eqb_neq in Hne'.
  induction hs as [|[k0 v0] hs IH]; simpl; [by rewrite Hne'|].
  destruct (String.eqb k' k0) eqn:E; simpl; [|by rewrite IH].
  apply String.eqb_eq in E as <-. rewrite Hne'. by apply header_get_filter.
Qed.

Lemma header_get_app k hs hs' v : header_get k hs = Some v → header_get k (hs ++ hs') = Some v.
Proof.
  induction hs as [|[k0 v0] hs IH]; simpl; [done|]. by destruct (String.eqb k k0).
Qed.

Lemma run_cons {St} (inner : St → HttpRequest → St * HttpResponse) s r rs :
  run inner s (r :: rs) =
    ((run inner (cors inner s r).1 rs).1, (cors inner s r).2 :: (run inner (cors inner s r).1 rs).2).
Proof. simpl. destruct (cors inner s r), (run inner _ rs). done. Qed.

Section AppLemmas.
Context (lax : LaxStrings).

Lemma app_post_order s r :
  method r = "POST" → path r = "/api/order" → app lax s r = serve_order lax s (body r).
Proof. intros Hm Hp. unfold app. rewrite Hm, Hp. reflexivity. Qed.

Lemma app_get_menu s r : method r = "GET" → path r = "/api/menu" → app lax s r = (s, serve_menu lax s).
Proof. intros Hm Hp. unfold app. rewrite Hm, Hp. reflexivity. Qed.

(** Only [POST /api/order] changes the state. *)
Lemma app_other s r : ¬ (method r = "POST" ∧ path r = "/api/order") → (app lax s r).1 = s.
Proof.
  intros Hn. unfold app. destruct (list_find _ routes) as [[i [[p ms] e]]|] eqn:E.
  - apply list_find_Some in E as (Hi & [Hp Hm] & _). simpl in *.
    destruct e; simpl; try done. apply list_elem_of_lookup_2 in Hi.
    rewrite list_elem_of_In in Hi. simpl in Hi. destruct_or!; simplify_eq.
    apply list_elem_of_singleton in Hm. naive_solver.
  - by repeat case_match.
Qed.

Lemma serve_order_catalog s b : catalog (serve_order lax s b).1 = catalog s.
Proof.
  unfold serve_order. destruct b as [j|]; [destruct j|]; try done;
    (destruct (v_order_request lax _); [by destruct (place_order _)|done]).
Qed.

Lemma app_catalog s r : catalog (app lax s r).1 = catalog s.
Proof.
  unfold app. destruct (list_find _ routes) as [[i [[p ms] []]]|]; simpl;
    [done|apply serve_order_catalog|done|by repeat case_match].
Qed.

Lemma cors_app_catalog s r : catalog (cors (app lax) s r).1 = catalog s.
Proof.
  destruct (preflight r) eqn:P; [by rewrite cors_preflight|].
  destruct (cors_inner (app lax) s r P) as (f & -> & _). apply app_catalog.
Qed.

Lemma serve_menu_db s : catalog s = menu_db → serve_menu lax s = json_response 200 (JList menu_db).
Proof.
  intros Hc. unfold serve_menu, get_menu. rewrite Hc.
  destruct (menu_db_validates lax) as (l & -> & <-). done.
Qed.

Lemma serve_order_console s b :
  console (serve_order lax s b).1 =
    (console s ++ match b with
                  | Some j => match v_order_request lax j with
                              | Valid o => (place_order o).1
                              | Invalid _ => []
                              end
                  | None => []
                  end)%list.
Proof.
  unfold serve_order. destruct b as [j|]; [|by rewrite app_nil_r].
  destruct j; try (destruct (v_order_request lax _); [by destruct (place_order _)|by rewrite app_nil_r]).
  simpl. by rewrite app_nil_r.
Qed.

Lemma step_console s r :
  console (cors (app lax) s r).1 = (console s ++ from_option order_block [] (accepted lax r))%list.
Proof.
  unfold accepted. destruct (preflight r) eqn:P.
  - rewrite cors_preflight by done. unfold preflight in P.
    apply andb_prop in P as [[_ Hm]%andb_prop _]. apply String.eqb_eq in Hm.
    rewrite bool_decide_eq_false_2 by (intros [Hm' _]; congruence). by rewrite app_nil_r.
  - destruct (cors_inner (app lax) s r P) as (f & -> & _). cbn [fst]. case_bool_decide as Hr.
    + destruct Hr as [Hm Hp]. rewrite app_post_order, serve_order_console by done.
      destruct (body r) as [j|]; [|done]. destruct (v_order_request lax j) as [o|]; [|done].
      unfold place_order. by destruct (items o).
    + rewrite app_other by done. by rewrite app_nil_r.
Qed.

Lemma run_console s rs :
  console (run (app lax) s rs).1 = (console s ++ concat (order_block <$> omap (accepted lax) rs))%list.
Proof.
  revert s. induction rs as [|r rs IH]; intros s; [simpl; by rewrite app_nil_r|].
  rewrite run_cons. cbn [fst]. rewrite IH, step_console, <- app_assoc.
  f_equal. simpl. by destruct (accepted lax r).
Qed.

Lemma serve_order_valid s j o :
  v_order_request lax j = Valid o →
  serve_order lax s (Some j) =
    (mkService (catalog s) (console s ++ (place_order o).1)%list, order_response (place_order o).2).
Proof. intros Hv. destruct j; [discriminate|..]; unfold serve_order; rewrite Hv; by destruct (place_order o). Qed.

End AppLemmas.

(** ** Theorems *)

(** C26: Through the middleware and in any interleaving with orders, the
    catalog never changes and every [GET /api/menu] answers 200 with the
    dicts of [menu_db], as written in the source. *)
Theorem run_menu_constant lax s rs :
  catalog s = menu_db →
  catalog (run (app lax) s rs).1 = menu_db ∧
  Forall2 (λ r a, method r = "GET" → path r = "/api/menu" →
                  status a = 200%Z ∧ content a = BJson (JList menu_db))
          rs (run (app lax) s rs).2.
Proof.
  revert s. induction rs as [|r rs IH]; intros s Hs; [by split|].
  rewrite run_cons. destruct (IH (cors (app lax) s r).1) as [Hc Hf]; [by rewrite cors_app_catalog|].
  split; [done|]. constructor; [|done]. intros Hm Hp.
  assert (P : preflight r = false)
    by (unfold preflight; rewrite Hm; by destruct (bool_decide _), (bool_decide _)).
  destruct (cors_inner (app lax) s r P) as (f & -> & Hf'). cbn [snd].
  rewrite (proj1 (Hf' _)), (proj2 (Hf' _)), app_get_menu, serve_menu_db by done. done.
Qed.

(** C27: A [POST /api/order] whose body validates is answered by
    [place_order] alone.  An order with no items is refused with 400
    "Order cannot be empty." and the service is unchanged.  Any other
    order is accepted, whatever its item ids and quantities: the header
    and one line per item are printed, and the answer is 200 with the
    success message. *)
Theorem place_order_outcome lax s r j o :
  method r = "POST" → path r = "/api/order" → body r = Some j → v_order_request lax j = Valid o →
  app lax s r =
    match items o with
    | [] => (s, json_response 400 (JDict [("detail", JStr "Order cannot be empty.")]))
    | _ :: _ => (mkService (catalog s) (console s ++ order_block (items o))%list,
                 json_response 200 (JDict [("message", JStr "Order received successfully!")]))
    end.
Proof.
  intros Hm Hp Hb Hv. rewrite app_post_order, Hb, (serve_order_valid lax s j o Hv) by done.
  unfold place_order. destruct (items o); [|done]. simpl. rewrite app_nil_r. by destruct s.
Qed.

(** C30: A [POST /api/order] whose body is missing or does not validate
    changes nothing and gets 422, with at least one error, each located
    under [body]. *)
Theorem order_rejected lax s r :
  method r = "POST" → path r = "/api/order" →
  (∀ j o, body r = Some j → v_order_request lax j ≠ Valid o) →
  ∃ es, app lax s r = (s, validation_error es) ∧ es ≠ [] ∧
        Forall (λ e, head (loc e) = Some (LKey "body")) es.
Proof.
  intros Hm Hp Hn. rewrite app_post_order by done. unfold serve_order.
  destruct (body r) as [j|] eqn:Hb; [|eexists; split_and!; [done|done|by repeat constructor]].
  specialize (Hn j). pose proof (v_order_request_sound lax j) as Hs.
  destruct j; [eexists; split_and!; [done|done|by repeat constructor]|..];
    (destruct (v_order_request lax _) as [o|es]; [by destruct (Hn o eq_refl)|]);
    (exists (relocate (LKey "body") <$> es); split_and!;
      [done | by intros ?%fmap_nil_inv | apply Forall_fmap, Forall_forall; done]).
Qed.

(** C33: The console output of any sequence of requests reads back as
    exactly the orders [place_order] accepted, in order, provided no
    accepted item id contains a newline. *)
Theorem console_log_roundtrip lax rs :
  Forall (Forall (λ it, has_char nl (item_id it) = false)) (omap (accepted lax) rs) →
  parse_console (stdout (console (run (app lax) init_service rs).1)) = Some (omap (accepted lax) rs).
Proof.
  intros H. rewrite run_console. unfold parse_console. simpl (console init_service).
  rewrite app_nil_l, lines_stdout, orders_of_blocks; [done|].
  apply List.Forall_concat, Forall_fmap. eapply Forall_impl; [done|]. apply order_block_no_nl.
Qed.

(** C35: The middleware changes only headers: a request it does not
    answer itself reaches the application, whose state change, status
    and body are kept; a preflight leaves the state unchanged. *)
Theorem cors_transparent {St} (inner : St → HttpRequest → St * HttpResponse) s r :
  (preflight r = false →
     (cors inner s r).1 = (inner s r).1 ∧ status (cors inner s r).2 = status (inner s r).2 ∧
     content (cors inner s r).2 = content (inner s r).2) ∧
  (preflight r = true → (cors inner s r).1 = s).
Proof.
  split; [|apply cors_preflight]. intros P.
  destruct (cors_inner inner s r P) as (f & -> & Hf). apply (conj eq_refl), Hf.
Qed.

(** C36: Every origin may send credentialed requests and read the
    answers: a preflight from any origin for any method is accepted with
    that origin and [Allow-Credentials: true], and a response to a
    request with a cookie carries the same two headers. *)
Theorem cors_credentials_any_origin {St} (inner : St → HttpRequest → St * HttpResponse) s r origin :
  header_get "origin" (headers r) = Some origin →
  (∀ m, method r = "OPTIONS" → header_get "access-control-request-method" (headers r) = Some m →
        m ∈ all_methods → status (cors inner s r).2 = 200%Z ∧ readable_by origin (cors inner s r).2) ∧
  (preflight r = false → is_Some (header_get "cookie" (headers r)) → readable_by origin (cors inner s r).2).
Proof.
  intros Ho. split.
  - intros m Hm Ha Hin. unfold cors. rewrite Ho, Hm, Ha. simpl. unfold preflight_response.
    rewrite bool_decide_eq_true_2 by done. simpl. split; [done|].
    destruct (header_get "access-control-request-headers" (headers r)); split;
      apply header_get_app; rewrite ?header_get_set_ne by done; done.
  - intros P Hc. destruct (cors_inner inner s r P) as (f & Hcors & _).
    unfold cors in Hcors |- *. rewrite Ho in Hcors |- *. unfold preflight in P. rewrite Ho in P.
    destruct (String.eqb (method r) "OPTIONS"), (header_get "access-control-request-method" _);
      simpl in P; try discriminate; destruct (inner s r) as [s' a]; unfold cors_send; simpl;
      rewrite bool_decide_eq_true_2 by done;
      (unfold readable_by; destruct (header_get "vary" _); simpl; split;
        rewrite ?header_get_set_ne by done; apply header_get_set_eq).
Qed.

(** ** Witnesses and examples *)

Definition order_req (j : json) : HttpRequest := mkHttpRequest "POST" "/api/order" [] (Some j).
Definition menu_req : HttpRequest := mkHttpRequest "GET" "/api/menu" [] None.

Definition one_item (id : string) (q : Z) : json :=
  dump_order_request (mkOrderRequest [mkOrderItem id q]).

Lemma run_menu_constant_witness :
  catalog init_service = menu_db ∧
  catalog (run (app lax_digits) init_service [menu_req; order_req (one_item "1" 2); menu_req]).1 = menu_db ∧
  Forall2 (λ r a, method r = "GET" → path r = "/api/menu" →
                  status a = 200%Z ∧ content a = BJson (JList menu_db))
          [menu_req; order_req (one_item "1" 2); menu_req]
          (run (app lax_digits) init_service [menu_req; order_req (one_item "1" 2); menu_req]).2.
Proof. split; [reflexivity|]. apply run_menu_constant. reflexivity. Defined.

(** The empty order, and an item id the catalog does not have with a
    negative quantity. *)
Lemma place_order_outcome_witness :
  v_order_request lax_digits (JDict [("items", JList [])]) = Valid (mkOrderRequest []) ∧
  app lax_digits init_service (order_req (JDict [("items", JList [])])) =
    (init_service, json_response 400 (JDict [("detail", JStr "Order cannot be empty.")])) ∧
  v_order_request lax_digits (one_item "99" (-3)) = Valid (mkOrderRequest [mkOrderItem "99" (-3)]) ∧
  app lax_digits init_service (order_req (one_item "99" (-3))) =
    (mkService menu_db ["Received new order:"; "  - Item ID: 99, Quantity: -3"],
     json_response 200 (JDict [("message", JStr "Order received successfully!")])).
Proof.
  split_and!; [reflexivity| |reflexivity|].
  - apply (place_order_outcome _ _ _ (JDict [("items", JList [])]) (mkOrderRequest [])); reflexivity.
  - etransitivity.
    + apply (place_order_outcome lax_digits init_service (order_req (one_item "99" (-3)))
               (one_item "99" (-3)) (mkOrderRequest [mkOrderItem "99" (-3)])); reflexivity.
    + vm_compute. reflexivity.
Defined.

(** A number as item id and a word as quantity. *)
Definition bad_order : json := JDict [("items", JList [JDict [("item_id", JInt 1); ("quantity", JStr "two")]])].

Lemma order_rejected_witness :
  ∃ es, app lax_digits init_service (order_req bad_order) = (init_service, validation_error es) ∧
        es ≠ [] ∧ Forall (λ e, head (loc e) = Some (LKey "body")) es.
Proof.
  apply order_rejected; [reflexivity|reflexivity|]. intros j o [= <-]. vm_compute. discriminate.
Defined.

Lemma console_log_roundtrip_witness :
  Forall (Forall (λ it, has_char nl (item_id it) = false))
         (omap (accepted lax_digits) [order_req (one_item "1" 2); menu_req; order_req (one_item "8" 1)]) ∧
  parse_console (stdout (console (run (app lax_digits) init_service
                                    [order_req (one_item "1" 2); menu_req; order_req (one_item "8" 1)]).1)) =
    Some (omap (accepted lax_digits) [order_req (one_item "1" 2); menu_req; order_req (one_item "8" 1)]).
Proof.
  assert (H : Forall (Forall (λ it, has_char nl (item_id it) = false))
         (omap (accepted lax_digits) [order_req (one_item "1" 2); menu_req; order_req (one_item "8" 1)]))
    by (apply (bool_decide_unpack _); vm_compute; reflexivity).
  split; [exact H|]. apply console_log_roundtrip, H.
Defined.

(** C34: An item id may hold a newline, and then the console log lies:
    after any run, one accepted order of one item whose id is
    [forge_id it i2] is read back from the console as an order of the
    two items [it] and [(i2, q)]. *)
Theorem console_log_forged lax rs it i2 q :
  Forall (Forall (λ it, has_char nl (item_id it) = false)) (omap (accepted lax) rs) →
  has_char nl (item_id it) = false → has_char nl i2 = false →
  parse_console (stdout (console (run (app lax) init_service
                                    (rs ++ [order_req (one_item (forge_id it i2) q)])%list).1)) =
    Some (omap (accepted lax) rs ++ [[it; mkOrderItem i2 q]])%list.
Proof.
  intros H Hi Hi2. rewrite run_console. unfold parse_console. simpl (console init_service).
  rewrite app_nil_l, omap_app.
  change (omap (accepted lax) [order_req (one_item (forge_id it i2) q)])
    with [[mkOrderItem (forge_id it i2) q]].
  rewrite fmap_app, concat_app.
  change (concat (order_block <$> [[mkOrderItem (forge_id it i2) q]]))
    with ([order_header] ++ [order_line (mkOrderItem (forge_id it i2) q)])%list.
  rewrite app_assoc, stdout_forge, <- app_assoc.
  change ([order_header] ++ [order_line it; order_line (mkOrderItem i2 q)])%list
    with (concat (order_block <$> [[it; mkOrderItem i2 q]])).
  rewrite <- concat_app, <- fmap_app, lines_stdout, orders_of_blocks; [done|].
  apply List.Forall_concat, Forall_fmap. eapply Forall_impl; [|apply order_block_no_nl].
  apply Forall_app. split; [done|]. repeat constructor; done.
Qed.

Lemma console_log_forged_witness :
  has_char nl (item_id (mkOrderItem "7" 1)) = false ∧ has_char nl "8" = false ∧
  parse_console (stdout (console (run (app lax_digits) init_service
                    [order_req (one_item (forge_id (mkOrderItem "7" 1) "8") 2)]).1)) =
    Some [[mkOrderItem "7" 1; mkOrderItem "8" 2]].
Proof.
  split; [reflexivity|]. split; [reflexivity|].
  exact (console_log_forged lax_digits [] (mkOrderItem "7" 1) "8" 2 (List.Forall_nil _) eq_refl eq_refl).
Defined.

Definition evil_preflight : HttpRequest :=
  mkHttpRequest "OPTIONS" "/api/order"
    [("origin", "https://evil.example"); ("access-control-request-method", "POST")] None.

Lemma cors_credentials_any_origin_witness :
  header_get "origin" (headers evil_preflight) = Some "https://evil.example" ∧
  ((∀ m, method evil_preflight = "OPTIONS" →
         header_get "access-control-request-method" (headers evil_preflight) = Some m →
         m ∈ all_methods →
         status (cors (app lax_digits) init_service evil_preflight).2 = 200%Z ∧
         readable_by "https://evil.example" (cors (app lax_digits) init_service evil_preflight).2) ∧
   (preflight evil_preflight = false → is_Some (header_get "cookie" (headers evil_preflight)) →
    readable_by "https://evil.example" (cors (app lax_digits) init_service evil_preflight).2)).
Proof. split; [reflexivity|]. apply cors_credentials_any_origin. reflexivity. Defined.

End MenuApp.
