(* ===== verification/OpenApi.v ===== *)
(** * The OpenAPI document of the menu service

    FastAPI publishes at [/openapi.json] a document it generates from the
    application.  The [info] comes from [FastAPI(title=..., description=...,
    version=...)] (src/main.py, lines 9-13).  [paths] has one operation
    per method of each [APIRoute] (lines 87 and 94).  [components.schemas]
    has the JSON schemas Pydantic derives from the model classes
    (lines 70-85).  FastAPI's documentation routes are plain Starlette
    routes and do not appear.

    This file models that document ([openapi]) from the route table of
    [MenuApp.routes] and the field annotations of the model classes.
    - An operation has its summary ([route.name.replace("_", " ").title()]),
      the endpoint's docstring as its description, and its [operationId]
      ([generate_unique_id]).  It has a [requestBody] when the endpoint
      takes a body model, the 200 response with the [response_model]'s
      schema (an empty schema without one), and a 422 response when it
      takes a body.
    - A model's schema lists its fields, each with its type and a title
      ([name.title().replace("_", " ")]); every field is required
      because none has a default.

    Two parts of the document depend on the FastAPI release, which the
    repository does not pin: the [openapi] version string and the
    schemas of FastAPI's own error models ([HTTPValidationError] and
    [ValidationError]).  They are the parameter [FastApiRelease]; every
    theorem holds for all of them.

    The meaning of a schema is given by [conforms], a checker for the
    JSON Schema keywords the document uses ([$ref], [type],
    [properties], [required], [items]).  JSON Schema counts an integral
    float as an ["integer"].  [conforms] takes fuel for [$ref]: the
    document's schemas are not recursive, and [schema_fuel] (6) is the
    depth of the deepest one. *)

From S2P Require Import Prelude Json Like Menu MenuApp.
From Stdlib Require Import Floats Ascii.
Import Json Menu MenuApp.

Module OpenApi.

(** ** Python's string functions *)

Definition is_alpha (c : ascii) : bool :=
  let n := nat_of_ascii c in
  ((65 <=? n) && (n <=? 90) || (97 <=? n) && (n <=? 122))%nat.

Definition ascii_upper (c : ascii) : ascii :=
  let n := nat_of_ascii c in
  if (97 <=? n)%nat && (n <=? 122)%nat then ascii_of_nat (n - 32) else c.

(** [str.title()]: a letter after a letter is lower case, any other
    letter upper case; [prev] is whether the last character was a
    letter. *)
Fixpoint title_from (prev : bool) (s : string) : string :=
  match s with
  | EmptyString => EmptyString
  | String c s' =>
      let c' := if is_alpha c then (if prev then Like.ascii_lower c else ascii_upper c) else c in
      String c' (title_from (is_alpha c) s')
  end.

Definition py_title (s : string) : string := title_from false s.

(** [str.replace(a, b)] for single characters. *)
Fixpoint replace_char (a b : ascii) (s : string) : string :=
  match s with
  | EmptyString => EmptyString
  | String c s' => String (if Ascii.eqb c a then b else c) (replace_char a b s')
  end.

Definition is_word (c : ascii) : bool :=
  is_alpha c || (let n := nat_of_ascii c in (48 <=? n) && (n <=? 57))%nat || Ascii.eqb c "_".

(** [re.sub(r"\W", "_", s)] on ASCII text. *)
Fixpoint sub_nonword (s : string) : string :=
  match s with
  | EmptyString => EmptyString
  | String c s' => String (if is_word c then c else "_"%char) (sub_nonword s')
  end.

(** ** The routes FastAPI documents *)

(** The parts of an [APIRoute] the document reads: the endpoint's
    [__name__] and docstring, its body model and its [response_model]. *)
Record ApiEndpoint := mkApiEndpoint {
  ep_name : string;
  ep_doc : string;
  ep_body : option string;
  ep_response : option string
}.

(** [@app.get("/api/menu", response_model=List[MenuItem])] over
    [get_menu], and [@app.post("/api/order")] over [place_order]. *)
Definition api_endpoint (h : Handler) : option ApiEndpoint :=
  match h with
  | GetMenu => Some (mkApiEndpoint "get_menu" "Returns the list of all menu items." None (Some "MenuItem"))
  | PostOrder => Some (mkApiEndpoint "place_order" "Receives and processes a new order." (Some "OrderRequest") None)
  | Docs _ => None
  end.

(** [generate_unique_id]: the name and path with non-word characters
    replaced, then the method. *)
Definition unique_id (ep : ApiEndpoint) (path method : string) : string :=
  sub_nonword (ep_name ep +:+ path) +:+ "_" +:+ Like.fold_case method.

Definition summary (ep : ApiEndpoint) : string := py_title (replace_char "_" " " (ep_name ep)).

(** ** Schemas *)

(** The annotations of the model fields. *)
Inductive Ann := AStr | AInt | AFloat | ABool | AListOf (model : string).

Record ModelClass := mkModelClass { cls_name : string; cls_fields : list (string * Ann) }.

Definition menu_item_class : ModelClass :=
  mkModelClass "MenuItem"
    [("id", AStr); ("name", AStr); ("description", AStr); ("price", AFloat);
     ("category", AStr); ("rating", AFloat); ("isFeatured", ABool); ("imageUrl", AStr)].

Definition order_item_class : ModelClass :=
  mkModelClass "OrderItem" [("item_id", AStr); ("quantity", AInt)].

Definition order_request_class : ModelClass :=
  mkModelClass "OrderRequest" [("items", AListOf "OrderItem")].

(** Pydantic's default title of a field. *)
Definition field_title (n : string) : string := replace_char "_" " " (py_title n).

Definition schema_ref (model : string) : json :=
  JDict [("$ref", JStr ("#/components/schemas/" +:+ model))].

Definition ann_schema (title : string) (a : Ann) : json :=
  match a with
  | AStr => JDict [("title", JStr title); ("type", JStr "string")]
  | AInt => JDict [("title", JStr title); ("type", JStr "integer")]
  | AFloat => JDict [("title", JStr title); ("type", JStr "number")]
  | ABool => JDict [("title", JStr title); ("type", JStr "boolean")]
  | AListOf m => JDict [("items", schema_ref m); ("title", JStr title); ("type", JStr "array")]
  end.

Definition model_schema (c : ModelClass) : json :=
  JDict [("properties", JDict ((λ '(n, a), (n, ann_schema (field_title n) a)) <$> cls_fields c));
         ("required", JList ((λ '(n, _), JStr n) <$> cls_fields c));
         ("title", JStr (cls_name c)); ("type", JStr "object")].

(** ** The document *)

(** What depends on the FastAPI release. *)
Record FastApiRelease := mkFastApiRelease {
  openapi_version : string;
  http_validation_error_schema : json;
  validation_error_schema : json
}.

Definition json_content (sch : json) : json :=
  JDict [("application/json", JDict [("schema", sch)])].

(** [get_openapi_path] for one method of a route. *)
Definition operation (ep : ApiEndpoint) (path method : string) : json :=
  let uid := unique_id ep path method in
  let ok_schema :=
    match ep_response ep with
    | Some m => JDict [("items", schema_ref m); ("type", JStr "array");
                       ("title", JStr (field_title ("Response_" +:+ uid)))]
    | None => JDict []
    end in
  let responses :=
    [("200", JDict [("description", JStr "Successful Response"); ("content", json_content ok_schema)])] in
  let responses :=
    match ep_body ep with
    | Some _ => (responses ++ [("422", JDict [("description", JStr "Validation Error");
                  ("content", json_content (schema_ref "HTTPValidationError"))])])%list
    | None => responses
    end in
  JDict ([("summary", JStr (summary ep)); ("description", JStr (ep_doc ep)); ("operationId", JStr uid)] ++
         match ep_body ep with
         | Some m => [("requestBody", JDict [("content", json_content (schema_ref m)); ("required", JBool true)])]
         | None => []
         end ++ [("responses", JDict responses)])%list.

(** The path items of the [APIRoute]s, in route order. *)
Definition paths (rs : list (string * list string * Handler)) : list (string * json) :=
  omap (λ rt : string * list string * Handler,
          ep ← api_endpoint rt.2;
          Some (rt.1.1, JDict ((λ m, (Like.fold_case m, operation ep rt.1.1 m)) <$> rt.1.2))) rs.

Definition app_title : string := "TasteTrip API".
Definition app_description : string := "Backend for the TasteTrip food delivery service.".
Definition app_version : string := "1.0.0".

(** The component schemas, sorted by name. *)
Definition schemas (rel : FastApiRelease) : list (string * json) :=
  [("HTTPValidationError", http_validation_error_schema rel);
   ("MenuItem", model_schema menu_item_class);
   ("OrderItem", model_schema order_item_class);
   ("OrderRequest", model_schema order_request_class);
   ("ValidationError", validation_error_schema rel)].

(** [app.openapi()]. *)
Definition openapi (rel : FastApiRelease) : json :=
  JDict [("openapi", JStr (openapi_version rel));
         ("info", JDict [("title", JStr app_title); ("description", JStr app_description);
                         ("version", JStr app_version)]);
         ("paths", JDict (paths routes));
         ("components", JDict [("schemas", JDict (schemas rel))])].

(** Reading the document: [doc["paths"][path][method]...]. *)
Definition jget (k : string) (j : json) : option json :=
  match j with JDict d => dict_get k d | _ => None end.

(** [j[k1][k2]...]. *)
Definition jpath (ks : list string) (j : json) : option json :=
  foldl (λ acc k, acc ≫= jget k) (Some j) ks.

Definition request_body_schema (doc : json) (path method : string) : option json :=
  jpath ["paths"; path; method; "requestBody"; "content"; "application/json"; "schema"] doc.

Definition response_schema (doc : json) (path method code : string) : option json :=
  jpath ["paths"; path; method; "responses"; code; "content"; "application/json"; "schema"] doc.

Definition doc_schemas (doc : json) : list (string * json) :=
  match jpath ["components"; "schemas"] doc with Some (JDict d) => d | _ => [] end.

(** ** What a schema accepts *)

(** [float.is_integer()]. *)
Definition float_is_integer (f : float) : bool :=
  match Prim2SF f with
  | S754_zero _ => true
  | S754_finite _ m e => (0 <=? e)%Z || (Z.pos m mod 2 ^ (- e) =? 0)%Z
  | _ => false
  end.

(** The JSON Schema [type] keyword on the values [json.loads] gives: a
    bool is no number, and an integral float is an integer. *)
Definition has_type (t : string) (j : json) : bool :=
  match j with
  | JNone => String.eqb t "null"
  | JBool _ => String.eqb t "boolean"
  | JInt _ => String.eqb t "integer" || String.eqb t "number"
  | JFloat f => String.eqb t "number" || String.eqb t "integer" && float_is_integer f
  | JStr _ => String.eqb t "string"
  | JList _ => String.eqb t "array"
  | JDict _ => String.eqb t "object"
  end.

(** The schema a local [$ref] names. *)
Definition resolve (defs : list (string * json)) (r : string) : option json :=
  n ← strip_prefix "#/components/schemas/" r; dict_get n defs.

Fixpoint conforms (defs : list (string * json)) (fuel : nat) (sch j : json) : bool :=
  match fuel with
  | 0 => false
  | S f =>
      match sch with
      | JDict kw =>
          match dict_get "$ref" kw with
          | Some (JStr r) => match resolve defs r with Some s => conforms defs f s j | None => false end
          | _ =>
              match dict_get "type" kw with Some (JStr t) => has_type t j | _ => true end &&
              match dict_get "properties" kw, j with
              | Some (JDict ps), JDict d =>
                  forallb (λ ks : string * json,
                             match dict_get ks.1 d with Some v => conforms defs f ks.2 v | None => true end) ps
              | _, _ => true
              end &&
              match dict_get "required" kw, j with
              | Some (JList rs), JDict d =>
                  forallb (λ r, match r with JStr k => bool_decide (is_Some (dict_get k d)) | _ => true end) rs
              | _, _ => true
              end &&
              match dict_get "items" kw, j with
              | Some s, JList l => forallb (conforms defs f s) l
              | _, _ => true
              end
          end
      | JBool b => b
      | _ => true
      end
  end.

Definition schema_fuel : nat := 6.

(** ** Lemmas on schemas *)

Lemma forallb_Forall {A} (p : A → bool) l : forallb p l = true ↔ Forall (λ x, p x = true) l.
Proof.
  induction l as [|x l IH]; simpl; [split; [constructor|done]|].
  rewrite andb_true_iff, Forall_cons. naive_solver.
Qed.

Section SchemaLemmas.
Context (defs : list (string * json)).

Lemma conforms_ref f m j :
  conforms defs (S f) (schema_ref m) j =
    match dict_get m defs with Some s => conforms defs f s j | None => false end.
Proof. unfold schema_ref. simpl. unfold resolve. by rewrite strip_prefix_app. Qed.

Lemma conforms_scalar f t a j :
  a ≠ AListOf "" → (∀ m, a ≠ AListOf m) →
  conforms defs (S f) (ann_schema t a) j =
    has_type (match a with AStr => "string" | AInt => "integer" | AFloat => "number" | _ => "boolean" end) j.
Proof. intros _ Ha. destruct a; [..|by destruct (Ha model)]; simpl; destruct j; by rewrite ?andb_true_r. Qed.

Lemma conforms_list f t m j :
  conforms defs (S f) (ann_schema t (AListOf m)) j = true ↔
  ∃ l, j = JList l ∧ Forall (λ x, conforms defs f (schema_ref m) x = true) l.
Proof.
  simpl. destruct j; simpl; rewrite ?andb_true_r; split; try done; try naive_solver.
  - intros H. eexists; split; [done|]. by apply forallb_Forall.
  - intros (l' & [= <-] & Hl). by apply forallb_Forall.
Qed.

Lemma conforms_array f x t l :
  conforms defs (S f) (JDict [("items", x); ("type", JStr "array"); ("title", t)]) (JList l) =
    forallb (conforms defs f x) l.
Proof. reflexivity. Qed.

Lemma conforms_fields f (fs : list (string * Ann)) d :
  forallb (λ ks : string * json, match dict_get ks.1 d with Some v => conforms defs f ks.2 v | None => true end)
    ((λ '(n, a), (n, ann_schema (field_title n) a)) <$> fs) &&
  forallb (λ r, match r with JStr k => bool_decide (is_Some (dict_get k d)) | _ => true end)
    ((λ '(n, _), JStr n) <$> fs) = true ↔
  Forall (λ na : string * Ann, ∃ v, dict_get na.1 d = Some v ∧
            conforms defs f (ann_schema (field_title na.1) na.2) v = true) fs.
Proof.
  induction fs as [|[n a] fs IH]; simpl; [split; [constructor|done]|].
  rewrite Forall_cons, <-IH. destruct (dict_get n d) as [v|] eqn:Hn; simpl; rewrite ?andb_true_iff.
  - split; [intros [[Ha Hb] Hc]; eauto|].
    intros [(v' & Hv' & Ha) [Hb Hc]]. simplify_eq. auto.
  - split; [by intros [_ ?]|]. intros [(v' & Hv' & _) _]. congruence.
Qed.

Lemma conforms_model f c j :
  conforms defs (S f) (model_schema c) j = true ↔
  ∃ d, j = JDict d ∧
    Forall (λ na : string * Ann, ∃ v, dict_get na.1 d = Some v ∧
              conforms defs f (ann_schema (field_title na.1) na.2) v = true) (cls_fields c).
Proof.
  simpl. destruct j as [| | | | | |d]; simpl; try naive_solver.
  rewrite andb_true_r, conforms_fields. split; [eauto|]. by intros (d' & [= <-] & ?).
Qed.

End SchemaLemmas.

(** ** Validation errors a conforming body can still get *)

(** Every error is an [int_parsing_size]. *)
Definition only_size {A} (v : validated A) : Prop :=
  Forall (λ e, err_type e = IntParsingSize) (errors v).

Lemma only_size_vap {A B} (vf : validated (A → B)) va : only_size vf → only_size va → only_size (vf <*> va).
Proof. unfold only_size. rewrite errors_vap. apply Forall_app_2. Qed.

Lemma only_size_fmap {A B} (f : A → B) va : only_size va → only_size (f <$> va).
Proof. unfold only_size. by rewrite errors_fmap. Qed.

Lemma only_size_at_loc {A} l (va : validated A) : only_size va → only_size (at_loc l va).
Proof. unfold only_size. rewrite errors_at_loc, Forall_fmap. intros H. by eapply Forall_impl; [exact H|]. Qed.

Lemma only_size_v_items {A} (v : json → validated A) i l :
  Forall (λ x, only_size (v x)) l → only_size (v_items v i l).
Proof.
  revert i; induction l as [|x l IH]; intros i Hl; [constructor|]. inversion Hl; subst. simpl.
  apply only_size_vap; [apply only_size_fmap, only_size_at_loc|]; auto.
Qed.

Lemma float_as_int_integral f : float_is_integer f = true → only_size (float_as_int f).
Proof.
  unfold float_is_integer, float_as_int, only_size, fail1.
  destruct (Prim2SF f) as [s|s| |s m e]; intros He; try done.
  destruct (0 <=? e)%Z; simpl in He.
  - case_match; repeat constructor.
  - rewrite He. case_match; repeat constructor.
Qed.

Lemma v_int_integer lax j : has_type "integer" j = true → only_size (v_int lax j).
Proof.
  destruct j; simpl; try done; [constructor|]. apply float_as_int_integral.
Qed.

Section Sound.
Context (rel : FastApiRelease) (lax : LaxStrings).

Lemma order_item_sound f x :
  conforms (schemas rel) (S (S f)) (schema_ref "OrderItem") x = true → only_size (v_order_item lax x).
Proof.
  rewrite conforms_ref. change (dict_get _ _) with (Some (model_schema order_item_class)).
  intros (d & -> & Hfs)%conforms_model.
  inversion Hfs as [|? ? (v1 & Hv1 & H1) Hfs']; inversion Hfs' as [|? ? (v2 & Hv2 & H2) _]; subst.
  simpl in Hv1, Hv2. destruct f as [|f]; [done|].
  rewrite conforms_scalar in H1, H2 by done.
  unfold v_order_item, v_model, field. rewrite Hv1, Hv2.
  apply only_size_vap; [apply only_size_fmap, only_size_at_loc|apply only_size_at_loc, v_int_integer, H2].
  destruct v1; try done. constructor.
Qed.

Lemma order_item_conforms f it :
  conforms (schemas rel) (S (S (S f))) (schema_ref "OrderItem") (dump_order_item it) = true.
Proof.
  rewrite conforms_ref. change (dict_get _ _) with (Some (model_schema order_item_class)).
  apply conforms_model. eexists; split; [done|].
  repeat constructor; (eexists; split; [reflexivity|]); by rewrite conforms_scalar.
Qed.

Lemma menu_item_conforms f m :
  conforms (schemas rel) (S (S (S f))) (schema_ref "MenuItem") (dump_menu_item m) = true.
Proof.
  rewrite conforms_ref. change (dict_get _ _) with (Some (model_schema menu_item_class)).
  apply conforms_model. eexists; split; [done|].
  repeat constructor; (eexists; split; [reflexivity|]); by rewrite conforms_scalar.
Qed.

End Sound.

(** ** Theorems *)

(** C31: The request schema the document publishes for [POST /api/order]
    describes what the endpoint accepts, with one gap.  The body of any
    order conforms to it.  A conforming body is validated into an order
    unless a quantity is an integral float too large for 64 bits: JSON
    Schema counts it as an integer, but Pydantic refuses it with
    [int_parsing_size], and those are the only errors such a body can
    get. *)
Theorem order_schema_sound rel lax :
  ∃ sch, request_body_schema (openapi rel) "/api/order" "post" = Some sch ∧
    (∀ o, conforms (doc_schemas (openapi rel)) schema_fuel sch (dump_order_request o) = true) ∧
    (∀ j, conforms (doc_schemas (openapi rel)) schema_fuel sch j = true →
          Forall (λ e, err_type e = IntParsingSize) (errors (v_order_request lax j))).
Proof.
  exists (schema_ref "OrderRequest"). split; [reflexivity|].
  change (doc_schemas (openapi rel)) with (schemas rel). unfold schema_fuel.
  split; [intros o|intros j]; rewrite conforms_ref;
    change (dict_get _ _) with (Some (model_schema order_request_class)).
  - apply conforms_model. eexists; split; [done|]. repeat constructor.
    eexists; split; [reflexivity|]. apply conforms_list. eexists; split; [done|].
    apply Forall_fmap, Forall_forall. intros it _. apply order_item_conforms.
  - intros (d & -> & Hfs)%conforms_model.
    inversion Hfs as [|? ? (v & Hv & Hl) _]; subst. simpl in Hv.
    apply conforms_list in Hl as (l & -> & Hl).
    unfold v_order_request, v_model, field. rewrite Hv.
    apply only_size_fmap, only_size_at_loc, only_size_v_items.
    eapply Forall_impl; [exact Hl|]. intros x. apply order_item_sound.
Qed.

(** C32: Every answer of [GET /api/menu] is what the document promises:
    a 200 whose body conforms to the published response schema, or the
    500 of a catalog that fails [response_model] validation. *)
Theorem menu_response_conforms rel lax s :
  ∃ sch, response_schema (openapi rel) "/api/menu" "get" "200" = Some sch ∧
    match content (serve_menu lax s) with
    | BJson j => status (serve_menu lax s) = 200%Z ∧ conforms (doc_schemas (openapi rel)) schema_fuel sch j = true
    | _ => status (serve_menu lax s) = 500%Z
    end.
Proof.
  exists (JDict [("items", schema_ref "MenuItem"); ("type", JStr "array");
                 ("title", JStr "Response Get Menu Api Menu Get")]).
  split; [reflexivity|]. change (doc_schemas (openapi rel)) with (schemas rel).
  unfold serve_menu. destruct (v_list _ _) as [l|es]; [|done]. split; [done|].
  unfold schema_fuel. rewrite conforms_array. apply forallb_Forall, Forall_fmap, Forall_forall. intros m _. apply (menu_item_conforms rel).
Qed.

(** ** Examples *)

(** The gap: a quantity of [1e300] is an integer for JSON Schema, so the
    body conforms, but the endpoint refuses it. *)
Example order_schema_gap :
  let body := JDict [("items", JList [JDict [("item_id", JStr "1"); ("quantity", JFloat 1e300%float)]])] in
  conforms (doc_schemas (openapi (mkFastApiRelease "3.1.0" (JDict []) (JDict [])))) schema_fuel
    (schema_ref "OrderRequest") body = true ∧
  v_order_request lax_digits body =
    Invalid [mkValError IntParsingSize [LKey "items"; LIdx 0; LKey "quantity"]].
Proof. split; vm_compute; reflexivity. Qed.

End OpenApi.
